(** * Feed Me worker: velocity classifier, post lifecycle, queues and alert dedupe

    A shallow embedding of the worker of the feed_me repository
    (apps/worker/app: sync.py, db.py, cli.py, config.py, sheets.py) together
    with the properties that its specification states about it and further
    properties of the code.

    Conventions of the embedding.
    - Python [int] is [Z]; [None] is [option]'s [None].
    - Python [float] values are exact rationals [Q].  Every float of the
      classifier is a quotient of two integers (a metric by a number of days,
      a rank by a count); the embedding takes the quotient exactly where the
      source rounds it to a double.
    - Python [str] is [string], a sequence of UTF-8 bytes.  The tag literals
      are the byte sequences of the source files.
    - The relational store is a record of tables, each table a list of rows in
      insertion order; SQL statements are functions on that record.
    - Wall-clock readings ([NOW()], [datetime.now]) are explicit arguments,
      in seconds. *)

From Stdlib Require Import ZArith QArith Qround List String Ascii Bool Lia.
From Stdlib Require Import Sorting.Sorted Sorting.Permutation.
From Stdlib Require Import DecimalString DecimalZ DecimalPos.
Import ListNotations.

Local Open Scope Z_scope.

(* ------------------------------------------------------------------ *)
(** ** Python primitives used by the worker *)

Module Py.

(** Truthiness of a string: [if s:]. *)
Definition truthy (s : string) : bool :=
  match s with
  | EmptyString => false
  | String _ _ => true
  end.

(** [a or b] on an optional string [a]: [a] when it is present and
    non-empty, [b] otherwise. *)
Definition or_else (a : option string) (b : string) : string :=
  match a with
  | Some s => if truthy s then s else b
  | None => b
  end.

(** [a or b] where both sides may be [None]. *)
Definition or_opt (a b : option string) : option string :=
  match a with
  | Some s => if truthy s then Some s else b
  | None => b
  end.

(** [v or 0] on an optional integer. *)
Definition or_zero (v : option Z) : Z :=
  match v with
  | Some z => z
  | None => 0
  end.

(** [str(n)] for an integer. *)
Definition str_of_int (z : Z) : string :=
  NilZero.string_of_int (Z.to_int z).

(** [int(s)] for a string: an optional minus sign followed by decimal
    digits.  Python also accepts surrounding blanks, a plus sign, underscores
    and non-ASCII digits; the worker never builds such strings, and here they
    raise like any other malformed input.  [None] stands for the raised
    [ValueError]. *)
Definition int_of_str (s : string) : option Z :=
  option_map Z.of_int (NilZero.int_of_string s).

(** [s.replace(c, "")] for a one-character pattern. *)
Fixpoint remove_char (c : ascii) (s : string) : string :=
  match s with
  | EmptyString => EmptyString
  | String a s' =>
      if Ascii.eqb a c then remove_char c s' else String a (remove_char c s')
  end.

(** [s.lower()] on the ASCII letters. *)
Definition lower_ascii (c : ascii) : ascii :=
  let n := nat_of_ascii c in
  if (Nat.leb 65 n && Nat.leb n 90)%bool then ascii_of_nat (n + 32) else c.

Fixpoint lower (s : string) : string :=
  match s with
  | EmptyString => EmptyString
  | String a s' => String (lower_ascii a) (lower s')
  end.

(** [sub in s]: substring test. *)
Fixpoint contains (sub s : string) : bool :=
  match s with
  | EmptyString => negb (truthy sub)
  | String _ s' => (prefix sub s || contains sub s')%bool
  end.

(** [round(x)] of a float: to the nearest integer, ties to the even one. *)
Definition round (x : Q) : Z :=
  let n := Qnum x in
  let d := Z.pos (Qden x) in
  let q := n / d in
  let r := n mod d in
  match Z.compare (2 * r) d with
  | Lt => q
  | Gt => q + 1
  | Eq => if Z.even q then q else q + 1
  end.

(** [x < y] on floats. *)
Definition lt (x y : Q) : bool := negb (Qle_bool y x).

(** [s.strip()]: the ASCII blanks of [str.isspace] are removed at both
    ends. *)
Definition is_space (c : ascii) : bool :=
  let n := nat_of_ascii c in
  (Nat.eqb n 32 || (Nat.leb 9 n && Nat.leb n 13) || (Nat.leb 28 n && Nat.leb n 31))%bool.

Fixpoint lstrip (s : string) : string :=
  match s with
  | EmptyString => EmptyString
  | String c s' => if is_space c then lstrip s' else s
  end.

Fixpoint rstrip (s : string) : string :=
  match s with
  | EmptyString => EmptyString
  | String c s' =>
      match rstrip s' with
      | EmptyString => if is_space c then EmptyString else String c EmptyString
      | r => String c r
      end
  end.

Definition strip (s : string) : string := rstrip (lstrip s).

(** A byte that continues a character of a UTF-8 string: [10xxxxxx]. *)
Definition is_continuation (c : ascii) : bool :=
  match c with
  | Ascii _ _ _ _ _ _ b6 b7 => (b7 && negb b6)%bool
  end.

(** [s[:n]]: the first [n] characters; a character is its leading byte
    with the continuation bytes that follow it. *)
Fixpoint take (n : nat) (s : string) : string :=
  match s with
  | EmptyString => EmptyString
  | String c s' =>
      if is_continuation c then String c (take n s')
      else
        match n with
        | O => EmptyString
        | S n' => String c (take n' s')
        end
  end.

End Py.

(* ------------------------------------------------------------------ *)
(** ** Velocity classifier: pure part (sync.py) *)

Module Classifier.

(** The tag literals, byte for byte as sync.py holds them. *)
Definition TAG_ROCKET : string := "ðŸš€".
Definition TAG_FIRE : string := "ðŸ”¥".
Definition TAG_CHECK : string := "âœ…".
Definition TAG_SLEEP : string := "ðŸ˜´".
Definition TAG_CLOVER : string := "â˜˜ï¸".
Definition INSUFFICIENT_DATA : string := "insufficient_data".

(** [_checkpoint_days] *)
Definition _checkpoint_days (checkpoint : string) : Z :=
  if (checkpoint =? "d1")%string then 1
  else if (checkpoint =? "d3")%string then 3
  else if (checkpoint =? "d7")%string then 7
  else if (checkpoint =? "d21")%string then 21
  else 0.

(** [_min_cohort_size] *)
Definition _min_cohort_size (checkpoint : string) : Z :=
  if (checkpoint =? "d1")%string then 12 else 20.

(** A scraped item, as far as the classifier reads it: the two media-type
    fields, and the posting time that [_to_dt] extracts from
    [timestamp], [takenAtTimestamp], [takenAt] or [createdAt]. *)
Record item := {
  item_type : option string;
  item_mediaType : option string;
  item_posted_at : option Z
}.

(** [item.get("type") or item.get("mediaType") or ""] *)
Definition item_media (it : item) : string :=
  Py.or_else (item_type it) (Py.or_else (item_mediaType it) "").

(** The literal [{"type": mtype}]. *)
Definition item_of_type (mtype : string) : item :=
  {| item_type := Some mtype; item_mediaType := None; item_posted_at := None |}.

(** [_metric_value] *)
Definition _metric_value (it : item) (views likes comments : option Z) : Q :=
  let media_type := Py.lower (item_media it) in
  if (Py.contains "video" media_type || Py.contains "reel" media_type)%bool then
    inject_Z (Py.or_zero views)
  else if (Py.contains "sidecar" media_type || Py.contains "carousel" media_type)%bool then
    (inject_Z (Py.or_zero likes) + 2 * inject_Z (Py.or_zero comments))%Q
  else inject_Z (Py.or_zero likes).

(** [sorted(set(values), reverse=True)]: insertion into a strictly
    descending list, an equal value being already there. *)
Fixpoint insert_desc (x : Q) (l : list Q) : list Q :=
  match l with
  | [] => [x]
  | y :: l' =>
      if Qeq_bool x y then l
      else if Qle_bool y x then x :: l
      else y :: insert_desc x l'
  end.

Definition sorted_set_desc (values : list Q) : list Q :=
  fold_right insert_desc [] values.

(** The [for i, v in enumerate(uniq_desc, start=1)] loop of [_percentile]:
    the first position whose value is at most [value], [rank] when the loop
    ends without a [break]. *)
Fixpoint rank_loop (i : Z) (uniq_desc : list Q) (value : Q) (rank : Z) : Z :=
  match uniq_desc with
  | [] => rank
  | v :: rest => if Qle_bool v value then i else rank_loop (i + 1) rest value rank
  end.

(** The float [1 + (rank - 1) * 99 / (n - 1)]. *)
Definition percentile_raw (rank n : Z) : Q :=
  (1 + inject_Z ((rank - 1) * 99) / inject_Z (n - 1))%Q.

(** [f"{p}%"] *)
Definition percent_string (p : Z) : string :=
  (Py.str_of_int p ++ "%")%string.

(** [_percentile] *)
Definition _percentile (values : list Q) (value : Q) : option string :=
  match values with
  | [] => None
  | _ :: _ =>
      let uniq_desc := sorted_set_desc values in
      match uniq_desc with
      | [] => None
      | [_] => Some "50%"%string
      | _ :: _ :: _ =>
          let n := Z.of_nat (List.length uniq_desc) in
          let rank := rank_loop 1 uniq_desc value n in
          let p := Py.round (percentile_raw rank n) in
          let p := Z.max 1 (Z.min 100 p) in
          Some (percent_string p)
      end
  end.

(** [_velocity_tag] *)
Definition _velocity_tag (percentile : option string) : string :=
  let p :=
    match percentile with
    | Some s => if Py.truthy s then Py.int_of_str (Py.remove_char "%" s) else None
    | None => None
    end in
  match p with
  | None => TAG_CHECK
  | Some p =>
      if p <=? 5 then TAG_ROCKET
      else if p <=? 15 then TAG_FIRE
      else if p <=? 35 then TAG_CHECK
      else if 35 <? p then TAG_SLEEP
      else TAG_CHECK
  end.

(** [_is_high_tag] *)
Definition _is_high_tag (tag : option string) : bool :=
  match tag with
  | None => false
  | Some t =>
      if Py.truthy t then (Py.contains TAG_FIRE t || Py.contains TAG_ROCKET t)%bool
      else false
  end.

(** The rank in the words of the specification: the 1-based index of the
    first value of [uniq] that is at most [mpd]. *)
Definition first_index_le (uniq : list Q) (mpd : Q) (r : nat) : Prop :=
  (1 <= r)%nat /\
  (exists u, nth_error uniq (r - 1) = Some u /\ (u <= mpd)%Q) /\
  (forall j u, (j < r - 1)%nat -> nth_error uniq j = Some u -> ~ (u <= mpd)%Q).

(** Strictly descending lists, and membership up to numeric equality. *)
Definition strictly_desc (l : list Q) : Prop :=
  StronglySorted (fun a b => (b < a)%Q) l.

Definition InQ (x : Q) (l : list Q) : Prop :=
  exists y, In y l /\ (x == y)%Q.

End Classifier.

(* ------------------------------------------------------------------ *)
(** ** The relational store (db.py): snapshots, signals, checkpoint metrics *)

Module Store.
Import Classifier.

(** One checkpoint of a snapshot row: the columns [dN_at], [dN_views],
    [dN_likes], [dN_comments]. *)
Record triple := {
  t_at : option Z;
  t_views : option Z;
  t_likes : option Z;
  t_comments : option Z
}.

Definition no_triple : triple :=
  {| t_at := None; t_views := None; t_likes := None; t_comments := None |}.

(** A row of [post_snapshots]. *)
Record snapshot := {
  snap_subscriber_id : Z;
  snap_handle : string;
  snap_post_url : string;
  snap_media_type : option string;
  snap_posted_at : option Z;
  snap_d1 : triple;
  snap_d3 : triple;
  snap_d7 : triple;
  snap_d21 : triple
}.

(** A row of [post_signals]; the feed and feeder back-references are left
    out. *)
Record signal := {
  sig_subscriber_id : Z;
  sig_handle : string;
  sig_post_url : string;
  sig_media_type : option string;
  sig_posted_at : option Z;
  sig_caption : option string;
  sig_velocity_tag : option string;
  sig_velocity_stage : option string;
  sig_velocity_percentile : option string
}.

(** A row of [post_checkpoint_metrics]; the feed and feeder back-references
    and [perf_score] (always written as NULL by the classifier) are left
    out. *)
Record checkpoint_metric := {
  cm_subscriber_id : Z;
  cm_handle : string;
  cm_post_url : string;
  cm_checkpoint : string;
  cm_checkpoint_at : Z;
  cm_stage_label : string;
  cm_views : option Z;
  cm_likes : option Z;
  cm_comments : option Z;
  cm_metric_value : option Q;
  cm_velocity_value : option Q;
  cm_velocity_tag : option string;
  cm_velocity_percentile : option string
}.

(** The tables the classifier reads and writes. *)
Record tables := {
  post_snapshots : list snapshot;
  post_signals : list signal;
  post_checkpoint_metrics : list checkpoint_metric
}.

Definition snapshot_key (sub : Z) (handle url : string) (r : snapshot) : bool :=
  ((snap_subscriber_id r =? sub) && (snap_handle r =? handle)%string
   && (snap_post_url r =? url)%string)%bool.

Definition signal_key (sub : Z) (handle url : string) (r : signal) : bool :=
  ((sig_subscriber_id r =? sub) && (sig_handle r =? handle)%string
   && (sig_post_url r =? url)%string)%bool.

Definition metric_key (sub : Z) (handle url checkpoint : string)
    (r : checkpoint_metric) : bool :=
  ((cm_subscriber_id r =? sub) && (cm_handle r =? handle)%string
   && (cm_post_url r =? url)%string && (cm_checkpoint r =? checkpoint)%string)%bool.

(** The [mapping] / [field_map] dictionaries: the columns of a checkpoint,
    [None] for a key that is not in the dictionary. *)
Definition checkpoint_columns (checkpoint : string) (r : snapshot) : option triple :=
  if (checkpoint =? "d1")%string then Some (snap_d1 r)
  else if (checkpoint =? "d3")%string then Some (snap_d3 r)
  else if (checkpoint =? "d7")%string then Some (snap_d7 r)
  else if (checkpoint =? "d21")%string then Some (snap_d21 r)
  else None.

(** [checkpoint in field_map] *)
Definition in_field_map (checkpoint : string) : bool :=
  ((checkpoint =? "d1") || (checkpoint =? "d3") || (checkpoint =? "d7")
   || (checkpoint =? "d21"))%string%bool.

Definition set_checkpoint_columns (checkpoint : string) (t : triple) (r : snapshot)
    : snapshot :=
  {| snap_subscriber_id := snap_subscriber_id r;
     snap_handle := snap_handle r;
     snap_post_url := snap_post_url r;
     snap_media_type := snap_media_type r;
     snap_posted_at := snap_posted_at r;
     snap_d1 := if (checkpoint =? "d1")%string then t else snap_d1 r;
     snap_d3 := if (checkpoint =? "d3")%string then t else snap_d3 r;
     snap_d7 := if (checkpoint =? "d7")%string then t else snap_d7 r;
     snap_d21 := if (checkpoint =? "d21")%string then t else snap_d21 r |}.

Definition set_media_type (m : option string) (r : snapshot) : snapshot :=
  {| snap_subscriber_id := snap_subscriber_id r;
     snap_handle := snap_handle r;
     snap_post_url := snap_post_url r;
     snap_media_type := m;
     snap_posted_at := snap_posted_at r;
     snap_d1 := snap_d1 r;
     snap_d3 := snap_d3 r;
     snap_d7 := snap_d7 r;
     snap_d21 := snap_d21 r |}.

(** [COALESCE(a, b)] *)
Definition coalesce {A : Type} (a b : option A) : option A :=
  match a with
  | Some _ => a
  | None => b
  end.

(** [v IS NOT NULL OR l IS NOT NULL OR c IS NOT NULL] *)
Definition any_value (t : triple) : bool :=
  match t_views t, t_likes t, t_comments t with
  | None, None, None => false
  | _, _, _ => true
  end.

(** [get_snapshots] *)
Definition get_snapshots (db : tables) (sub : Z) (handle url : string)
    : option snapshot :=
  find (snapshot_key sub handle url) (post_snapshots db).

(** [upsert_snapshot]: insert the row unless its key exists, then overwrite
    the columns of the checkpoint; [media_type] and [dN_at] keep a value they
    already have. *)
Definition upsert_snapshot (db : tables) (now : Z) (sub : Z) (handle url : string)
    (media_type : option string) (posted_at : option Z) (checkpoint : string)
    (views likes comments : option Z) : tables :=
  let rows := post_snapshots db in
  let rows :=
    if existsb (snapshot_key sub handle url) rows then rows
    else rows ++ [{| snap_subscriber_id := sub; snap_handle := handle;
                     snap_post_url := url; snap_media_type := media_type;
                     snap_posted_at := posted_at;
                     snap_d1 := no_triple; snap_d3 := no_triple;
                     snap_d7 := no_triple; snap_d21 := no_triple |}] in
  let rows :=
    if negb (in_field_map checkpoint) then rows
    else
        map (fun r =>
               if snapshot_key sub handle url r then
                 match checkpoint_columns checkpoint r with
                 | Some old =>
                     set_checkpoint_columns checkpoint
                       {| t_at := coalesce (t_at old) (Some now);
                          t_views := views; t_likes := likes;
                          t_comments := comments |}
                       (set_media_type (coalesce (snap_media_type r) media_type) r)
                 | None => r
                 end
               else r) rows in
  {| post_snapshots := rows;
     post_signals := post_signals db;
     post_checkpoint_metrics := post_checkpoint_metrics db |}.

(** [upsert_post_signal]: last write wins, except that a NULL [posted_at]
    keeps the stored one. *)
Definition upsert_post_signal (db : tables) (sub : Z) (handle url : string)
    (media_type : option string) (posted_at : option Z) (caption : option string)
    (velocity_tag velocity_stage velocity_percentile : option string) : tables :=
  let fresh old_posted_at :=
    {| sig_subscriber_id := sub; sig_handle := handle; sig_post_url := url;
       sig_media_type := media_type;
       sig_posted_at := coalesce posted_at old_posted_at;
       sig_caption := caption;
       sig_velocity_tag := velocity_tag;
       sig_velocity_stage := velocity_stage;
       sig_velocity_percentile := velocity_percentile |} in
  let rows := post_signals db in
  let rows :=
    if existsb (signal_key sub handle url) rows then
      map (fun r => if signal_key sub handle url r then fresh (sig_posted_at r) else r)
          rows
    else rows ++ [fresh None] in
  {| post_snapshots := post_snapshots db;
     post_signals := rows;
     post_checkpoint_metrics := post_checkpoint_metrics db |}.

(** [upsert_checkpoint_metric] *)
Definition upsert_checkpoint_metric (db : tables) (now : Z) (sub : Z)
    (handle url checkpoint stage_label : string) (views likes comments : option Z)
    (metric_value velocity_value : option Q)
    (velocity_tag velocity_percentile : option string) : tables :=
  let fresh :=
    {| cm_subscriber_id := sub; cm_handle := handle; cm_post_url := url;
       cm_checkpoint := checkpoint; cm_checkpoint_at := now;
       cm_stage_label := stage_label;
       cm_views := views; cm_likes := likes; cm_comments := comments;
       cm_metric_value := metric_value; cm_velocity_value := velocity_value;
       cm_velocity_tag := velocity_tag;
       cm_velocity_percentile := velocity_percentile |} in
  let rows := post_checkpoint_metrics db in
  let rows :=
    if existsb (metric_key sub handle url checkpoint) rows then
      map (fun r => if metric_key sub handle url checkpoint r then fresh else r) rows
    else rows ++ [fresh] in
  {| post_snapshots := post_snapshots db;
     post_signals := post_signals db;
     post_checkpoint_metrics := rows |}.

(** [is_d7_hot]: whether the stored signal of the post holds a hot tag. *)
Definition is_d7_hot (db : tables) (sub : Z) (handle url : string) : bool :=
  match find (signal_key sub handle url) (post_signals db) with
  | None => false
  | Some row =>
      let tag := Py.or_else (sig_velocity_tag row) "" in
      (Py.contains TAG_FIRE tag || Py.contains TAG_ROCKET tag)%bool
  end.

End Store.

(* ------------------------------------------------------------------ *)
(** ** Post lifecycle and cohort classification (sync.py) *)

Module Lifecycle.
Import Classifier Store.

(** The normalised record [norm], as far as [_apply_velocity] reads and
    writes it. *)
Record norm := {
  n_post_url : string;
  n_media_type : string;
  n_views : string;
  n_likes : string;
  n_comments : string;
  n_caption : string;
  n_velocity : string;
  n_velocity_percentile : string;
  n_velocity_stage : string
}.

Definition set_velocity (velocity percentile stage : string) (n : norm) : norm :=
  {| n_post_url := n_post_url n;
     n_media_type := n_media_type n;
     n_views := n_views n;
     n_likes := n_likes n;
     n_comments := n_comments n;
     n_caption := n_caption n;
     n_velocity := velocity;
     n_velocity_percentile := percentile;
     n_velocity_stage := stage |}.

(** [_safe_int] *)
Definition _safe_int (value : string) : option Z := Py.int_of_str value.

(** [_checkpoint_from_age] *)
Definition _checkpoint_from_age (age_hours : Q) : string * string :=
  if Py.lt age_hours 48 then ("d1", "D1")%string
  else if Py.lt age_hours 168 then ("d3", "D3")%string
  else if Py.lt age_hours 504 then ("d7", "D7")%string
  else ("d21", "D21")%string.

(** [_stage_label] *)
Definition _stage_label (checkpoint : string) (age_hours : Q) : string :=
  if (checkpoint =? "d1")%string then
    if Py.lt age_hours 24 then "D1"%string else "D2"%string
  else if (checkpoint =? "d3")%string then "D3"%string
  else if (checkpoint =? "d7")%string then "D7"%string
  else if (checkpoint =? "d21")%string then "D21"%string
  else "D1"%string.

(** [_metric_for_checkpoint] *)
Definition _metric_for_checkpoint (snap : snapshot) (it : item) (checkpoint : string)
    : option Q :=
  match checkpoint_columns checkpoint snap with
  | None => None
  | Some t =>
      if any_value t then Some (_metric_value it (t_views t) (t_likes t) (t_comments t))
      else None
  end.

(** [(snap.get("media_type") or item.get("type") or item.get("mediaType")
    or "").lower()] *)
Definition cohort_media_type (snap : snapshot) (it : item) : string :=
  Py.lower (Py.or_else (snap_media_type snap) (item_media it)).

(** The row filter of [_velocity_pool]: the SELECT keeps the rows of the
    subscriber and handle that hold a value at the checkpoint. *)
Definition pool_row (sub : Z) (handle checkpoint : string) (r : snapshot) : bool :=
  ((snap_subscriber_id r =? sub) && (snap_handle r =? handle)%string
   && match checkpoint_columns checkpoint r with
      | Some t => any_value t
      | None => false
      end)%bool.

(** The body of the [for row in rows] loop: the value a row adds to the
    pool, [None] when the media types do not match. *)
Definition pool_value (media_type checkpoint : string) (days : Z) (r : snapshot)
    : option Q :=
  let mtype := Py.lower (Py.or_else (snap_media_type r) "") in
  if (Py.truthy media_type && Py.truthy mtype
      && negb (Py.contains media_type mtype)
      && negb (Py.contains mtype media_type))%bool then None
  else
    match checkpoint_columns checkpoint r with
    | Some t =>
        Some (_metric_value (item_of_type mtype) (t_views t) (t_likes t) (t_comments t)
              / inject_Z days)%Q
    | None => None
    end.

Fixpoint pool_values (media_type checkpoint : string) (days : Z) (rows : list snapshot)
    : list Q :=
  match rows with
  | [] => []
  | r :: rest =>
      match pool_value media_type checkpoint days r with
      | Some v => v :: pool_values media_type checkpoint days rest
      | None => pool_values media_type checkpoint days rest
      end
  end.

(** [_velocity_pool] *)
Definition _velocity_pool (db : tables) (sub : Z) (handle media_type checkpoint : string)
    : list Q :=
  let days := _checkpoint_days checkpoint in
  if days <=? 0 then []
  else if negb (in_field_map checkpoint) then []
  else
    pool_values media_type checkpoint days
      (filter (pool_row sub handle checkpoint) (post_snapshots db)).

(** The rows of the posts other than the given one, and what they add to
    the pool. *)
Definition peers (sub : Z) (handle url : string) (rows : list snapshot) : list snapshot :=
  filter (fun r => negb (snapshot_key sub handle url r)) rows.

Definition peer_pool (db : tables) (sub : Z) (handle url media_type checkpoint : string)
    : list Q :=
  pool_values media_type checkpoint (_checkpoint_days checkpoint)
    (filter (pool_row sub handle checkpoint) (peers sub handle url (post_snapshots db))).

(** [_velocity_tag_for_checkpoint] *)
Definition _velocity_tag_for_checkpoint (db : tables) (sub : Z)
    (handle media_type : string) (snap : snapshot) (it : item) (checkpoint : string)
    : option string :=
  let days := _checkpoint_days checkpoint in
  if days <=? 0 then None
  else
    match _metric_for_checkpoint snap it checkpoint with
    | None => None
    | Some metric =>
        let metric_per_day := (metric / inject_Z days)%Q in
        let pool := _velocity_pool db sub handle media_type checkpoint in
        match pool with
        | [] => None
        | _ :: _ =>
            if Z.of_nat (List.length pool) <? _min_cohort_size checkpoint
            then Some INSUFFICIENT_DATA
            else Some (_velocity_tag (_percentile pool metric_per_day))
        end
    end.

(** [_velocity_from_snapshots]: the percentile and the tag.  The first
    component of the source's result is always [None] and is left out. *)
Definition _velocity_from_snapshots (db : tables) (sub : Z) (handle : string)
    (snap : snapshot) (it : item) (checkpoint : string) : option string * string :=
  let days := _checkpoint_days checkpoint in
  if days <=? 0 then (None, ""%string)
  else
    match _metric_for_checkpoint snap it checkpoint with
    | None => (None, ""%string)
    | Some current_metric =>
        let metric_per_day := (current_metric / inject_Z days)%Q in
        let media_type := cohort_media_type snap it in
        let pool := _velocity_pool db sub handle media_type checkpoint in
        match pool with
        | [] => (None, ""%string)
        | _ :: _ =>
            if Z.of_nat (List.length pool) <? _min_cohort_size checkpoint
            then (None, INSUFFICIENT_DATA)
            else
              let percentile := _percentile pool metric_per_day in
              let tag := _velocity_tag percentile in
              let tag :=
                if (checkpoint =? "d7")%string then
                  let prev :=
                    _velocity_tag_for_checkpoint db sub handle media_type snap it "d1" in
                  if (negb (_is_high_tag prev) && _is_high_tag (Some tag))%bool
                  then (TAG_CLOVER ++ tag)%string
                  else tag
                else tag in
              (percentile, tag)
        end
    end.

(** The tail shared by both branches of [_apply_velocity]: what is shown in
    the sheet for a signal tag. *)
Definition shown (signal_tag signal_percentile stage : string) (n : norm) : norm :=
  if (signal_tag =? INSUFFICIENT_DATA)%string then set_velocity "" "" stage n
  else set_velocity signal_tag signal_percentile stage n.

(** [_apply_velocity], from the point where the posting time is known; the
    function returns the store and the updated [norm]. *)
Definition apply_velocity_at (db : tables) (now posted_at : Z) (sub : Z)
    (handle : string) (it : item) (n : norm) (forced_checkpoint : option string)
    : tables * norm :=
  let age_hours := (inject_Z (now - posted_at) / 3600)%Q in
  let checkpoint :=
    match forced_checkpoint with
    | Some c => if Py.truthy c then c else fst (_checkpoint_from_age age_hours)
    | None => fst (_checkpoint_from_age age_hours)
    end in
  let n := set_velocity (n_velocity n) (n_velocity_percentile n)
             (_stage_label checkpoint age_hours) n in
  let views := _safe_int (n_views n) in
  let likes := _safe_int (n_likes n) in
  let comments := _safe_int (n_comments n) in
  let metric_now := _metric_value it views likes comments in
  let days_now := _checkpoint_days checkpoint in
  let velocity_now :=
    if 0 <? days_now then Some (metric_now / inject_Z days_now)%Q else None in
  let url := n_post_url n in
  let gate :=
    if (checkpoint =? "d21")%string then
      match get_snapshots db sub handle url with
      | Some snap =>
          let media_type := cohort_media_type snap it in
          let d7_tag :=
            _velocity_tag_for_checkpoint db sub handle media_type snap it "d7" in
          if negb (_is_high_tag d7_tag) then Some (snap, d7_tag) else None
      | None => None
      end
    else None in
  match gate with
  | Some (snap, d7_tag) =>
      let '(d7_percentile, d7_tag_full) :=
        _velocity_from_snapshots db sub handle snap it "d7" in
      let signal_tag :=
        if Py.truthy d7_tag_full then d7_tag_full else Py.or_else d7_tag TAG_CHECK in
      let signal_percentile := Py.or_else d7_percentile "" in
      let stage := _stage_label "d7" age_hours in
      let n := shown signal_tag signal_percentile stage n in
      let db :=
        upsert_post_signal db sub handle url (Some (n_media_type n)) (Some posted_at)
          (Some (n_caption n)) (Some signal_tag) (Some stage) (Some signal_percentile) in
      let d7 := snap_d7 snap in
      let metric := _metric_for_checkpoint snap it "d7" in
      let db :=
        upsert_checkpoint_metric db now sub handle url "d7" stage
          (t_views d7) (t_likes d7) (t_comments d7)
          metric
          (match metric with
           | Some m => Some (m / 7)%Q
           | None => None
           end)
          (Some signal_tag) (Some signal_percentile) in
      (db, n)
  | None =>
      let db :=
        upsert_snapshot db now sub handle url (Some (n_media_type n)) (Some posted_at)
          checkpoint views likes comments in
      match get_snapshots db sub handle url with
      | None => (db, n)
      | Some snap =>
          let '(percentile, tag) :=
            _velocity_from_snapshots db sub handle snap it checkpoint in
          let signal_tag := if Py.truthy tag then tag else TAG_CHECK in
          let signal_percentile := Py.or_else percentile "" in
          let stage := _stage_label checkpoint age_hours in
          let n := shown signal_tag signal_percentile stage n in
          let db :=
            upsert_post_signal db sub handle url (Some (n_media_type n)) (Some posted_at)
              (Some (n_caption n)) (Some signal_tag) (Some stage)
              (Some signal_percentile) in
          let db :=
            upsert_checkpoint_metric db now sub handle url checkpoint
              (if Py.truthy stage then stage else _stage_label checkpoint age_hours)
              views likes comments (Some metric_now) velocity_now
              (Some signal_tag) (Some signal_percentile) in
          (db, n)
      end
  end.

(** [_apply_velocity]: nothing happens for an item without a posting
    time. *)
Definition _apply_velocity (db : tables) (now : Z) (sub : Z) (handle : string)
    (it : item) (n : norm) (forced_checkpoint : option string) : tables * norm :=
  match item_posted_at it with
  | None => (db, n)
  | Some posted_at => apply_velocity_at db now posted_at sub handle it n forced_checkpoint
  end.

End Lifecycle.

(* ------------------------------------------------------------------ *)
(** ** Queues and circuit breaker (db.py) *)

Module Queue.
Import Store.

Inductive status : Set :=
| pending | running | retry | done | failed | skipped.

Definition status_eqb (a b : status) : bool :=
  match a, b with
  | pending, pending | running, running | retry, retry
  | done, done | failed, failed | skipped, skipped => true
  | _, _ => false
  end.

(** A row of [run_queue]. *)
Record run_job := {
  rj_id : Z;
  rj_subscriber_id : Z;
  rj_spreadsheet_id : string;
  rj_handle : string;
  rj_run_type : string;
  rj_attempt : Z;
  rj_next_run_at : Z;
  rj_status : status;
  rj_last_error : option string
}.

(** A row of [post_queue]. *)
Record post_job := {
  pj_id : Z;
  pj_subscriber_id : Z;
  pj_spreadsheet_id : string;
  pj_handle : string;
  pj_post_url : string;
  pj_checkpoint : string;
  pj_requires_d7_hot : bool;
  pj_attempt : Z;
  pj_next_run_at : Z;
  pj_status : status;
  pj_last_error : option string
}.

(** The singleton row of [apify_health].  [init_db] inserts it and no
    statement deletes it, so the row is always there. *)
Record health := {
  consecutive_failures : Z;
  pause_until : option Z;
  last_error : option string
}.

(** The whole store: the classifier's tables, the two queues, the breaker. *)
Record state := {
  db : tables;
  run_queue : list run_job;
  post_queue : list post_job;
  apify_health : health
}.

Definition with_db (t : tables) (st : state) : state :=
  {| db := t; run_queue := run_queue st; post_queue := post_queue st;
     apify_health := apify_health st |}.

Definition with_run_queue (q : list run_job) (st : state) : state :=
  {| db := db st; run_queue := q; post_queue := post_queue st;
     apify_health := apify_health st |}.

Definition with_post_queue (q : list post_job) (st : state) : state :=
  {| db := db st; run_queue := run_queue st; post_queue := q;
     apify_health := apify_health st |}.

Definition with_health (h : health) (st : state) : state :=
  {| db := db st; run_queue := run_queue st; post_queue := post_queue st;
     apify_health := h |}.

(** [status IN ('pending','retry') AND next_run_at <= NOW()] *)
Definition ready (now : Z) (s : status) (next_run_at : Z) : bool :=
  ((status_eqb s pending || status_eqb s retry) && (next_run_at <=? now))%bool.

(** [ORDER BY next_run_at ASC, id ASC]: insertion sort on the pair. *)
Definition earlier (a b : Z * Z) : bool :=
  ((fst a <? fst b) || ((fst a =? fst b) && (snd a <? snd b)))%bool.

Fixpoint insert_by {A : Type} (key : A -> Z * Z) (x : A) (l : list A) : list A :=
  match l with
  | [] => [x]
  | y :: rest =>
      if earlier (key y) (key x) then y :: insert_by key x rest else x :: l
  end.

Definition order_by {A : Type} (key : A -> Z * Z) (l : list A) : list A :=
  fold_right (insert_by key) [] l.

Definition run_key (j : run_job) : Z * Z := (rj_next_run_at j, rj_id j).
Definition post_key (j : post_job) : Z * Z := (pj_next_run_at j, pj_id j).

Definition set_run_job (s : status) (attempt next_run_at : Z) (err : option string)
    (j : run_job) : run_job :=
  {| rj_id := rj_id j; rj_subscriber_id := rj_subscriber_id j;
     rj_spreadsheet_id := rj_spreadsheet_id j; rj_handle := rj_handle j;
     rj_run_type := rj_run_type j; rj_attempt := attempt;
     rj_next_run_at := next_run_at; rj_status := s; rj_last_error := err |}.

Definition set_post_job (s : status) (attempt next_run_at : Z) (err : option string)
    (j : post_job) : post_job :=
  {| pj_id := pj_id j; pj_subscriber_id := pj_subscriber_id j;
     pj_spreadsheet_id := pj_spreadsheet_id j; pj_handle := pj_handle j;
     pj_post_url := pj_post_url j; pj_checkpoint := pj_checkpoint j;
     pj_requires_d7_hot := pj_requires_d7_hot j; pj_attempt := attempt;
     pj_next_run_at := next_run_at; pj_status := s; pj_last_error := err |}.

(** [UPDATE run_queue SET ... WHERE id=%s] *)
Definition update_run (id : Z) (f : run_job -> run_job) (q : list run_job)
    : list run_job :=
  map (fun j => if rj_id j =? id then f j else j) q.

(** [UPDATE post_queue SET ... WHERE id=%s] *)
Definition update_post (id : Z) (f : post_job -> post_job) (q : list post_job)
    : list post_job :=
  map (fun j => if pj_id j =? id then f j else j) q.

(** [fetch_next_job]: claim the first ready row of [run_queue]. *)
Definition fetch_next_job (now : Z) (st : state) : state * option run_job :=
  match order_by run_key
          (filter (fun j => ready now (rj_status j) (rj_next_run_at j)) (run_queue st)) with
  | [] => (st, None)
  | job :: _ =>
      (with_run_queue
         (update_run (rj_id job)
            (fun j => set_run_job running (rj_attempt j) (rj_next_run_at j)
                        (rj_last_error j) j)
            (run_queue st)) st,
       Some job)
  end.

(** [fetch_next_post_job]: claim the first ready row of [post_queue]. *)
Definition fetch_next_post_job (now : Z) (st : state) : state * option post_job :=
  match order_by post_key
          (filter (fun j => ready now (pj_status j) (pj_next_run_at j)) (post_queue st)) with
  | [] => (st, None)
  | job :: _ =>
      (with_post_queue
         (update_post (pj_id job)
            (fun j => set_post_job running (pj_attempt j) (pj_next_run_at j)
                        (pj_last_error j) j)
            (post_queue st)) st,
       Some job)
  end.

(** Two jobs share [(subscriber, handle, checkpoint)]. *)
Definition same_batch_key (a b : post_job) : bool :=
  ((pj_subscriber_id a =? pj_subscriber_id b)
   && (pj_handle a =? pj_handle b)%string
   && (pj_checkpoint a =? pj_checkpoint b)%string)%bool.

(** The ready rows that share the key of the first ready row, in the order
    of the queue. *)
Definition batch_candidates (now : Z) (q : list post_job) : list post_job :=
  match order_by post_key
          (filter (fun j => ready now (pj_status j) (pj_next_run_at j)) q) with
  | [] => []
  | anchor :: rest => filter (same_batch_key anchor) (anchor :: rest)
  end.

(** [SET status='running'] on the rows of a batch. *)
Definition claim_posts (batch : list post_job) (q : list post_job) : list post_job :=
  map (fun j =>
         if existsb (fun b => pj_id b =? pj_id j) batch
         then set_post_job running (pj_attempt j) (pj_next_run_at j) (pj_last_error j) j
         else j) q.

(** Modelled from the spec: [fetch_next_post_job_batch], which cli.py imports
    from db.py and db.py does not define.  The batch claims up to [n] ready
    rows that share the subscriber, handle and checkpoint of the first ready
    row in the order of the queue ([next_run_at], then [id]), sets them
    running and returns them; with fewer than [n] such rows it returns what
    is available. *)
Definition fetch_next_post_job_batch (now : Z) (n : Z) (st : state)
    : state * list post_job :=
  let batch := firstn (Z.to_nat n) (batch_candidates now (post_queue st)) in
  (with_post_queue (claim_posts batch (post_queue st)) st, batch).

(** [mark_job_success], [mark_job_retry], [mark_job_failed] *)
Definition mark_job_success (id : Z) (st : state) : state :=
  with_run_queue
    (update_run id (fun j => set_run_job done (rj_attempt j) (rj_next_run_at j) None j)
       (run_queue st)) st.

Definition mark_job_retry (id attempt next_run_at : Z) (error : string) (st : state)
    : state :=
  with_run_queue
    (update_run id
       (fun j => set_run_job retry attempt next_run_at (Some (Py.take 1000 error)) j)
       (run_queue st)) st.

Definition mark_job_failed (id : Z) (error : string) (st : state) : state :=
  with_run_queue
    (update_run id
       (fun j => set_run_job failed (rj_attempt j) (rj_next_run_at j)
                   (Some (Py.take 1000 error)) j)
       (run_queue st)) st.

(** [mark_post_job_success], [mark_post_job_retry], [mark_post_job_failed],
    [mark_post_job_skipped] *)
Definition mark_post_job_success (id : Z) (st : state) : state :=
  with_post_queue
    (update_post id (fun j => set_post_job done (pj_attempt j) (pj_next_run_at j) None j)
       (post_queue st)) st.

Definition mark_post_job_retry (id attempt next_run_at : Z) (error : string)
    (st : state) : state :=
  with_post_queue
    (update_post id
       (fun j => set_post_job retry attempt next_run_at (Some (Py.take 1000 error)) j)
       (post_queue st)) st.

Definition mark_post_job_failed (id : Z) (error : string) (st : state) : state :=
  with_post_queue
    (update_post id
       (fun j => set_post_job failed (pj_attempt j) (pj_next_run_at j)
                   (Some (Py.take 1000 error)) j)
       (post_queue st)) st.

Definition mark_post_job_skipped (id : Z) (reason : string) (st : state) : state :=
  with_post_queue
    (update_post id
       (fun j => set_post_job skipped (pj_attempt j) (pj_next_run_at j)
                   (Some (Py.take 1000 reason)) j)
       (post_queue st)) st.

(** [get_apify_pause_until] *)
Definition get_apify_pause_until (st : state) : option Z :=
  pause_until (apify_health st).

(** [record_apify_success] *)
Definition record_apify_success (st : state) : state :=
  with_health
    {| consecutive_failures := 0; pause_until := None; last_error := None |} st.

(** [record_apify_failure]: the new state, the incremented count and the
    pause that was set, if any.  [now] is the [NOW()] of the statement. *)
Definition record_apify_failure (now : Z) (error : string)
    (trigger_failures cooldown_hours : Z) (st : state) : state * (Z * option Z) :=
  let h := apify_health st in
  let failures := consecutive_failures h + 1 in
  let h1 :=
    {| consecutive_failures := failures;
       pause_until := pause_until h;
       last_error := Some (Py.take 1000 error) |} in
  if Z.max 1 trigger_failures <=? failures then
    let until := now + Z.max 1 cooldown_hours * 3600 in
    (with_health
       {| consecutive_failures := 0;
          pause_until := Some until;
          last_error := last_error h1 |} st,
     (failures, Some until))
  else (with_health h1 st, (failures, None)).

End Queue.

(* ------------------------------------------------------------------ *)
(** ** Scheduling the checkpoint jobs of a post (db.py) *)

Module Enqueue.
Import Store Queue.

(** The arbiter of [ON CONFLICT (subscriber_id, handle, post_url,
    checkpoint)]. *)
Definition checkpoint_conflict (sub : Z) (handle url checkpoint : string) (j : post_job)
    : bool :=
  ((pj_subscriber_id j =? sub) && (pj_handle j =? handle)%string
   && (pj_post_url j =? url)%string && (pj_checkpoint j =? checkpoint)%string)%bool.

(** One [INSERT INTO post_queue ... ON CONFLICT ... DO NOTHING].  [id] is
    the value that the sequence of the id column yields for the statement;
    [attempt] and [last_error] take the defaults that [init_db] declares. *)
Definition insert_post_job (id sub : Z) (sheet handle url checkpoint : string)
    (requires_d7_hot : bool) (run_at : Z) (q : list post_job) : list post_job :=
  if existsb (checkpoint_conflict sub handle url checkpoint) q then q
  else
    q ++ [{| pj_id := id; pj_subscriber_id := sub; pj_spreadsheet_id := sheet;
             pj_handle := handle; pj_post_url := url; pj_checkpoint := checkpoint;
             pj_requires_d7_hot := requires_d7_hot; pj_attempt := 0;
             pj_next_run_at := run_at; pj_status := pending;
             pj_last_error := None |}].

(** [timedelta(days=n)], in seconds. *)
Definition days (n : Z) : Z := n * 86400.

(** [ensure_post_checkpoint_jobs]; [ids] are the three values of the id
    sequence. *)
Definition ensure_post_checkpoint_jobs (ids : Z * Z * Z) (sub : Z)
    (sheet handle url : string) (posted_at : option Z) (st : state) : state :=
  if negb (Py.truthy url) then st
  else
    match posted_at with
    | None => st
    | Some t =>
        let '(id3, id7, id21) := ids in
        let q := post_queue st in
        let q := insert_post_job id3 sub sheet handle url "d3" false (t + days 3) q in
        let q := insert_post_job id7 sub sheet handle url "d7" false (t + days 7) q in
        let q := insert_post_job id21 sub sheet handle url "d21" true (t + days 21) q in
        with_post_queue q st
    end.

(** At most one job per post and checkpoint, the unique index
    [post_queue_unique_checkpoint]. *)
Definition distinct_checkpoints (a b : post_job) : Prop :=
  ~ (pj_subscriber_id a = pj_subscriber_id b /\ pj_handle a = pj_handle b /\
     pj_post_url a = pj_post_url b /\ pj_checkpoint a = pj_checkpoint b).

Definition unique_checkpoints (q : list post_job) : Prop :=
  ForallOrdPairs distinct_checkpoints q.

End Enqueue.

(* ------------------------------------------------------------------ *)
(** ** The worker loop (cli.py) *)

Module Worker.
Import Classifier Store Queue Enqueue.

(** The settings of config.py that the loop reads. *)
Record config := {
  RETRY_BACKOFF_MINUTES : list Z;
  APIFY_COOLDOWN_TRIGGER_FAILURES : Z;
  APIFY_COOLDOWN_HOURS : Z
}.

(** The result of a call that may raise; the message is the one that
    [_sanitize_error_message] returns for the exception. *)
Inductive outcome (A : Type) : Type :=
| Raised (safe_error : string)
| Returned (result : A).
Arguments Raised {A} safe_error.
Arguments Returned {A} result.

(** The clock readings of one turn of the loop: the [NOW()] of the two
    claims, the [datetime.now] of the cooldown test, and the time after the
    scrape, at which a failure is recorded and the retry is scheduled. *)
Record clock := {
  at_claim : Z;
  at_post_claim : Z;
  at_check : Z;
  at_done : Z
}.

(** [l[i]] with Python's negative indices. *)
Definition index (l : list Z) (i : Z) : Z :=
  nth (Z.to_nat (if i <? 0 then i + Z.of_nat (List.length l) else i)) l 0.

(** [_next_retry_time] *)
Definition _next_retry_time (cfg : config) (now attempt : Z) : Z :=
  let idx := Z.min (attempt - 1) (Z.of_nat (List.length (RETRY_BACKOFF_MINUTES cfg)) - 1) in
  now + index (RETRY_BACKOFF_MINUTES cfg) idx * 60.

(** [pause_until and pause_until > now] *)
Definition cooling (pause : option Z) (now : Z) : option Z :=
  match pause with
  | Some p => if now <? p then Some p else None
  | None => None
  end.

Definition COOLDOWN_ACTIVE : string := "Apify cooldown active".
Definition D21_SKIPPED : string := "D7 not hot; D21 skipped by gate".
Definition POST_MISSING : string := "Post missing in batch result".

(** One call of [ensure_post_checkpoint_jobs] in the loop over the items
    of [sync_handle]: the post, its posting time and the three values of the
    id sequence. *)
Record scheduled := {
  s_ids : Z * Z * Z;
  s_post_url : string;
  s_posted_at : option Z
}.

(** The call, with the subscriber, sheet and handle of the job. *)
Definition schedule (job : run_job) (st : state) (s : scheduled) : state :=
  ensure_post_checkpoint_jobs (s_ids s) (rj_subscriber_id job) (rj_spreadsheet_id job)
    (rj_handle job) (s_post_url s) (s_posted_at s) st.

Section Loop.

Variable cfg : config.

(** The two scraping calls.  [sync_handle] scrapes a handle, writes the
    sheet and the store and schedules the checkpoint jobs of the posts it
    finds; [sync_post_checkpoint_batch], which cli.py imports from sync.py and
    sync.py does not define, scrapes a batch of post URLs and returns the URLs
    it has results for.  Both are taken as they come: any change of the
    classifier's tables together with a result or an exception, and for
    [sync_handle] the calls of [ensure_post_checkpoint_jobs] it made, in
    order, up to its return or its exception. *)
Variable sync_handle : tables -> run_job -> tables * list scheduled * outcome unit.
Variable sync_post_checkpoint_batch :
  tables -> Z -> string -> string -> string -> list string ->
  tables * outcome (list string).

(** The [except] branch of a handle job. *)
Definition handle_failure (now : Z) (job : run_job) (safe_error : string) (st : state)
    : state :=
  let '(st, (_, new_pause_until)) :=
    record_apify_failure now safe_error (APIFY_COOLDOWN_TRIGGER_FAILURES cfg)
      (APIFY_COOLDOWN_HOURS cfg) st in
  let attempt := rj_attempt job + 1 in
  if attempt <=? Z.of_nat (List.length (RETRY_BACKOFF_MINUTES cfg)) then
    let next_time := _next_retry_time cfg now attempt in
    let next_time :=
      match cooling new_pause_until next_time with
      | Some p => p
      | None => next_time
      end in
    mark_job_retry (rj_id job) attempt next_time safe_error st
  else mark_job_failed (rj_id job) safe_error st.

(** The body of [for pj in post_jobs] after a successful batch scrape. *)
Definition resolve_post_job (now : Z) (batch_results : list string) (st : state)
    (pj : post_job) : state :=
  if ((pj_checkpoint pj =? "d21")%string && pj_requires_d7_hot pj
      && negb (is_d7_hot (db st) (pj_subscriber_id pj) (pj_handle pj) (pj_post_url pj)))%bool
  then mark_post_job_skipped (pj_id pj) D21_SKIPPED st
  else if existsb (String.eqb (pj_post_url pj)) batch_results then
    mark_post_job_success (pj_id pj) st
  else
    let attempt := pj_attempt pj + 1 in
    if attempt <=? Z.of_nat (List.length (RETRY_BACKOFF_MINUTES cfg)) then
      mark_post_job_retry (pj_id pj) attempt (_next_retry_time cfg now attempt)
        POST_MISSING st
    else mark_post_job_failed (pj_id pj) POST_MISSING st.

(** The body of [for pj in post_jobs] in the [except] branch. *)
Definition fail_post_job (now : Z) (safe_error : string) (new_pause_until : option Z)
    (st : state) (pj : post_job) : state :=
  let attempt := pj_attempt pj + 1 in
  if attempt <=? Z.of_nat (List.length (RETRY_BACKOFF_MINUTES cfg)) then
    let next_time := _next_retry_time cfg now attempt in
    let next_time :=
      match cooling new_pause_until next_time with
      | Some p => p
      | None => next_time
      end in
    mark_post_job_retry (pj_id pj) attempt next_time safe_error st
  else mark_post_job_failed (pj_id pj) safe_error st.

(** The part of a turn that handles a claimed batch of post jobs. *)
Definition run_post_batch (clk : clock) (pause : option Z) (post_jobs : list post_job)
    (st : state) : state :=
  match post_jobs with
  | [] => st
  | anchor :: _ =>
      match cooling pause (at_check clk) with
      | Some p =>
          fold_left
            (fun st pj => mark_post_job_retry (pj_id pj) (pj_attempt pj) p COOLDOWN_ACTIVE st)
            post_jobs st
      | None =>
          let urls := map pj_post_url post_jobs in
          let '(t, res) :=
            sync_post_checkpoint_batch (db st) (pj_subscriber_id anchor)
              (pj_spreadsheet_id anchor) (pj_handle anchor) (pj_checkpoint anchor) urls in
          let st := with_db t st in
          match res with
          | Returned batch_results =>
              let st := record_apify_success st in
              fold_left (resolve_post_job (at_done clk) batch_results) post_jobs st
          | Raised safe_error =>
              let '(st, (_, new_pause_until)) :=
                record_apify_failure (at_done clk) safe_error
                  (APIFY_COOLDOWN_TRIGGER_FAILURES cfg) (APIFY_COOLDOWN_HOURS cfg) st in
              fold_left (fail_post_job (at_done clk) safe_error new_pause_until)
                post_jobs st
          end
      end
  end.

(** One turn of the [while True] loop of [worker]; run logs, handle state
    and feeder metrics are left out. *)
Definition worker_turn (clk : clock) (st : state) : state :=
  let pause := get_apify_pause_until st in
  let '(st, job) := fetch_next_job (at_claim clk) st in
  match job with
  | Some job =>
      match cooling pause (at_check clk) with
      | Some p => mark_job_retry (rj_id job) (rj_attempt job) p COOLDOWN_ACTIVE st
      | None =>
          let '(t, calls, res) := sync_handle (db st) job in
          let st := fold_left (schedule job) calls (with_db t st) in
          match res with
          | Returned _ => mark_job_success (rj_id job) (record_apify_success st)
          | Raised safe_error => handle_failure (at_done clk) job safe_error st
          end
      end
  | None =>
      let '(st, post_jobs) := fetch_next_post_job_batch (at_post_claim clk) 10 st in
      run_post_batch clk pause post_jobs st
  end.

(** The row updates behind the three loops over a batch: what the loop
    body for the batch job [pj] writes into the row [j] of that job. *)
Definition bounce (p : Z) (pj j : post_job) : post_job :=
  set_post_job retry (pj_attempt pj) p (Some (Py.take 1000 COOLDOWN_ACTIVE)) j.

Definition resolution (now : Z) (batch_results : list string) (t : tables)
    (pj j : post_job) : post_job :=
  if ((pj_checkpoint pj =? "d21")%string && pj_requires_d7_hot pj
      && negb (is_d7_hot t (pj_subscriber_id pj) (pj_handle pj) (pj_post_url pj)))%bool
  then set_post_job skipped (pj_attempt j) (pj_next_run_at j)
         (Some (Py.take 1000 D21_SKIPPED)) j
  else if existsb (String.eqb (pj_post_url pj)) batch_results then
    set_post_job done (pj_attempt j) (pj_next_run_at j) None j
  else
    let attempt := pj_attempt pj + 1 in
    if attempt <=? Z.of_nat (List.length (RETRY_BACKOFF_MINUTES cfg)) then
      set_post_job retry attempt (_next_retry_time cfg now attempt)
        (Some (Py.take 1000 POST_MISSING)) j
    else set_post_job failed (pj_attempt j) (pj_next_run_at j)
           (Some (Py.take 1000 POST_MISSING)) j.

Definition failure (now : Z) (safe_error : string) (new_pause_until : option Z)
    (pj j : post_job) : post_job :=
  let attempt := pj_attempt pj + 1 in
  if attempt <=? Z.of_nat (List.length (RETRY_BACKOFF_MINUTES cfg)) then
    let next_time := _next_retry_time cfg now attempt in
    let next_time :=
      match cooling new_pause_until next_time with
      | Some p => p
      | None => next_time
      end in
    set_post_job retry attempt next_time (Some (Py.take 1000 safe_error)) j
  else set_post_job failed (pj_attempt j) (pj_next_run_at j)
         (Some (Py.take 1000 safe_error)) j.

End Loop.

(** A row after the claim of its job. *)
Definition claimed (j : post_job) : post_job :=
  set_post_job running (pj_attempt j) (pj_next_run_at j) (pj_last_error j) j.

Definition in_batch (batch : list post_job) (j : post_job) : bool :=
  existsb (fun b => pj_id b =? pj_id j) batch.

(** The updates of a loop over a batch, seen from one row. *)
Definition row_updates (g : post_job -> post_job -> post_job) (batch : list post_job)
    (j : post_job) : post_job :=
  fold_left (fun j' pj => if pj_id j' =? pj_id pj then g pj j' else j') batch j.

End Worker.

(* ------------------------------------------------------------------ *)
(** ** Alert candidates (db.py) *)

Module Alerts.

(** A row of [alert_candidates]: the columns the dedupe reads, and the body;
    the tab, category, colour, urgency, family, scores and payload are
    written as given and never read back by the insert. *)
Record alert_candidate := {
  ac_feed_id : Z;
  ac_feeder_id : option Z;
  ac_alert_type : string;
  ac_title : string;
  ac_body : string;
  ac_alert_dedupe_key : string;
  ac_status : string;
  ac_created_at : Z
}.

(** [COALESCE(feeder_id, 0)] and [feeder_id or 0] *)
Definition feeder_or_zero (feeder_id : option Z) : Z := Py.or_zero feeder_id.

(** [status IN ('candidate', 'selected', 'sent')] *)
Definition active (status : string) : bool :=
  ((status =? "candidate") || (status =? "selected") || (status =? "sent"))%string%bool.

Definition DAY : Z := 24 * 3600.

(** A unique index of the table: its columns, and whether it is partial,
    that is, declared with a [WHERE] predicate. *)
Record unique_index := {
  ix_columns : list string;
  ix_partial : bool
}.

(** [alert_candidates_dedupe_idx], the unique index that [init_db] creates:
    [ON alert_candidates (feed_id, alert_dedupe_key) WHERE alert_dedupe_key
    <> '']. *)
Definition alert_candidates_dedupe_idx : unique_index :=
  {| ix_columns := ["feed_id"; "alert_dedupe_key"]%string; ix_partial := true |}.

Definition init_db_indexes : list unique_index := [alert_candidates_dedupe_idx].

(** The conflict target of the insert, [ON CONFLICT (feed_id,
    alert_dedupe_key)]. *)
Definition CONFLICT_TARGET : list string := ["feed_id"; "alert_dedupe_key"]%string.

Definition same_columns (a b : list string) : bool :=
  (forallb (fun c => existsb (String.eqb c) b) a
   && forallb (fun c => existsb (String.eqb c) a) b)%bool.

(** Arbiter inference for a conflict target without a predicate: a unique
    index on exactly the columns of the target serves, unless it is partial;
    PostgreSQL uses a partial index only when the target repeats its
    predicate. *)
Definition infers (target : list string) (ix : unique_index) : bool :=
  (negb (ix_partial ix) && same_columns (ix_columns ix) target)%bool.

(** The table after a statement: one that raised has stored nothing. *)
Definition table_after (table : list alert_candidate)
    (result : option (list alert_candidate)) : list alert_candidate :=
  match result with
  | Some table' => table'
  | None => table
  end.

Section Dedupe.

(** The library calls of the key: [hashlib.sha256(b).hexdigest()],
    [datetime.strftime("%Y-%m-%d")] of a UTC time, and
    [title.strip().lower()], which works on the characters of the title. *)
Variable sha256_hexdigest : string -> string.
Variable utc_date : Z -> string.
Variable strip_lower : string -> string.

(** The unique indexes of the table.  [init_db] declares
    [init_db_indexes]; schema.sql, which the sources do not include, is
    read by [init_db] before. *)
Variable indexes : list unique_index.

(** The f-string [base]. *)
Definition dedupe_base (feed_id : Z) (feeder_id : option Z) (alert_type title : string)
    (now : Z) : string :=
  (Py.str_of_int feed_id ++ "|" ++ Py.str_of_int (feeder_or_zero feeder_id) ++ "|"
   ++ alert_type ++ "|" ++ strip_lower title ++ "|" ++ utc_date now)%string.

(** The [WHERE NOT EXISTS] sub-query. *)
Definition recent_duplicate (feed_id : Z) (feeder_id : option Z)
    (alert_type title : string) (now : Z) (ac : alert_candidate) : bool :=
  ((ac_feed_id ac =? feed_id)
   && (feeder_or_zero (ac_feeder_id ac) =? feeder_or_zero feeder_id)
   && (ac_alert_type ac =? alert_type)%string
   && (ac_title ac =? title)%string
   && (now - DAY <=? ac_created_at ac)
   && active (ac_status ac))%bool.

(** A conflict on [(feed_id, alert_dedupe_key)]. *)
Definition key_conflict (feed_id : Z) (dedupe_key : string) (ac : alert_candidate)
    : bool :=
  ((ac_feed_id ac =? feed_id) && (ac_alert_dedupe_key ac =? dedupe_key)%string)%bool.

(** [upsert_alert_candidate]; one clock reading [now] serves the day bucket
    and the [NOW()] of the statement.  [None] is the error that PostgreSQL
    raises when it plans the statement and no unique index matches the
    conflict target; nothing is stored then. *)
Definition upsert_alert_candidate (table : list alert_candidate) (now : Z)
    (feed_id : Z) (feeder_id : option Z) (alert_type title body : string)
    : option (list alert_candidate) :=
  let dedupe_key := sha256_hexdigest (dedupe_base feed_id feeder_id alert_type title now) in
  if negb (existsb (infers CONFLICT_TARGET) indexes) then None
  else if existsb (recent_duplicate feed_id feeder_id alert_type title now) table
  then Some table
  else if existsb (key_conflict feed_id dedupe_key) table then Some table
  else
    Some (table ++ [{| ac_feed_id := feed_id; ac_feeder_id := feeder_id;
                       ac_alert_type := alert_type; ac_title := title; ac_body := body;
                       ac_alert_dedupe_key := dedupe_key; ac_status := "candidate";
                       ac_created_at := now |}]).

End Dedupe.

(** At most one row per feed and dedupe key. *)
Definition distinct_keys (a b : alert_candidate) : Prop :=
  ~ (ac_feed_id a = ac_feed_id b /\ ac_alert_dedupe_key a = ac_alert_dedupe_key b).

Definition unique_dedupe_key (table : list alert_candidate) : Prop :=
  ForallOrdPairs distinct_keys table.

(** No two active rows of one feed, feeder, type and title were created
    within 24 hours of each other. *)
Definition not_recent_twins (a b : alert_candidate) : Prop :=
  ac_feed_id a = ac_feed_id b ->
  ac_feeder_id a = ac_feeder_id b ->
  ac_alert_type a = ac_alert_type b ->
  ac_title a = ac_title b ->
  active (ac_status a) = true ->
  active (ac_status b) = true ->
  DAY < Z.abs (ac_created_at b - ac_created_at a).

Definition no_recent_twins (table : list alert_candidate) : Prop :=
  ForallOrdPairs not_recent_twins table.

End Alerts.

(* ------------------------------------------------------------------ *)
(** ** Sample data for the concrete cases *)

Module Sample.
Import Classifier Store Lifecycle.

Definition views_only (v : Z) : triple :=
  {| t_at := Some 0; t_views := Some v; t_likes := None; t_comments := None |}.

(** A video post of handle ["h"] of subscriber 1. *)
Definition video (url : string) (d1 d7 : triple) : snapshot :=
  {| snap_subscriber_id := 1; snap_handle := "h"; snap_post_url := url;
     snap_media_type := Some "Video"%string; snap_posted_at := Some 0;
     snap_d1 := d1; snap_d3 := no_triple; snap_d7 := d7; snap_d21 := no_triple |}.

Definition no_tables : tables :=
  {| post_snapshots := []; post_signals := []; post_checkpoint_metrics := [] |}.

(** Nineteen peers seen at day 7 only, with 100, 200, ... 1900 views. *)
Definition peers_d7 : list snapshot :=
  map (fun k => video (Py.str_of_int k) no_triple (views_only (100 * k)))
      [1; 2; 3; 4; 5; 6; 7; 8; 9; 10; 11; 12; 13; 14; 15; 16; 17; 18; 19].

(** The same cohort and a post with 5000 views at day 7 that was never
    seen at day 1. *)
Definition late_post : snapshot := video "own" no_triple (views_only 5000).

Definition cohort_d7 : tables :=
  {| post_snapshots := peers_d7 ++ [late_post];
     post_signals := []; post_checkpoint_metrics := [] |}.

(** Ten peers seen at day 1, and an eleventh post: a cohort of eleven. *)
Definition peers_d1 : list snapshot :=
  map (fun k => video (Py.str_of_int k) (views_only (100 * k)) no_triple)
      [1; 2; 3; 4; 5; 6; 7; 8; 9; 10].

Definition early_post : snapshot := video "own" (views_only 5000) no_triple.

Definition cohort_d1 : tables :=
  {| post_snapshots := peers_d1 ++ [early_post];
     post_signals := []; post_checkpoint_metrics := [] |}.

Definition video_item : item :=
  {| item_type := Some "Video"%string; item_mediaType := None; item_posted_at := Some 0 |}.

(** A post first stored from an item without a media type. *)
Definition untyped_row : snapshot :=
  {| snap_subscriber_id := 1; snap_handle := "h"; snap_post_url := "own";
     snap_media_type := Some ""%string; snap_posted_at := Some 0;
     snap_d1 := no_triple; snap_d3 := no_triple; snap_d7 := no_triple;
     snap_d21 := no_triple |}.

Definition untyped_tables : tables :=
  {| post_snapshots := [untyped_row]; post_signals := [];
     post_checkpoint_metrics := [] |}.

(** A store with empty queues and four consecutive failures on record. *)
Definition quiet : Queue.state :=
  {| Queue.db := no_tables; Queue.run_queue := []; Queue.post_queue := [];
     Queue.apify_health :=
       {| Queue.consecutive_failures := 4; Queue.pause_until := None;
          Queue.last_error := None |} |}.

(** The default settings of config.py. *)
Definition defaults : Worker.config :=
  {| Worker.RETRY_BACKOFF_MINUTES := [15; 15; 15; 15; 15; 15];
     Worker.APIFY_COOLDOWN_TRIGGER_FAILURES := 5;
     Worker.APIFY_COOLDOWN_HOURS := 3 |}.

Definition noon : Worker.clock :=
  {| Worker.at_claim := 10; Worker.at_post_claim := 10; Worker.at_check := 11;
     Worker.at_done := 12 |}.

Definition handle_job : Queue.run_job :=
  {| Queue.rj_id := 1; Queue.rj_subscriber_id := 1; Queue.rj_spreadsheet_id := "sheet";
     Queue.rj_handle := "h"; Queue.rj_run_type := "daily"; Queue.rj_attempt := 2;
     Queue.rj_next_run_at := 0; Queue.rj_status := Queue.pending;
     Queue.rj_last_error := None |}.

Definition post_job_of (id : Z) (url checkpoint : string) (attempt : Z) : Queue.post_job :=
  {| Queue.pj_id := id; Queue.pj_subscriber_id := 1; Queue.pj_spreadsheet_id := "sheet";
     Queue.pj_handle := "h"; Queue.pj_post_url := url; Queue.pj_checkpoint := checkpoint;
     Queue.pj_requires_d7_hot := (checkpoint =? "d21")%string;
     Queue.pj_attempt := attempt; Queue.pj_next_run_at := 0;
     Queue.pj_status := Queue.pending; Queue.pj_last_error := None |}.


(** The store of the day-7 cohort with the d21 job of its weakest post,
    six attempts used. *)
Definition weakest_post : snapshot := video "1" no_triple (views_only 100).

Definition due_d21 : Queue.state :=
  {| Queue.db := cohort_d7;
     Queue.run_queue := [];
     Queue.post_queue := [post_job_of 1 "1" "d21" 6];
     Queue.apify_health :=
       {| Queue.consecutive_failures := 0; Queue.pause_until := None;
          Queue.last_error := None |} |}.

(** A handle scrape that finds no post, and one that finds the post
    ["new"], posted at time 0. *)
Definition scrape_ok (t : tables) (job : Queue.run_job)
    : tables * list Worker.scheduled * Worker.outcome unit :=
  (t, [], Worker.Returned tt).

Definition scrape_finds_post (t : tables) (job : Queue.run_job)
    : tables * list Worker.scheduled * Worker.outcome unit :=
  (t,
   [{| Worker.s_ids := (11, 12, 13); Worker.s_post_url := "new";
       Worker.s_posted_at := Some 0 |}],
   Worker.Returned tt).

Definition weakest_norm : norm :=
  {| n_post_url := "1"; n_media_type := "Video"; n_views := "900";
     n_likes := "10"; n_comments := "1"; n_caption := "";
     n_velocity := ""; n_velocity_percentile := ""; n_velocity_stage := "" |}.

(** A batch scrape at time 30 that finds the weakest post, classifies it at
    the checkpoint of the batch and returns the URLs asked for. *)
Definition batch_classifies (t : tables) (sub : Z) (sheet handle checkpoint : string)
    (urls : list string) : tables * Worker.outcome (list string) :=
  (fst (_apply_velocity t 30 sub handle video_item weakest_norm (Some checkpoint)),
   Worker.Returned urls).

Definition batch_ok (t : tables) (sub : Z) (sheet handle checkpoint : string)
    (urls : list string) : tables * Worker.outcome (list string) :=
  (t, Worker.Returned urls).

Definition batch_times_out (t : tables) (sub : Z) (sheet handle checkpoint : string)
    (urls : list string) : tables * Worker.outcome (list string) :=
  (t, Worker.Raised "timeout").

End Sample.

(* ------------------------------------------------------------------ *)
(** ** Sheet columns, header alignment and label repair
       (sync.py, config.py, cli.py) *)

Module Sheet.
Import Classifier Store.

(** [s.upper()] on the ASCII letters. *)
Definition upper_ascii (c : ascii) : ascii :=
  let n := nat_of_ascii c in
  if (Nat.leb 97 n && Nat.leb n 122)%bool then ascii_of_nat (n - 32) else c.

Fixpoint upper (s : string) : string :=
  match s with
  | EmptyString => EmptyString
  | String a s' => String (upper_ascii a) (upper s')
  end.

(** The [while n > 0] loop of [_col_letter]; [fuel] bounds the number of
    turns. *)
Fixpoint col_letter_loop (fuel : nat) (n : Z) (result : string) : string :=
  match fuel with
  | O => result
  | S fuel' =>
      if 0 <? n then
        let q := (n - 1) / 26 in
        let rem := (n - 1) mod 26 in
        col_letter_loop fuel' q (String (ascii_of_nat (65 + Z.to_nat rem)) result)
      else result
  end.

(** [_col_letter]: the loop divides [n] by 26 at least, so [n] turns are
    enough. *)
Definition _col_letter (n : Z) : string :=
  col_letter_loop (Z.to_nat n) n EmptyString.

(** The number a column name stands for: A is 1, Z is 26, AA is 27. *)
Fixpoint col_number_from (acc : Z) (s : string) : Z :=
  match s with
  | EmptyString => acc
  | String c s' => col_number_from (acc * 26 + (Z.of_nat (nat_of_ascii c) - 64)) s'
  end.

Definition col_number (s : string) : Z := col_number_from 0 s.

Definition is_capital (c : ascii) : bool :=
  (Nat.leb 65 (nat_of_ascii c) && Nat.leb (nat_of_ascii c) 90)%bool.

Fixpoint all_chars (f : ascii -> bool) (s : string) : bool :=
  match s with
  | EmptyString => true
  | String c s' => (f c && all_chars f s')%bool
  end.

(** [_align_schema]: the descriptions are padded with empty strings or cut
    to the length of the header. *)
Definition _align_schema (header descriptions : list string)
    : list string * list string :=
  if Nat.eqb (List.length descriptions) (List.length header) then (header, descriptions)
  else if Nat.ltb (List.length descriptions) (List.length header) then
    (header,
     descriptions ++ repeat ""%string (List.length header - List.length descriptions))
  else (header, firstn (List.length header) descriptions).

(** The literal that [_canonical_stage] looks for in a tag, byte for byte
    as cli.py holds it. *)
Definition TAG_EYES : string := "ðŸ‘".

Definition one_of (s : string) (l : list string) : bool :=
  existsb (String.eqb s) l.

(** [_canonical_stage] *)
Definition _canonical_stage (stage tag : option string) : string :=
  let st := upper (Py.strip (Py.or_else stage "")) in
  let tg := Py.strip (Py.or_else tag "") in
  if Py.contains TAG_EYES tg then "D2"%string
  else if one_of st ["WATCH"; "C1"; "C1R"]%string then "D2"%string
  else if one_of st ["D1"]%string then "D1"%string
  else if one_of st ["D2"]%string then "D2"%string
  else if one_of st ["D3"; "C3"]%string then "D3"%string
  else if one_of st ["D7"; "C7"]%string then "D7"%string
  else if one_of st ["D21"; "C21"]%string then "D21"%string
  else st.

(** [posted_at >= NOW() - INTERVAL 'h hours']; a NULL [posted_at] makes the
    comparison unknown, which a CASE treats as not true. *)
Definition posted_within (hours : Z) (now : Z) (posted_at : option Z) : bool :=
  match posted_at with
  | Some t => now - hours * 3600 <=? t
  | None => false
  end.

(** The first [velocity_stage = CASE ... END] of [repair_velocity]. *)
Definition repair_stage (now : Z) (posted_at : option Z) (stage : option string)
    : string :=
  let st := upper (match stage with Some s => s | None => ""%string end) in
  if one_of st ["D3"; "C3"]%string then "D3"%string
  else if one_of st ["D7"; "C7"]%string then "D7"%string
  else if one_of st ["D21"; "C21"]%string then "D21"%string
  else if posted_within 24 now posted_at then "D1"%string
  else if posted_within 72 now posted_at then "D2"%string
  else "D2"%string.

Definition is_digit (c : ascii) : bool :=
  (Nat.leb 48 (nat_of_ascii c) && Nat.leb (nat_of_ascii c) 57)%bool.

(** [p ~ '^[0-9]+%$']: one digit or more, then a percent sign. *)
Fixpoint digits_then_percent (seen_digit : bool) (p : string) : bool :=
  match p with
  | EmptyString => false
  | String c rest =>
      if is_digit c then digits_then_percent true rest
      else if Ascii.eqb c "%" then
        match rest with
        | EmptyString => seen_digit
        | String _ _ => false
        end
      else false
  end.

(** The largest value of PostgreSQL's [int]. *)
Definition INT4_MAX : Z := 2147483647.

Definition tag_of_band (n : Z) : string :=
  if n <=? 5 then TAG_ROCKET
  else if n <=? 15 then TAG_FIRE
  else if n <=? 35 then TAG_CHECK
  else TAG_SLEEP.

(** The [velocity_tag = CASE ... END] of [repair_velocity]. [None] is the
    error of the cast [::int] on digits beyond [INT4_MAX]. *)
Definition repair_tag (percentile : option string) : option string :=
  let p := match percentile with Some s => s | None => ""%string end in
  if digits_then_percent false p then
    match Py.int_of_str (Py.remove_char "%" p) with
    | Some n => if n <=? INT4_MAX then Some (tag_of_band n) else None
    | None => None
    end
  else Some ""%string.

(** The second [velocity_stage = CASE ... END]: D1 and D2 by age, any other
    row keeps its stage. *)
Definition enforce_stage_by_age (now : Z) (posted_at : option Z) (stage : option string)
    : option string :=
  if posted_within 24 now posted_at then Some "D1"%string
  else if posted_within 72 now posted_at then Some "D2"%string
  else stage.

(** The two UPDATE statements of [repair_velocity] on one row of
    [post_signals]; [None] when the first one raises. *)
Definition repair_signal (now : Z) (r : signal) : option signal :=
  let stage1 := Some (repair_stage now (sig_posted_at r) (sig_velocity_stage r)) in
  match repair_tag (sig_velocity_percentile r) with
  | Some tag =>
      Some {| sig_subscriber_id := sig_subscriber_id r;
              sig_handle := sig_handle r;
              sig_post_url := sig_post_url r;
              sig_media_type := sig_media_type r;
              sig_posted_at := sig_posted_at r;
              sig_caption := sig_caption r;
              sig_velocity_tag := Some tag;
              sig_velocity_stage := enforce_stage_by_age now (sig_posted_at r) stage1;
              sig_velocity_percentile := sig_velocity_percentile r |}
  | None => None
  end.

(** Step 1 of [repair_velocity] for the subscriber [sid]: the rows [WHERE
    subscriber_id = sid] are rewritten, the others kept; [None] when a cast
    raises, and then nothing is committed. *)
Fixpoint repair_signals (now sid : Z) (rows : list signal) : option (list signal) :=
  match rows with
  | [] => Some []
  | r :: rest =>
      match (if sig_subscriber_id r =? sid then repair_signal now r else Some r),
            repair_signals now sid rest with
      | Some r', Some rest' => Some (r' :: rest')
      | _, _ => None
      end
  end.

(** [_col_to_a1] of sheets.py: the loop of [_col_letter] after a clamp of
    the column number to 1 at least. *)
Definition _col_to_a1 (col_num_1_based : Z) : string :=
  let n := if col_num_1_based <? 1 then 1 else col_num_1_based in
  col_letter_loop (Z.to_nat n) n EmptyString.

End Sheet.

(* ------------------------------------------------------------------ *)
(** ** Hashtags and mentions of a caption (sync.py) *)

Module Captions.

(** [t in seen] *)
Definition seen_has (seen : list string) (t : string) : bool :=
  existsb (String.eqb t) seen.

(** The [for w in text.split()] loop of [_extract_hashtags] and
    [_extract_mentions], on the words that [split] returns: a word that
    starts with the marker and is longer than the marker adds what follows
    the marker, unless that was seen before. *)
Fixpoint extract_loop (marker : ascii) (words : list string) (seen tags : list string)
    : list string :=
  match words with
  | [] => tags
  | w :: rest =>
      match w with
      | String c t =>
          if (Ascii.eqb c marker && Py.truthy t)%bool then
            if negb (seen_has seen t) then extract_loop marker rest (t :: seen) (tags ++ [t])
            else extract_loop marker rest seen tags
          else extract_loop marker rest seen tags
      | EmptyString => extract_loop marker rest seen tags
      end
  end.

(** [_extract_hashtags] and [_extract_mentions] for a text whose words are
    [words]; for an empty text the source returns [""] at once, which is
    what the join of no tags gives. *)
Definition _extract_hashtags (words : list string) : string :=
  String.concat "," (extract_loop "#" words [] []).

Definition _extract_mentions (words : list string) : string :=
  String.concat "," (extract_loop "@" words [] []).

End Captions.

(* ================================================================== *)
(** * Properties *)

(* ------------------------------------------------------------------ *)
(** ** Facts about the Python primitives *)

Module PyFacts.
Import Py.

Lemma to_int_not_nil (z : Z) :
  Z.to_int z <> Decimal.Pos Decimal.Nil /\ Z.to_int z <> Decimal.Neg Decimal.Nil.
Proof.
  destruct z as [|p|p]; simpl; split; try discriminate;
    intros H; injection H as H; now apply Unsigned.to_uint_nonnil in H.
Qed.

(** [int(str(z)) == z]. *)
Lemma int_of_str_of_int (z : Z) : int_of_str (str_of_int z) = Some z.
Proof.
  unfold int_of_str, str_of_int.
  destruct (to_int_not_nil z) as [Hp Hn].
  rewrite NilZero.isi by assumption.
  simpl. now rewrite DecimalZ.of_to.
Qed.

Lemma remove_char_app (c : ascii) (s t : string) :
  remove_char c (s ++ t) = (remove_char c s ++ remove_char c t)%string.
Proof.
  induction s as [|a s IH]; simpl; [reflexivity|].
  destruct (Ascii.eqb a c); simpl; now rewrite IH.
Qed.

Lemma remove_percent_uint (d : Decimal.uint) :
  remove_char "%" (NilEmpty.string_of_uint d) = NilEmpty.string_of_uint d.
Proof.
  induction d; simpl; try reflexivity; now rewrite IHd.
Qed.

(** A decimal numeral holds no percent sign. *)
Lemma remove_percent_str_of_int (z : Z) :
  remove_char "%" (str_of_int z) = str_of_int z.
Proof.
  unfold str_of_int, NilZero.string_of_int, NilZero.string_of_uint.
  destruct (Z.to_int z) as [d|d]; destruct d; simpl; try reflexivity;
    now rewrite remove_percent_uint.
Qed.

Lemma str_of_int_truthy (z : Z) : truthy (str_of_int z) = true.
Proof.
  pose proof (int_of_str_of_int z) as H.
  destruct (str_of_int z); [discriminate H | reflexivity].
Qed.

Lemma prefix_refl (s : string) : prefix s s = true.
Proof.
  induction s as [|a s IH]; simpl; [reflexivity|].
  destruct (ascii_dec a a) as [_|N]; [exact IH | now elim N].
Qed.

(** [s in s] holds for every string. *)
Lemma contains_refl (s : string) : contains s s = true.
Proof.
  destruct s as [|a s]; [reflexivity|].
  unfold contains; fold contains.
  now rewrite prefix_refl.
Qed.

Lemma round_ge (a : Z) (x : Q) : (inject_Z a <= x)%Q -> a <= round x.
Proof.
  unfold Qle, round. cbn [Qnum Qden inject_Z]. intros H.
  set (n := Qnum x) in *; set (d := Z.pos (Qden x)) in *.
  assert (Hd : 0 < d) by (unfold d; lia).
  assert (Hq : a <= n / d) by (apply Z.div_le_lower_bound; lia).
  destruct (2 * (n mod d) ?= d); [destruct (Z.even (n / d))| |]; lia.
Qed.

Lemma round_le (b : Z) (x : Q) : (x <= inject_Z b)%Q -> round x <= b.
Proof.
  unfold Qle, round. cbn [Qnum Qden inject_Z]. intros H.
  set (n := Qnum x) in *; set (d := Z.pos (Qden x)) in *.
  assert (Hd : 0 < d) by (unfold d; lia).
  pose proof (Z.div_mod n d ltac:(lia)) as E.
  pose proof (Z.mod_pos_bound n d Hd) as B.
  destruct (Z.compare_spec (2 * (n mod d)) d) as [C|C|C];
    [destruct (Z.even (n / d))| |]; nia.
Qed.

(** [round] returns a nearest integer, and the even one of the two when
    the value lies half way. *)
Lemma round_nearest (x : Q) :
  2 * Z.abs (round x * Z.pos (Qden x) - Qnum x) <= Z.pos (Qden x) /\
  (2 * Z.abs (round x * Z.pos (Qden x) - Qnum x) = Z.pos (Qden x) ->
   Z.even (round x) = true).
Proof.
  unfold round.
  set (n := Qnum x). set (d := Z.pos (Qden x)).
  assert (Hd : 0 < d) by (unfold d; lia).
  pose proof (Z.div_mod n d ltac:(lia)) as Hdm.
  pose proof (Z.mod_pos_bound n d Hd) as Hr.
  set (q := n / d) in *. set (r := n mod d) in *.
  destruct (Z.compare_spec (2 * r) d) as [E|L|G].
  - destruct (Z.even q) eqn:Ev.
    + split; [nia|auto].
    + split; [nia|]. intros _. rewrite Z.add_1_r, Z.even_succ, <- Z.negb_even, Ev.
      reflexivity.
  - split; [nia|]. intros H. exfalso. nia.
  - split; [nia|]. intros H. exfalso. nia.
Qed.

(** The same for the float [1 + N / D] of the percentile, over the
    integers. *)
Lemma round_one_plus_quotient (N D : Z) :
  0 < D ->
  let p := round (1 + inject_Z N / inject_Z D)%Q in
  2 * Z.abs ((p - 1) * D - N) <= D /\
  (2 * Z.abs ((p - 1) * D - N) = D -> Z.even p = true).
Proof.
  intros HD p.
  destruct D as [|d|d]; try lia.
  pose proof (round_nearest (1 + inject_Z N / inject_Z (Z.pos d))%Q) as H.
  fold p in H.
  assert (Hn : Qnum (1 + inject_Z N / inject_Z (Z.pos d))%Q = Z.pos d + N).
  { unfold Qdiv, Qmult, Qplus, Qinv, inject_Z. cbn [Qnum Qden].
    change (Z.pos (1 * d)) with (Z.pos d). lia. }
  assert (Hden : Z.pos (Qden (1 + inject_Z N / inject_Z (Z.pos d))%Q) = Z.pos d)
    by reflexivity.
  rewrite Hn, Hden in H.
  replace (p * Z.pos d - (Z.pos d + N)) with ((p - 1) * Z.pos d - N) in H by ring.
  exact H.
Qed.

End PyFacts.

(* ------------------------------------------------------------------ *)
(** ** The dense-rank percentile and the tag bands *)

Module ClassifierFacts.
Import Py PyFacts Classifier.

Lemma InQ_nil (z : Q) : InQ z [] <-> False.
Proof.
  unfold InQ. split; [intros (w & [] & _)|intros []].
Qed.

Lemma InQ_cons (z y : Q) (l : list Q) :
  InQ z (y :: l) <-> (z == y)%Q \/ InQ z l.
Proof.
  unfold InQ. split.
  - intros (w & [<-|Hw] & E); [now left|right; eauto].
  - intros [E|(w & Hw & E)]; [exists y|exists w]; simpl; auto.
Qed.

Lemma insert_desc_InQ (x z : Q) (l : list Q) :
  InQ z (insert_desc x l) <-> (z == x)%Q \/ InQ z l.
Proof.
  induction l as [|y l IH]; simpl.
  - now rewrite InQ_cons.
  - destruct (Qeq_bool x y) eqn:Exy.
    + apply Qeq_bool_iff in Exy. rewrite InQ_cons. split; [tauto|].
      intros [E|H]; [left; now rewrite E|exact H].
    + destruct (Qle_bool y x) eqn:Lyx.
      * now rewrite !InQ_cons.
      * rewrite !InQ_cons, IH. tauto.
Qed.

Lemma insert_desc_Forall (P : Q -> Prop) (x : Q) (l : list Q) :
  P x -> Forall P l -> Forall P (insert_desc x l).
Proof.
  intros Hx Hl. induction Hl as [|y l Hy Hl IH]; simpl.
  - constructor; [exact Hx|constructor].
  - destruct (Qeq_bool x y); [constructor; assumption|].
    destruct (Qle_bool y x); constructor; auto.
Qed.

Lemma insert_desc_sorted (x : Q) (l : list Q) :
  strictly_desc l -> strictly_desc (insert_desc x l).
Proof.
  unfold strictly_desc. intros Hl.
  induction Hl as [|y l Hl IH Hy]; simpl.
  - constructor; constructor.
  - destruct (Qeq_bool x y) eqn:Exy; [constructor; assumption|].
    apply Qeq_bool_neq in Exy.
    destruct (Qle_bool y x) eqn:Lyx.
    + apply Qle_bool_iff in Lyx.
      assert (Hlt : (y < x)%Q).
      { apply Qle_lt_or_eq in Lyx. destruct Lyx as [L|E]; [exact L|].
        elim Exy. now symmetry. }
      constructor; [constructor; assumption|].
      constructor; [exact Hlt|].
      eapply Forall_impl; [|exact Hy].
      intros b Hb. cbv beta in Hb. now apply Qlt_trans with y.
    + assert (Hlt : (x < y)%Q).
      { apply Qnot_le_lt. intros L. apply Qle_bool_iff in L. congruence. }
      constructor; [exact IH|].
      now apply insert_desc_Forall.
Qed.

(** [sorted(set(values), reverse=True)] is strictly descending. *)
Lemma sorted_set_desc_sorted (values : list Q) :
  strictly_desc (sorted_set_desc values).
Proof.
  induction values as [|x l IH]; simpl.
  - constructor.
  - now apply insert_desc_sorted.
Qed.

(** It holds the values of the pool and nothing else. *)
Lemma sorted_set_desc_InQ (values : list Q) (z : Q) :
  InQ z (sorted_set_desc values) <-> InQ z values.
Proof.
  induction values as [|x l IH]; simpl.
  - reflexivity.
  - now rewrite insert_desc_InQ, IH, InQ_cons.
Qed.

Lemma insert_desc_not_nil (x : Q) (l : list Q) : insert_desc x l <> [].
Proof.
  destruct l as [|y l]; simpl; [discriminate|].
  destruct (Qeq_bool x y); [discriminate|].
  destruct (Qle_bool y x); discriminate.
Qed.

Lemma sorted_set_desc_not_nil (values : list Q) :
  values <> [] -> sorted_set_desc values <> [].
Proof.
  destruct values as [|x l]; [congruence|].
  intros _. simpl. apply insert_desc_not_nil.
Qed.

(** The loop computes the rank of the specification. *)
Lemma rank_loop_first_index (uniq : list Q) (mpd : Q) (i dflt : Z) (r : nat) :
  first_index_le uniq mpd r ->
  rank_loop i uniq mpd dflt = i + Z.of_nat r - 1.
Proof.
  revert i r. induction uniq as [|u l IH]; intros i r (Hr & (w & Hw & Hle) & Hfirst).
  - destruct (r - 1)%nat; discriminate Hw.
  - simpl. destruct (Qle_bool u mpd) eqn:Hu.
    + apply Qle_bool_iff in Hu.
      destruct (Nat.eq_dec r 1) as [->|Hne]; [lia|].
      exfalso. apply (Hfirst 0%nat u); [lia|reflexivity|exact Hu].
    + assert (Hnle : ~ (u <= mpd)%Q).
      { intros L. apply Qle_bool_iff in L. congruence. }
      destruct r as [|[|r]]; [lia| |].
      * simpl in Hw. injection Hw as <-. contradiction.
      * rewrite (IH (i + 1) (S r)); [lia|].
        split; [lia|]. split.
        -- exists w. split; [|exact Hle].
           replace (S r - 1)%nat with r by lia.
           replace (S (S r) - 1)%nat with (S r) in Hw by lia. exact Hw.
        -- intros j v Hj Hv. apply (Hfirst (S j) v); [lia|exact Hv].
Qed.

Lemma rank_loop_bounds (uniq : list Q) (mpd : Q) (i dflt : Z) :
  let r := rank_loop i uniq mpd dflt in
  r = dflt \/ (i <= r < i + Z.of_nat (List.length uniq)).
Proof.
  revert i. induction uniq as [|u l IH]; intros i; simpl.
  - now left.
  - destruct (Qle_bool u mpd).
    + right. lia.
    + destruct (IH (i + 1)) as [E|B]; [now left|right; lia].
Qed.

Lemma percentile_raw_bounds (rank n : Z) :
  1 <= rank <= n -> 2 <= n ->
  (inject_Z 1 <= percentile_raw rank n)%Q /\ (percentile_raw rank n <= inject_Z 100)%Q.
Proof.
  intros Hr Hn. unfold percentile_raw.
  assert (Hpos : (0 < inject_Z (n - 1))%Q).
  { replace 0%Q with (inject_Z 0) by reflexivity. rewrite <- Zlt_Qlt. lia. }
  assert (H0 : (0 <= inject_Z ((rank - 1) * 99) / inject_Z (n - 1))%Q).
  { apply Qle_shift_div_l; [exact Hpos|].
    rewrite Qmult_0_l. replace 0%Q with (inject_Z 0) by reflexivity.
    rewrite <- Zle_Qle. lia. }
  assert (H99 : (inject_Z ((rank - 1) * 99) / inject_Z (n - 1) <= inject_Z 99)%Q).
  { apply Qle_shift_div_r; [exact Hpos|].
    rewrite <- inject_Z_mult, <- Zle_Qle. nia. }
  split.
  - replace (inject_Z 1) with (1 + 0)%Q by reflexivity.
    apply Qplus_le_compat; [apply Qle_refl|exact H0].
  - replace (inject_Z 100) with (1 + inject_Z 99)%Q by reflexivity.
    apply Qplus_le_compat; [apply Qle_refl|exact H99].
Qed.

(** The clamp [max(1, min(100, p))] never changes the rounded value. *)
Lemma round_percentile_raw_bounds (rank n : Z) :
  1 <= rank <= n -> 2 <= n ->
  1 <= round (percentile_raw rank n) <= 100.
Proof.
  intros Hr Hn. destruct (percentile_raw_bounds rank n Hr Hn) as [L U].
  split; [now apply round_ge|now apply round_le].
Qed.

End ClassifierFacts.

Module PercentileSpec.
Import Py PyFacts Classifier ClassifierFacts.

Lemma first_index_le_in_range (uniq : list Q) (mpd : Q) (r : nat) :
  first_index_le uniq mpd r -> (1 <= r <= List.length uniq)%nat.
Proof.
  intros (Hr & (w & Hw & _) & _). split; [exact Hr|].
  assert (r - 1 < List.length uniq)%nat; [|lia].
  apply nth_error_Some. congruence.
Qed.

Lemma percentile_of_uniq (pool : list Q) (mpd : Q) (u1 u2 : Q) (rest : list Q) :
  pool <> [] ->
  sorted_set_desc pool = u1 :: u2 :: rest ->
  _percentile pool mpd =
    Some (percent_string
            (Z.max 1 (Z.min 100
               (round (percentile_raw
                         (rank_loop 1 (u1 :: u2 :: rest) mpd
                            (Z.of_nat (List.length (u1 :: u2 :: rest))))
                         (Z.of_nat (List.length (u1 :: u2 :: rest)))))))).
Proof.
  intros Hne E. unfold _percentile.
  destruct pool as [|x l]; [congruence|]. now rewrite E.
Qed.

(** Scenario of the specification: eleven unique values, a post at 80 per
    day has rank 2 and percentile 11%. *)
Example percentile_dense_rank_scenario :
  _percentile
    (map inject_Z [100; 80; 80; 60; 40; 35; 30; 25; 20; 15; 10; 5]) (inject_Z 80)
  = Some "11%"%string.
Proof. vm_compute. reflexivity. Qed.

(** A tie at one half goes to the even neighbour: three unique values, the
    middle one gets 1 + 99/2 = 50.5, rounded to 50. *)
Example percentile_half_to_even :
  _percentile (map inject_Z [30; 20; 10]) (inject_Z 20) = Some "50%"%string.
Proof. vm_compute. reflexivity. Qed.

(** C2. For a non-empty pool, with [uniq] the unique pool values sorted
    descending and [U] their count: one unique value gives 50%; otherwise a
    post whose rank [r] is the 1-based index of the first unique value at most
    its metric-per-day gets p% with p = round(1 + (r-1)*99/(U-1)), that is,
    p - 1 is an integer nearest to (r-1)*99/(U-1), the even p when two are
    equally near; the result always lies between 1 and 100, and a post at or
    above every pool value gets 1%. *)
Theorem percentile_dense_rank (pool : list Q) (mpd : Q) :
  pool <> [] ->
  let uniq := sorted_set_desc pool in
  let U := Z.of_nat (List.length uniq) in
  strictly_desc uniq /\
  (forall x, InQ x uniq <-> InQ x pool) /\
  (U = 1 -> _percentile pool mpd = Some "50%"%string) /\
  (U <> 1 -> forall r, first_index_le uniq mpd r ->
     exists p,
       _percentile pool mpd = Some (str_of_int p ++ "%")%string /\
       p = round (1 + inject_Z ((Z.of_nat r - 1) * 99) / inject_Z (U - 1))%Q /\
       2 * Z.abs ((p - 1) * (U - 1) - (Z.of_nat r - 1) * 99) <= U - 1 /\
       (2 * Z.abs ((p - 1) * (U - 1) - (Z.of_nat r - 1) * 99) = U - 1 ->
        Z.even p = true) /\
       1 <= p <= 100) /\
  (exists p, 1 <= p <= 100 /\
     _percentile pool mpd = Some (str_of_int p ++ "%")%string) /\
  (U <> 1 -> (forall x, In x pool -> (x <= mpd)%Q) ->
     _percentile pool mpd = Some "1%"%string).
Proof.
  intros Hne uniq U.
  pose proof (sorted_set_desc_sorted pool) as Hsorted.
  pose proof (sorted_set_desc_InQ pool) as Hin.
  pose proof (sorted_set_desc_not_nil pool Hne) as Hnn.
  fold uniq in Hsorted, Hin, Hnn.
  split; [exact Hsorted|]. split; [intros x; apply Hin|].
  assert (Hrank : U <> 1 -> forall r, first_index_le uniq mpd r ->
     _percentile pool mpd =
       Some (percent_string (round (percentile_raw (Z.of_nat r) U)))).
  { intros HU r Hr.
    destruct uniq as [|u1 [|u2 rest]] eqn:Eu; [congruence|now elim HU|].
    rewrite (percentile_of_uniq pool mpd u1 u2 rest Hne Eu).
    fold U. rewrite (rank_loop_first_index _ _ 1 U r Hr).
    pose proof (first_index_le_in_range _ _ _ Hr) as Hrange.
    replace (1 + Z.of_nat r - 1) with (Z.of_nat r) by lia.
    assert (HB : 1 <= round (percentile_raw (Z.of_nat r) U) <= 100).
    { apply round_percentile_raw_bounds; unfold U; simpl List.length in *; lia. }
    do 2 f_equal. lia. }
  assert (HU2 : U <> 1 -> 2 <= U).
  { intros HU. unfold U in *. destruct uniq as [|u1 [|u2 rest]];
      [congruence|now elim HU|]. cbn [List.length]. lia. }
  split; [|split; [|split]].
  - intros HU. unfold _percentile. destruct pool as [|x l]; [congruence|].
    fold uniq. destruct uniq as [|u1 [|u2 rest]]; [congruence|reflexivity|].
    unfold U in HU. simpl in HU. lia.
  - intros HU r Hr.
    exists (round (percentile_raw (Z.of_nat r) U)).
    split; [exact (Hrank HU r Hr)|]. split; [reflexivity|].
    pose proof (first_index_le_in_range _ _ _ Hr) as Hrange. fold U in Hrange.
    pose proof (HU2 HU) as H2.
    destruct (round_one_plus_quotient ((Z.of_nat r - 1) * 99) (U - 1) ltac:(lia))
      as [Hnear Heven].
    split; [exact Hnear|]. split; [exact Heven|].
    apply round_percentile_raw_bounds; unfold U in *; lia.
  - destruct uniq as [|u1 [|u2 rest]] eqn:Eu; [congruence| |].
    + exists 50. split; [lia|]. unfold _percentile.
      destruct pool as [|x l]; [congruence|]. fold uniq. now rewrite Eu.
    + eexists. split; [|apply (percentile_of_uniq pool mpd u1 u2 rest Hne Eu)]. lia.
  - intros HU Htop.
    destruct uniq as [|u1 rest] eqn:Eu; [congruence|].
    assert (H1 : first_index_le (u1 :: rest) mpd 1).
    { split; [lia|]. split.
      - exists u1. split; [reflexivity|].
        destruct (proj1 (Hin u1)) as (y & Hy & E).
        { exists u1. split; [now left|reflexivity]. }
        rewrite E. now apply Htop.
      - intros j u Hj. simpl in Hj. lia. }
    rewrite (Hrank HU 1%nat H1).
    assert (HU2' : 2 <= U) by (apply HU2, HU).
    assert (Hone : round (percentile_raw 1 U) = 1).
    { apply Z.le_antisymm.
      - apply round_le. unfold percentile_raw.
        replace (inject_Z 1) with (1 + 0)%Q by reflexivity.
        apply Qplus_le_compat; [apply Qle_refl|].
        apply Qle_shift_div_r.
        + replace 0%Q with (inject_Z 0) by reflexivity. rewrite <- Zlt_Qlt. lia.
        + rewrite Qmult_0_l. apply Qle_refl.
      - apply round_percentile_raw_bounds; lia. }
    change (Z.of_nat 1) with 1. rewrite Hone. reflexivity.
Qed.

(** Scenario of the specification: eleven unique values, a post at 80 per
    day has rank 2; the theorem gives round(1 + 1*99/10), which is 11. *)
Lemma percentile_dense_rank_witness :
  let pool := map inject_Z [100; 80; 80; 60; 40; 35; 30; 25; 20; 15; 10; 5] in
  pool <> [] /\
  Z.of_nat (List.length (sorted_set_desc pool)) = 11 /\
  first_index_le (sorted_set_desc pool) (inject_Z 80) 2 /\
  _percentile pool (inject_Z 80) = Some "11%"%string.
Proof.
  intros pool.
  assert (Hne : pool <> []) by discriminate.
  assert (Hr : first_index_le (sorted_set_desc pool) (inject_Z 80) 2).
  { split; [lia|]. split.
    - exists (inject_Z 80). split; [reflexivity|apply Qle_refl].
    - intros j u Hj Hu. assert (j = 0%nat) as -> by lia.
      injection Hu as <-. unfold Qle. cbn. lia. }
  split; [exact Hne|]. split; [reflexivity|]. split; [exact Hr|].
  destruct (percentile_dense_rank pool (inject_Z 80) Hne) as (_ & _ & _ & Hrank & _).
  destruct (Hrank ltac:(discriminate) 2%nat Hr) as (p & Hp & Hround & _).
  rewrite Hp, Hround. reflexivity.
Defined.

End PercentileSpec.

Module TagSpec.
Import Py PyFacts Classifier.

Lemma append_empty_r (s : string) : (s ++ "")%string = s.
Proof.
  induction s as [|a s IH]; simpl; [reflexivity|now rewrite IH].
Qed.

Lemma parse_percent_string (p : Z) :
  int_of_str (remove_char "%" (percent_string p)) = Some p.
Proof.
  unfold percent_string.
  rewrite remove_char_app, remove_percent_str_of_int.
  change (remove_char "%" "%") with ""%string.
  rewrite append_empty_r. apply int_of_str_of_int.
Qed.

Lemma percent_string_truthy (p : Z) : truthy (percent_string p) = true.
Proof.
  unfold percent_string.
  pose proof (str_of_int_truthy p) as H.
  destruct (str_of_int p); [discriminate H|reflexivity].
Qed.

(** The bytes of the tag literals of sync.py. *)
Lemma tag_literal_bytes :
  list_byte_of_string TAG_ROCKET =
    [Byte.xc3; Byte.xb0; Byte.xc5; Byte.xb8; Byte.xc5; Byte.xa1; Byte.xe2; Byte.x82;
     Byte.xac] /\
  list_byte_of_string TAG_FIRE =
    [Byte.xc3; Byte.xb0; Byte.xc5; Byte.xb8; Byte.xe2; Byte.x80; Byte.x9d; Byte.xc2;
     Byte.xa5] /\
  list_byte_of_string TAG_CHECK =
    [Byte.xc3; Byte.xa2; Byte.xc5; Byte.x93; Byte.xe2; Byte.x80; Byte.xa6] /\
  list_byte_of_string TAG_SLEEP =
    [Byte.xc3; Byte.xb0; Byte.xc5; Byte.xb8; Byte.xcb; Byte.x9c; Byte.xc2; Byte.xb4] /\
  list_byte_of_string TAG_CLOVER =
    [Byte.xc3; Byte.xa2; Byte.xcb; Byte.x9c; Byte.xcb; Byte.x9c; Byte.xc3; Byte.xaf;
     Byte.xc2; Byte.xb8].
Proof.
  repeat split.
Qed.

(** C3, as the code has it. The tag is a total function of the percentile:
    at most 5 gives the rocket literal, at most 15 the fire literal, at most
    35 the check literal, above 35 the sleeping literal; an absent or empty
    percentile gives the check literal; every result is one of these four
    literals. *)
Theorem velocity_tag_bands (p : Z) :
  _velocity_tag (Some (percent_string p)) =
    (if p <=? 5 then TAG_ROCKET
     else if p <=? 15 then TAG_FIRE
     else if p <=? 35 then TAG_CHECK
     else TAG_SLEEP) /\
  _velocity_tag None = TAG_CHECK /\
  _velocity_tag (Some ""%string) = TAG_CHECK /\
  (forall percentile,
     In (_velocity_tag percentile) [TAG_ROCKET; TAG_FIRE; TAG_CHECK; TAG_SLEEP]).
Proof.
  split; [|split; [reflexivity|split; [reflexivity|]]].
  - unfold _velocity_tag.
    rewrite percent_string_truthy, parse_percent_string.
    destruct (p <=? 5); [reflexivity|].
    destruct (p <=? 15); [reflexivity|].
    destruct (p <=? 35) eqn:E35; [reflexivity|].
    apply Z.leb_gt in E35. apply Z.ltb_lt in E35. now rewrite E35.
  - intros percentile. unfold _velocity_tag.
    destruct (match percentile with
              | Some s => if truthy s then int_of_str (remove_char "%" s) else None
              | None => None
              end) as [q|]; [|simpl; tauto].
    destruct (q <=? 5); [simpl; tauto|].
    destruct (q <=? 15); [simpl; tauto|].
    destruct (q <=? 35); [simpl; tauto|].
    destruct (35 <? q); simpl; tauto.
Qed.

(** C3, as stated, fails: an absent percentile does not give an empty
    tag. *)
Lemma velocity_tag_absent_is_not_empty :
  _velocity_tag None <> ""%string.
Proof.
  vm_compute. discriminate.
Qed.

End TagSpec.

(* ------------------------------------------------------------------ *)
(** ** Lookups in updated tables *)

Module TableFacts.

Lemma find_map_update {A : Type} (key : A -> bool) (f : A -> A) (l : list A) :
  (forall r, key r = true -> key (f r) = true) ->
  find key (map (fun r => if key r then f r else r) l) = option_map f (find key l).
Proof.
  intros Hk. induction l as [|r l IH]; simpl; [reflexivity|].
  destruct (key r) eqn:E.
  - now rewrite (Hk r E).
  - now rewrite E.
Qed.

Lemma find_app_new {A : Type} (key : A -> bool) (l : list A) (x : A) :
  existsb key l = false -> key x = true -> find key (l ++ [x]) = Some x.
Proof.
  intros Hl Hx. induction l as [|r l IH]; simpl in *.
  - now rewrite Hx.
  - apply orb_false_iff in Hl. destruct Hl as [Hr Hl]. rewrite Hr. auto.
Qed.

Lemma existsb_find {A : Type} (key : A -> bool) (l : list A) :
  existsb key l = true -> exists r, find key l = Some r /\ key r = true.
Proof.
  induction l as [|r l IH]; simpl; [discriminate|].
  destruct (key r) eqn:E; [eauto|]. simpl. exact IH.
Qed.

Lemma find_map_other {A : Type} (key other : A -> bool) (f : A -> A) (l : list A) :
  (forall r, other r = true -> key r = false /\ key (f r) = false) ->
  find key (map (fun r => if other r then f r else r) l) = find key l.
Proof.
  intros H. induction l as [|r l IH]; simpl; [reflexivity|].
  destruct (other r) eqn:E.
  - destruct (H r E) as [-> ->]. exact IH.
  - destruct (key r); [reflexivity|exact IH].
Qed.

Lemma find_app_other {A : Type} (key : A -> bool) (l : list A) (x : A) :
  key x = false -> find key (l ++ [x]) = find key l.
Proof.
  intros Hx. induction l as [|r l IH]; simpl.
  - now rewrite Hx.
  - destruct (key r); [reflexivity|exact IH].
Qed.

End TableFacts.

(* ------------------------------------------------------------------ *)
(** ** The cohort pool *)

Module PoolFacts.
Import Py PyFacts Classifier Store Lifecycle.

Lemma known_checkpoint (checkpoint : string) (snap : snapshot) (t : triple) :
  checkpoint_columns checkpoint snap = Some t ->
  in_field_map checkpoint = true /\ 0 < _checkpoint_days checkpoint.
Proof.
  unfold checkpoint_columns, in_field_map, _checkpoint_days.
  destruct (checkpoint =? "d1")%string; [intros _; split; [reflexivity|lia]|].
  destruct (checkpoint =? "d3")%string; [intros _; split; [reflexivity|lia]|].
  destruct (checkpoint =? "d7")%string; [intros _; split; [reflexivity|lia]|].
  destruct (checkpoint =? "d21")%string; [intros _; split; [reflexivity|lia]|].
  discriminate.
Qed.

Lemma metric_for_checkpoint_some (snap : snapshot) (it : item) (checkpoint : string)
    (m : Q) :
  _metric_for_checkpoint snap it checkpoint = Some m ->
  exists t, checkpoint_columns checkpoint snap = Some t /\ any_value t = true /\
            m = _metric_value it (t_views t) (t_likes t) (t_comments t).
Proof.
  unfold _metric_for_checkpoint.
  destruct (checkpoint_columns checkpoint snap) as [t|]; [|discriminate].
  destruct (any_value t) eqn:E; [|discriminate].
  intros [= <-]. exists t. auto.
Qed.

Lemma get_snapshots_found (db : tables) (sub : Z) (handle url : string) (snap : snapshot) :
  get_snapshots db sub handle url = Some snap ->
  In snap (post_snapshots db) /\ snap_subscriber_id snap = sub /\
  snap_handle snap = handle /\ snap_post_url snap = url.
Proof.
  unfold get_snapshots. intros H. apply find_some in H. destruct H as [Hin Hk].
  unfold snapshot_key in Hk.
  apply andb_true_iff in Hk. destruct Hk as [Hk Hu].
  apply andb_true_iff in Hk. destruct Hk as [Hs Hh].
  apply Z.eqb_eq in Hs. apply String.eqb_eq in Hh. apply String.eqb_eq in Hu.
  auto.
Qed.

(** The row of the classified post passes the media-type filter of the
    pool: its stored media type is compared with itself, or is empty. *)
Lemma own_row_pool_value (snap : snapshot) (it : item) (checkpoint : string) (days : Z)
    (t : triple) :
  checkpoint_columns checkpoint snap = Some t ->
  pool_value (cohort_media_type snap it) checkpoint days snap =
    Some (_metric_value (item_of_type (lower (or_else (snap_media_type snap) "")))
            (t_views t) (t_likes t) (t_comments t) / inject_Z days)%Q.
Proof.
  intros Ht. unfold pool_value, cohort_media_type. rewrite Ht.
  destruct (snap_media_type snap) as [s|]; simpl or_else.
  - destruct (truthy s) eqn:Es.
    + rewrite contains_refl. simpl. rewrite andb_false_r. reflexivity.
    + simpl. rewrite andb_false_r. reflexivity.
  - simpl. rewrite andb_false_r. reflexivity.
Qed.

Lemma own_row_selected (sub : Z) (handle checkpoint : string) (snap : snapshot)
    (t : triple) :
  snap_subscriber_id snap = sub -> snap_handle snap = handle ->
  checkpoint_columns checkpoint snap = Some t -> any_value t = true ->
  pool_row sub handle checkpoint snap = true.
Proof.
  intros Hs Hh Ht Hv. unfold pool_row. rewrite Ht, Hv, Hs, Hh.
  now rewrite Z.eqb_refl, String.eqb_refl.
Qed.

Lemma pool_values_In (media_type checkpoint : string) (days : Z) (rows : list snapshot)
    (r : snapshot) (v : Q) :
  In r rows -> pool_value media_type checkpoint days r = Some v ->
  In v (pool_values media_type checkpoint days rows).
Proof.
  intros Hin Hv. induction rows as [|r0 rest IH]; [contradiction|].
  simpl. destruct Hin as [->|Hin].
  - rewrite Hv. now left.
  - destruct (pool_value media_type checkpoint days r0); [right|]; auto.
Qed.

Lemma pool_values_peers_le (sub : Z) (handle url media_type checkpoint : string)
    (days : Z) (rows : list snapshot) :
  (List.length
     (pool_values media_type checkpoint days
        (filter (pool_row sub handle checkpoint) (peers sub handle url rows)))
   <= List.length
        (pool_values media_type checkpoint days
           (filter (pool_row sub handle checkpoint) rows)))%nat.
Proof.
  induction rows as [|r rest IH]; simpl; [lia|].
  destruct (snapshot_key sub handle url r); simpl;
    destruct (pool_row sub handle checkpoint r); simpl; try lia;
    destruct (pool_value media_type checkpoint days r); simpl; lia.
Qed.

Lemma pool_values_counts_own (sub : Z) (handle url media_type checkpoint : string)
    (days : Z) (rows : list snapshot) (r : snapshot) (v : Q) :
  In r rows ->
  snapshot_key sub handle url r = true ->
  pool_row sub handle checkpoint r = true ->
  pool_value media_type checkpoint days r = Some v ->
  (1 + List.length
         (pool_values media_type checkpoint days
            (filter (pool_row sub handle checkpoint) (peers sub handle url rows)))
   <= List.length
        (pool_values media_type checkpoint days
           (filter (pool_row sub handle checkpoint) rows)))%nat.
Proof.
  intros Hin Hk Hrow Hv. induction rows as [|r0 rest IH]; [contradiction|].
  destruct Hin as [->|Hin].
  - pose proof (pool_values_peers_le sub handle url media_type checkpoint days rest).
    unfold peers in *. simpl. rewrite Hk, Hrow. simpl. rewrite Hv. simpl. lia.
  - specialize (IH Hin). unfold peers in *. simpl.
    destruct (snapshot_key sub handle url r0); simpl;
      destruct (pool_row sub handle checkpoint r0); simpl; try lia;
      destruct (pool_value media_type checkpoint days r0); simpl; lia.
Qed.

Lemma velocity_pool_unfold (db : tables) (sub : Z) (handle media_type checkpoint : string) :
  in_field_map checkpoint = true -> 0 < _checkpoint_days checkpoint ->
  _velocity_pool db sub handle media_type checkpoint =
    pool_values media_type checkpoint (_checkpoint_days checkpoint)
      (filter (pool_row sub handle checkpoint) (post_snapshots db)).
Proof.
  intros Hf Hd. unfold _velocity_pool. rewrite Hf.
  destruct (_checkpoint_days checkpoint <=? 0) eqn:E; [apply Z.leb_le in E; lia|].
  reflexivity.
Qed.

(** A stored post that has a value at the checkpoint is in its own cohort
    pool, once, next to its peers. *)
Lemma own_row_in_pool (db : tables) (sub : Z) (handle url : string) (snap : snapshot)
    (it : item) (checkpoint : string) (t : triple) :
  get_snapshots db sub handle url = Some snap ->
  checkpoint_columns checkpoint snap = Some t ->
  any_value t = true ->
  let days := _checkpoint_days checkpoint in
  let media_type := cohort_media_type snap it in
  let pool := _velocity_pool db sub handle media_type checkpoint in
  In (_metric_value (item_of_type (lower (or_else (snap_media_type snap) "")))
        (t_views t) (t_likes t) (t_comments t) / inject_Z days)%Q pool /\
  (1 + List.length (peer_pool db sub handle url media_type checkpoint)
   <= List.length pool)%nat.
Proof.
  intros Hget Ht Hv days media_type pool. unfold peer_pool.
  destruct (known_checkpoint _ _ _ Ht) as [Hf Hd].
  destruct (get_snapshots_found _ _ _ _ _ Hget) as (Hin & Hs & Hh & Hu).
  pose proof (own_row_pool_value snap it checkpoint days t Ht) as Hpv.
  pose proof (own_row_selected sub handle checkpoint snap t Hs Hh Ht Hv) as Hrow.
  unfold pool. rewrite (velocity_pool_unfold db sub handle media_type checkpoint Hf Hd).
  fold days. split.
  - eapply pool_values_In; [|exact Hpv].
    apply filter_In. split; assumption.
  - eapply pool_values_counts_own; [exact Hin| |exact Hrow|exact Hpv].
    unfold snapshot_key. rewrite Hs, Hh, Hu.
    now rewrite Z.eqb_refl, !String.eqb_refl.
Qed.

Lemma or_else_some_empty (s : string) : or_else (Some s) "" = s.
Proof.
  destruct s; reflexivity.
Qed.

Lemma tag_for_checkpoint_unfold (db : tables) (sub : Z) (handle media_type : string)
    (snap : snapshot) (it : item) (checkpoint : string) :
  _velocity_tag_for_checkpoint db sub handle media_type snap it checkpoint =
    if _checkpoint_days checkpoint <=? 0 then None
    else
      match _metric_for_checkpoint snap it checkpoint with
      | None => None
      | Some metric =>
          match _velocity_pool db sub handle media_type checkpoint with
          | [] => None
          | v :: pool =>
              if Z.of_nat (List.length (v :: pool)) <? _min_cohort_size checkpoint
              then Some INSUFFICIENT_DATA
              else Some (_velocity_tag
                           (_percentile (v :: pool)
                              (metric / inject_Z (_checkpoint_days checkpoint))%Q))
          end
      end.
Proof.
  unfold _velocity_tag_for_checkpoint.
  destruct (_checkpoint_days checkpoint <=? 0); [reflexivity|].
  destruct (_metric_for_checkpoint snap it checkpoint); [|reflexivity].
  destruct (_velocity_pool db sub handle media_type checkpoint); reflexivity.
Qed.

(** The tag that [_velocity_from_snapshots] emits at d7, in terms of the
    plain tags of d7 and d1. *)
Lemma emitted_d7_tag (db : tables) (sub : Z) (handle : string) (snap : snapshot)
    (it : item) :
  let cohort := cohort_media_type snap it in
  let d7_tag := _velocity_tag_for_checkpoint db sub handle cohort snap it "d7" in
  let d1_tag := _velocity_tag_for_checkpoint db sub handle cohort snap it "d1" in
  snd (_velocity_from_snapshots db sub handle snap it "d7") =
    (if (negb (_is_high_tag d1_tag) && _is_high_tag d7_tag)%bool
     then (TAG_CLOVER ++ or_else d7_tag "")%string
     else or_else d7_tag "").
Proof.
  intros cohort d7_tag d1_tag. subst d7_tag d1_tag cohort.
  rewrite (tag_for_checkpoint_unfold db sub handle (cohort_media_type snap it)
             snap it "d7").
  unfold _velocity_from_snapshots.
  change (_checkpoint_days "d7" <=? 0) with false. cbv iota.
  destruct (_metric_for_checkpoint snap it "d7") as [m|];
    [|rewrite andb_false_r; reflexivity].
  destruct (_velocity_pool db sub handle (cohort_media_type snap it) "d7")
    as [|v pool]; [rewrite andb_false_r; reflexivity|].
  destruct (Z.of_nat (List.length (v :: pool)) <? _min_cohort_size "d7").
  - rewrite andb_false_r. reflexivity.
  - change ("d7" =? "d7")%string with true. cbv iota.
    cbn [snd]. rewrite or_else_some_empty.
    destruct (negb _ && _)%bool; reflexivity.
Qed.

End PoolFacts.

(* ------------------------------------------------------------------ *)
(** ** Small cohorts, the post in its own cohort, late bloomers *)

Module CohortSpec.
Import Py PyFacts Classifier Store Lifecycle TableFacts PoolFacts.

(** C5, as the code has it. For a stored post whose cohort pool is smaller
    than the minimum (12 at d1, 20 at every other checkpoint): when the post
    has a value at the checkpoint it gets the sentinel tag insufficient_data
    and no percentile; when it has none, the classifier returns before it
    reads the pool, with an empty tag and no percentile. *)
Theorem small_cohort_insufficient_data (db : tables) (sub : Z) (handle url : string)
    (snap : snapshot) (it : item) (checkpoint : string) :
  get_snapshots db sub handle url = Some snap ->
  Z.of_nat (List.length
              (_velocity_pool db sub handle (cohort_media_type snap it) checkpoint))
    < _min_cohort_size checkpoint ->
  _min_cohort_size checkpoint = (if (checkpoint =? "d1")%string then 12 else 20) /\
  match _metric_for_checkpoint snap it checkpoint with
  | Some _ =>
      _velocity_from_snapshots db sub handle snap it checkpoint
        = (None, INSUFFICIENT_DATA) /\
      _velocity_tag_for_checkpoint db sub handle (cohort_media_type snap it) snap it
        checkpoint = Some INSUFFICIENT_DATA
  | None =>
      _velocity_from_snapshots db sub handle snap it checkpoint = (None, ""%string) /\
      _velocity_tag_for_checkpoint db sub handle (cohort_media_type snap it) snap it
        checkpoint = None
  end.
Proof.
  intros Hget Hlen. split; [reflexivity|].
  destruct (_metric_for_checkpoint snap it checkpoint) as [m|] eqn:Hm.
  - destruct (metric_for_checkpoint_some _ _ _ _ Hm) as (t & Ht & Hv & _).
    destruct (known_checkpoint _ _ _ Ht) as [_ Hd].
    destruct (own_row_in_pool db sub handle url snap it checkpoint t Hget Ht Hv)
      as [Hin _].
    apply Z.ltb_lt in Hlen.
    unfold _velocity_from_snapshots, _velocity_tag_for_checkpoint.
    destruct (_checkpoint_days checkpoint <=? 0) eqn:E; [apply Z.leb_le in E; lia|].
    rewrite Hm.
    destruct (_velocity_pool db sub handle (cohort_media_type snap it) checkpoint)
      as [|v pool]; [contradiction|].
    rewrite Hlen. auto.
  - unfold _velocity_from_snapshots, _velocity_tag_for_checkpoint. rewrite Hm.
    destruct (_checkpoint_days checkpoint <=? 0); auto.
Qed.

(** Scenario of the specification: eleven posts at d1, the minimum is 12. *)
Lemma small_cohort_insufficient_data_witness :
  get_snapshots Sample.cohort_d1 1 "h" "own" = Some Sample.early_post /\
  Z.of_nat (List.length
              (_velocity_pool Sample.cohort_d1 1 "h"
                 (cohort_media_type Sample.early_post Sample.video_item) "d1")) = 11 /\
  _min_cohort_size "d1" = 12 /\
  _velocity_from_snapshots Sample.cohort_d1 1 "h" Sample.early_post Sample.video_item "d1"
  = (None, INSUFFICIENT_DATA) /\
  _velocity_tag_for_checkpoint Sample.cohort_d1 1 "h"
    (cohort_media_type Sample.early_post Sample.video_item) Sample.early_post
    Sample.video_item "d1" = Some INSUFFICIENT_DATA.
Proof.
  split; [reflexivity|]. split; [reflexivity|].
  destruct (small_cohort_insufficient_data Sample.cohort_d1 1 "h" "own" Sample.early_post
              Sample.video_item "d1" eq_refl eq_refl) as [Hmin Hcase].
  split; [exact Hmin|]. exact Hcase.
Defined.

(** C5, as stated, fails: a post scraped without any count (the normalised
    record holds empty strings) is classified at d1 against the eleven posts
    of the cohort, one short of the minimum, and is given the check tag, not
    the sentinel. *)
Lemma post_without_counts_is_not_insufficient :
  let n := {| n_post_url := "new"; n_media_type := "Video"; n_views := "";
              n_likes := ""; n_comments := ""; n_caption := "";
              n_velocity := ""; n_velocity_percentile := ""; n_velocity_stage := "" |} in
  let t' := fst (_apply_velocity Sample.cohort_d1 30 1 "h" Sample.video_item n
                   (Some "d1"%string)) in
  exists snap,
    get_snapshots t' 1 "h" "new" = Some snap /\
    Z.of_nat (List.length
                (_velocity_pool t' 1 "h" (cohort_media_type snap Sample.video_item) "d1"))
      = 11 /\
    _min_cohort_size "d1" = 12 /\
    _velocity_from_snapshots t' 1 "h" snap Sample.video_item "d1" = (None, ""%string) /\
    _velocity_from_snapshots t' 1 "h" snap Sample.video_item "d1"
      <> (None, INSUFFICIENT_DATA) /\
    map sig_velocity_tag (post_signals t') = [Some TAG_CHECK].
Proof.
  intros n t'. eexists. split; [vm_compute; reflexivity|].
  split; [vm_compute; reflexivity|]. split; [reflexivity|].
  split; [vm_compute; reflexivity|].
  split; [vm_compute; discriminate|vm_compute; reflexivity].
Qed.

Lemma checkpoint_columns_set (checkpoint : string) (t : triple) (r : snapshot) :
  in_field_map checkpoint = true ->
  checkpoint_columns checkpoint (set_checkpoint_columns checkpoint t r) = Some t.
Proof.
  unfold in_field_map, checkpoint_columns, set_checkpoint_columns. simpl.
  destruct (checkpoint =? "d1")%string; [reflexivity|].
  destruct (checkpoint =? "d3")%string; [reflexivity|].
  destruct (checkpoint =? "d7")%string; [reflexivity|].
  destruct (checkpoint =? "d21")%string; [reflexivity|discriminate].
Qed.

Lemma checkpoint_columns_known (checkpoint : string) (r : snapshot) :
  in_field_map checkpoint = true -> exists t, checkpoint_columns checkpoint r = Some t.
Proof.
  unfold in_field_map, checkpoint_columns.
  destruct (checkpoint =? "d1")%string; [eauto|].
  destruct (checkpoint =? "d3")%string; [eauto|].
  destruct (checkpoint =? "d7")%string; [eauto|].
  destruct (checkpoint =? "d21")%string; [eauto|discriminate].
Qed.

(** After [upsert_snapshot] the row of the post holds the values just
    written at the checkpoint. *)
Lemma upsert_snapshot_get (db : tables) (now sub : Z) (handle url : string)
    (media_type : option string) (posted_at : option Z) (checkpoint : string)
    (views likes comments : option Z) :
  in_field_map checkpoint = true ->
  exists snap at_,
    get_snapshots
      (upsert_snapshot db now sub handle url media_type posted_at checkpoint
         views likes comments) sub handle url = Some snap /\
    checkpoint_columns checkpoint snap =
      Some {| t_at := at_; t_views := views; t_likes := likes; t_comments := comments |}.
Proof.
  intros Hf. unfold get_snapshots, upsert_snapshot. cbn [post_snapshots].
  rewrite Hf. cbn [negb].
  set (key := snapshot_key sub handle url).
  set (upd := fun r : snapshot => match checkpoint_columns checkpoint r with
       | Some old =>
           set_checkpoint_columns checkpoint
             {| t_at := coalesce (t_at old) (Some now); t_views := views;
                t_likes := likes; t_comments := comments |}
             (set_media_type (coalesce (snap_media_type r) media_type) r)
       | None => r
       end).
  assert (Hkey : forall r, key r = true -> key (upd r) = true).
  { intros r Hr. unfold upd. destruct (checkpoint_columns checkpoint r); exact Hr. }
  assert (Hupd : forall r, exists at_, checkpoint_columns checkpoint (upd r) =
      Some {| t_at := at_; t_views := views; t_likes := likes; t_comments := comments |}).
  { intros r. unfold upd.
    destruct (checkpoint_columns_known checkpoint r Hf) as [old ->].
    eexists. now apply checkpoint_columns_set. }
  set (rows := if existsb key (post_snapshots db) then post_snapshots db else _).
  assert (Hfound : exists r, find key rows = Some r).
  { unfold rows. destruct (existsb key (post_snapshots db)) eqn:E.
    - destruct (existsb_find _ _ E) as (r & Hr & _). eauto.
    - eexists. apply find_app_new; [exact E|].
      unfold key, snapshot_key. cbn.
      now rewrite Z.eqb_refl, !String.eqb_refl. }
  destruct Hfound as [r Hr].
  pose proof (find_map_update key upd rows Hkey) as Hfind.
  rewrite Hr in Hfind. cbn [option_map] in Hfind. cbv beta delta [upd] in Hfind.
  rewrite Hfind. fold upd.
  destruct (Hupd r) as [at_ Hat]. eauto.
Qed.

(** C10, as the code has it. After the snapshot of a post is upserted with
    some value at a checkpoint, the pool query selects the post's own row
    like every row of the subscriber and handle with a value at the
    checkpoint: the pool holds the value of that row, computed with the
    media type stored in the row, and is larger by at least one than what the
    other posts add, so the minimum-cohort-size check counts the post itself;
    when the stored media type and the scraped item select the same metric,
    that value is the post's own metric-per-day. *)
Theorem own_snapshot_in_cohort_pool (db : tables) (now sub : Z) (handle url : string)
    (media_type : option string) (posted_at : option Z) (checkpoint : string)
    (views likes comments : option Z) (it : item) :
  in_field_map checkpoint = true ->
  any_value {| t_at := None; t_views := views; t_likes := likes;
               t_comments := comments |} = true ->
  let db1 := upsert_snapshot db now sub handle url media_type posted_at checkpoint
               views likes comments in
  exists snap,
    get_snapshots db1 sub handle url = Some snap /\
    pool_row sub handle checkpoint snap = true /\
    let days := _checkpoint_days checkpoint in
    let cohort := cohort_media_type snap it in
    let pool := _velocity_pool db1 sub handle cohort checkpoint in
    let stored := item_of_type (lower (or_else (snap_media_type snap) "")) in
    In (_metric_value stored views likes comments / inject_Z days)%Q pool /\
    (1 + List.length (peer_pool db1 sub handle url cohort checkpoint)
     <= List.length pool)%nat /\
    (_min_cohort_size checkpoint - 1
       <= Z.of_nat (List.length (peer_pool db1 sub handle url cohort checkpoint)) ->
     (Z.of_nat (List.length pool) <? _min_cohort_size checkpoint) = false) /\
    _metric_for_checkpoint snap it checkpoint =
      Some (_metric_value it views likes comments) /\
    (_metric_value stored views likes comments = _metric_value it views likes comments ->
     In (_metric_value it views likes comments / inject_Z days)%Q pool).
Proof.
  intros Hf Hv db1.
  destruct (upsert_snapshot_get db now sub handle url media_type posted_at checkpoint
              views likes comments Hf) as (snap & at_ & Hget & Hcols).
  fold db1 in Hget. exists snap. split; [exact Hget|].
  assert (Hv' : any_value {| t_at := at_; t_views := views; t_likes := likes;
                             t_comments := comments |} = true) by exact Hv.
  destruct (get_snapshots_found _ _ _ _ _ Hget) as (_ & Hs & Hh & _).
  split; [now apply (own_row_selected sub handle checkpoint snap _ Hs Hh Hcols)|].
  destruct (own_row_in_pool db1 sub handle url snap it checkpoint _ Hget Hcols Hv')
    as [Hin Hcount].
  cbn [t_views t_likes t_comments] in Hin.
  cbv zeta. split; [exact Hin|]. split; [exact Hcount|]. split; [|split].
  - intros Hpeers. apply Z.ltb_ge. lia.
  - unfold _metric_for_checkpoint. rewrite Hcols, Hv'. reflexivity.
  - intros <-. exact Hin.
Qed.

Lemma own_snapshot_in_cohort_pool_witness :
  exists snap,
    get_snapshots
      (upsert_snapshot Sample.cohort_d1 7 1 "h" "own" (Some "Video"%string) (Some 0) "d1"
         (Some 6000) None None) 1 "h" "own" = Some snap /\
    pool_row 1 "h" "d1" snap = true.
Proof.
  destruct (own_snapshot_in_cohort_pool Sample.cohort_d1 7 1 "h" "own"
              (Some "Video"%string) (Some 0) "d1" (Some 6000) None None
              Sample.video_item eq_refl eq_refl) as (snap & Hget & Hrow & _).
  exists snap. split; assumption.
Defined.

(** C10, as stated, fails: a post first stored without a media type and
    scraped again as a video has 100/3 views per day at d3, and the pool it
    is ranked against holds 5/3 (its likes per day). *)
Lemma own_metric_per_day_not_in_pool :
  let db1 := upsert_snapshot Sample.untyped_tables 7 1 "h" "own" (Some "Video"%string)
               (Some 0) "d3" (Some 100) (Some 5) (Some 0) in
  exists snap,
    get_snapshots db1 1 "h" "own" = Some snap /\
    _metric_for_checkpoint snap Sample.video_item "d3" = Some (inject_Z 100) /\
    ~ InQ (inject_Z 100 / inject_Z 3)
        (_velocity_pool db1 1 "h" (cohort_media_type snap Sample.video_item) "d3").
Proof.
  eexists. split; [reflexivity|]. split; [reflexivity|].
  intros (y & Hy & E). vm_compute in Hy.
  destruct Hy as [<-|[]]. vm_compute in E. discriminate E.
Qed.

(** C4, as the code has it. At d7 the emitted tag is the d7 tag prefixed
    with the clover literal exactly when the d1 tag of the post is not hot
    and the d7 tag is hot; a d1 tag that is absent or is the
    insufficient-data sentinel counts as not hot, so a post without any d1
    value gets the prefix whenever its d7 tag is hot. *)
Theorem late_bloomer_rule (db : tables) (sub : Z) (handle : string) (snap : snapshot)
    (it : item) :
  let cohort := cohort_media_type snap it in
  let d7_tag := _velocity_tag_for_checkpoint db sub handle cohort snap it "d7" in
  let d1_tag := _velocity_tag_for_checkpoint db sub handle cohort snap it "d1" in
  let emitted := snd (_velocity_from_snapshots db sub handle snap it "d7") in
  emitted =
    (if (negb (_is_high_tag d1_tag) && _is_high_tag d7_tag)%bool
     then (TAG_CLOVER ++ or_else d7_tag "")%string
     else or_else d7_tag "") /\
  (any_value (snap_d1 snap) = false ->
   d1_tag = None /\
   emitted = (if _is_high_tag d7_tag then (TAG_CLOVER ++ or_else d7_tag "")%string
              else or_else d7_tag "")).
Proof.
  intros cohort d7_tag d1_tag emitted.
  pose proof (emitted_d7_tag db sub handle snap it) as Hmain.
  cbv zeta in Hmain. fold cohort d7_tag d1_tag emitted in Hmain.
  split; [exact Hmain|].
  intros Hd1.
  assert (Hnone : d1_tag = None).
  { subst d1_tag. rewrite tag_for_checkpoint_unfold.
    assert (Hm : _metric_for_checkpoint snap it "d1" = None).
    { unfold _metric_for_checkpoint.
      change (checkpoint_columns "d1" snap) with (Some (snap_d1 snap)).
      cbv iota. now rewrite Hd1. }
    rewrite Hm. reflexivity. }
  split; [exact Hnone|]. rewrite Hmain, Hnone. reflexivity.
Qed.

Lemma late_bloomer_rule_witness :
  any_value (snap_d1 Sample.late_post) = false /\
  _velocity_tag_for_checkpoint Sample.cohort_d7 1 "h"
    (cohort_media_type Sample.late_post Sample.video_item)
    Sample.late_post Sample.video_item "d1" = None.
Proof.
  split; [reflexivity|].
  apply (late_bloomer_rule Sample.cohort_d7 1 "h" Sample.late_post Sample.video_item).
  reflexivity.
Defined.

(** C4, as stated, fails: a post that was never observed at d1 and is the
    top of its cohort at d7 is emitted with the clover prefix. *)
Lemma late_bloomer_without_d1 :
  any_value (snap_d1 Sample.late_post) = false /\
  _velocity_tag_for_checkpoint Sample.cohort_d7 1 "h"
    (cohort_media_type Sample.late_post Sample.video_item)
    Sample.late_post Sample.video_item "d1" = None /\
  _velocity_from_snapshots Sample.cohort_d7 1 "h" Sample.late_post Sample.video_item "d7"
  = (Some "1%"%string, (TAG_CLOVER ++ TAG_ROCKET)%string).
Proof.
  split; [reflexivity|]. split; vm_compute; reflexivity.
Qed.

End CohortSpec.

(* ------------------------------------------------------------------ *)
(** ** The circuit breaker *)

Module BreakerSpec.
Import Py Store Queue.

(** C8, as the code has it. [record_apify_failure] increments the count of
    consecutive failures; exactly when the incremented count reaches
    max(1, trigger) it sets the pause to now + max(1, cooldown_hours) hours
    and resets the count to 0; [record_apify_success] resets the count to 0
    and clears the pause and the last error.  With a trigger and a cooldown of
    at least 1 the threshold is the trigger and the pause is
    now + cooldown_hours. *)
Theorem record_failure_and_success (now : Z) (error : string)
    (trigger_failures cooldown_hours : Z) (st : state) :
  let count := consecutive_failures (apify_health st) + 1 in
  let tripped := Z.max 1 trigger_failures <=? count in
  let st' := fst (record_apify_failure now error trigger_failures cooldown_hours st) in
  snd (record_apify_failure now error trigger_failures cooldown_hours st) =
    (count, if tripped then Some (now + Z.max 1 cooldown_hours * 3600) else None) /\
  consecutive_failures (apify_health st') = (if tripped then 0 else count) /\
  pause_until (apify_health st') =
    (if tripped then Some (now + Z.max 1 cooldown_hours * 3600)
     else pause_until (apify_health st)) /\
  apify_health (record_apify_success st) =
    {| consecutive_failures := 0; pause_until := None; last_error := None |} /\
  (1 <= trigger_failures -> 1 <= cooldown_hours ->
   (tripped = true <-> trigger_failures <= count) /\
   (tripped = true ->
    pause_until (apify_health st') = Some (now + cooldown_hours * 3600) /\
    consecutive_failures (apify_health st') = 0)).
Proof.
  intros count tripped st'. subst st'. unfold record_apify_failure.
  fold count. fold tripped.
  destruct tripped eqn:E; cbn; repeat split; auto; intros.
  - unfold tripped in E. apply Z.leb_le in E. lia.
  - f_equal. lia.
  - discriminate.
  - unfold tripped in E. apply Z.leb_gt in E. lia.
  - discriminate.
  - discriminate.
Qed.

(** Scenario of the specification: the fifth consecutive failure with a
    trigger of 5 pauses the provider and resets the count. *)
Import Sample.

Lemma record_failure_and_success_witness :
  1 <= 5 /\ 1 <= 3 /\
  pause_until (apify_health (fst (record_apify_failure 100 "timeout" 5 3 quiet)))
    = Some (100 + 3 * 3600) /\
  consecutive_failures (apify_health (fst (record_apify_failure 100 "timeout" 5 3 quiet)))
    = 0.
Proof.
  split; [lia|]. split; [lia|].
  apply (record_failure_and_success 100 "timeout" 5 3 quiet); [lia|lia|reflexivity].
Defined.

(** C8, as stated, fails: with a cooldown of 0 hours the pause is one hour
    long, not zero. *)
Lemma cooldown_is_at_least_one_hour :
  pause_until (apify_health (fst (record_apify_failure 100 "timeout" 5 0 quiet)))
    = Some (100 + 3600) /\
  pause_until (apify_health (fst (record_apify_failure 100 "timeout" 5 0 quiet)))
    <> Some (100 + 0 * 3600).
Proof.
  split; [reflexivity|]. vm_compute. discriminate.
Qed.

End BreakerSpec.

(* ------------------------------------------------------------------ *)
(** ** Alert dedupe *)

Module AlertSpec.
Import Py Alerts.

Lemma existsb_false_In {A : Type} (f : A -> bool) (l : list A) (a : A) :
  existsb f l = false -> In a l -> f a = false.
Proof.
  intros H Hin. induction l as [|x l IH]; [contradiction|].
  simpl in H. apply orb_false_iff in H. destruct H as [Hx Hl].
  destruct Hin as [->|Hin]; auto.
Qed.

Lemma ForallOrdPairs_snoc {A : Type} (R : A -> A -> Prop) (l : list A) (x : A) :
  ForallOrdPairs R l -> Forall (fun a => R a x) l -> ForallOrdPairs R (l ++ [x]).
Proof.
  intros Hl Hx. induction Hl as [|a l Ha Hl IH]; simpl.
  - constructor; constructor.
  - inversion Hx as [|? ? Hax Hlx]; subst. constructor.
    + apply Forall_app. split; [exact Ha|]. constructor; [exact Hax|constructor].
    + now apply IH.
Qed.

Section Dedupe.

Variable sha256_hexdigest : string -> string.
Variable utc_date : Z -> string.
Variable strip_lower : string -> string.

(** With a unique index that the conflict target can use, the statement
    dedupes: the key of an inserted row is the SHA-256 digest of
    "feed_id|feeder_id or 0|alert_type|trimmed lowercased title|UTC date";
    the insert keeps at most one row per feed and dedupe key, and keeps any
    two active rows (candidate, selected, sent) of one feed, feeder, type
    and title more than 24 hours apart. *)
Lemma upsert_with_usable_index (indexes : list unique_index)
    (table : list alert_candidate) (now feed_id : Z)
    (feeder_id : option Z) (alert_type title body : string) :
  existsb (infers CONFLICT_TARGET) indexes = true ->
  unique_dedupe_key table ->
  no_recent_twins table ->
  let key :=
    sha256_hexdigest
      (str_of_int feed_id ++ "|" ++ str_of_int (or_zero feeder_id) ++ "|"
       ++ alert_type ++ "|" ++ strip_lower title ++ "|" ++ utc_date now)%string in
  exists table',
    upsert_alert_candidate sha256_hexdigest utc_date strip_lower indexes table now
      feed_id feeder_id alert_type title body = Some table' /\
    unique_dedupe_key table' /\
    no_recent_twins table' /\
    (table' = table \/
     table' = table ++ [{| ac_feed_id := feed_id; ac_feeder_id := feeder_id;
                           ac_alert_type := alert_type; ac_title := title;
                           ac_body := body; ac_alert_dedupe_key := key;
                           ac_status := "candidate"; ac_created_at := now |}]).
Proof.
  intros Hix Hu Ht key. unfold upsert_alert_candidate. rewrite Hix. cbn [negb].
  change (sha256_hexdigest
            (dedupe_base utc_date strip_lower feed_id feeder_id alert_type title now))
    with key.
  destruct (existsb (recent_duplicate feed_id feeder_id alert_type title now) table)
    eqn:Er; [exists table; auto|].
  destruct (existsb (key_conflict feed_id key) table) eqn:Ek; [exists table; auto|].
  eexists. split; [reflexivity|].
  split; [|split; [|right; reflexivity]].
  - apply ForallOrdPairs_snoc; [exact Hu|].
    apply Forall_forall. intros a Ha [Hf Hk]. cbn in Hf, Hk.
    pose proof (existsb_false_In _ _ a Ek Ha) as Hc.
    unfold key_conflict in Hc. rewrite Hf, Hk in Hc.
    now rewrite Z.eqb_refl, String.eqb_refl in Hc.
  - apply ForallOrdPairs_snoc; [exact Ht|].
    apply Forall_forall. intros a Ha Hf Hfe Hty Hti Hact _. cbn in *.
    pose proof (existsb_false_In _ _ a Er Ha) as Hc.
    unfold recent_duplicate in Hc.
    rewrite Hf, Hfe, Hty, Hti, Hact in Hc.
    rewrite !Z.eqb_refl, !String.eqb_refl in Hc. cbn in Hc.
    rewrite andb_true_r in Hc. apply Z.leb_gt in Hc. lia.
Qed.


(** Scenario of the specification: two scans within one hour raise the same
    alert for the same feeder.  The specification expects one row; none is
    stored. *)
Example alert_scenario_stores_nothing :
  let once :=
    table_after []
      (upsert_alert_candidate sha256_hexdigest utc_date strip_lower init_db_indexes []
         1000 1 (Some 7) "velocity_spike" "Spike" "first") in
  let twice :=
    table_after once
      (upsert_alert_candidate sha256_hexdigest utc_date strip_lower init_db_indexes once
         4000 1 (Some 7) "velocity_spike" "Spike" "second") in
  List.length twice = 0%nat.
Proof. reflexivity. Qed.

End Dedupe.

End AlertSpec.

(* ------------------------------------------------------------------ *)
(** ** Queue order, batches and the updates of a turn *)

Module WorkerFacts.
Import Py Store Queue Enqueue Worker.

Lemma insert_by_In {A : Type} (key : A -> Z * Z) (x y : A) (l : list A) :
  In x (insert_by key y l) <-> x = y \/ In x l.
Proof.
  induction l as [|z l IH]; simpl.
  - intuition.
  - destruct (earlier (key z) (key y)); simpl; rewrite ?IH; intuition.
Qed.

Lemma order_by_In {A : Type} (key : A -> Z * Z) (x : A) (l : list A) :
  In x (order_by key l) <-> In x l.
Proof.
  induction l as [|y l IH]; simpl; [reflexivity|].
  rewrite insert_by_In, IH. intuition.
Qed.

Lemma In_firstn {A : Type} (n : nat) (l : list A) (x : A) :
  In x (firstn n l) -> In x l.
Proof.
  revert l. induction n as [|n IH]; intros [|y l]; simpl; try tauto.
  intros [->|H]; auto.
Qed.

Lemma unique_by_id {A : Type} (id : A -> Z) (l : list A) (a b : A) :
  NoDup (map id l) -> In a l -> In b l -> id a = id b -> a = b.
Proof.
  induction l as [|x l IH]; simpl; [tauto|].
  intros Hnd Ha Hb E. inversion Hnd as [|? ? Hx Hl]; subst.
  destruct Ha as [->|Ha], Hb as [->|Hb]; auto.
  - elim Hx. rewrite E. now apply in_map.
  - elim Hx. rewrite <- E. now apply in_map.
Qed.


(** The candidates of a batch: the ready rows that share the key of the
    first ready row. *)
Lemma batch_candidates_spec (now : Z) (q : list post_job) :
  batch_candidates now q = [] /\
    (forall x, In x q -> ready now (pj_status x) (pj_next_run_at x) = false)
  \/
  exists anchor,
    In anchor (batch_candidates now q) /\
    forall x, In x (batch_candidates now q) <->
              In x q /\ ready now (pj_status x) (pj_next_run_at x) = true /\
              same_batch_key anchor x = true.
Proof.
  unfold batch_candidates.
  set (is_ready := fun j => ready now (pj_status j) (pj_next_run_at j)).
  destruct (order_by post_key (filter is_ready q)) as [|anchor rest] eqn:E.
  - left. split; [reflexivity|]. intros x Hx.
    destruct (is_ready x) eqn:Ex; [|exact Ex]. exfalso.
    assert (Hin : In x (order_by post_key (filter is_ready q))).
    { apply order_by_In, filter_In. auto. }
    rewrite E in Hin. contradiction.
  - right. exists anchor. split.
    + apply filter_In. split; [now left|].
      unfold same_batch_key. now rewrite Z.eqb_refl, !String.eqb_refl.
    + intros x. rewrite filter_In, <- E, order_by_In, filter_In.
      fold (is_ready x). tauto.
Qed.

Lemma batch_members (now n : Z) (q : list post_job) (a : post_job) :
  In a (firstn (Z.to_nat n) (batch_candidates now q)) ->
  In a q /\ ready now (pj_status a) (pj_next_run_at a) = true.
Proof.
  intros H. apply In_firstn in H.
  destruct (batch_candidates_spec now q) as [[E _]|(anchor & _ & Hspec)].
  - rewrite E in H. contradiction.
  - apply Hspec in H. tauto.
Qed.

Lemma with_post_queue_same (st : state) : with_post_queue (post_queue st) st = st.
Proof.
  destruct st; reflexivity.
Qed.

(** A loop whose body rewrites the row of its job rewrites every row of the
    queue by the row-level fold. *)
Lemma fold_marks (step : state -> post_job -> state)
    (g : post_job -> post_job -> post_job) (t : tables) :
  (forall st pj, db st = t ->
     step st pj = with_post_queue (update_post (pj_id pj) (g pj) (post_queue st)) st) ->
  forall batch st, db st = t ->
    fold_left step batch st =
      with_post_queue (map (row_updates g batch) (post_queue st)) st.
Proof.
  intros Hstep batch. induction batch as [|pj rest IH]; intros st Ht.
  - simpl. unfold row_updates. simpl. rewrite map_id. symmetry.
    apply with_post_queue_same.
  - simpl. rewrite (Hstep st pj Ht).
    rewrite IH by exact Ht. cbn [post_queue with_post_queue db run_queue apify_health].
    unfold update_post. rewrite map_map. reflexivity.
Qed.

(** With unique ids, the batch updates a row at most by the job of that
    row. *)
Lemma row_updates_unique (g : post_job -> post_job -> post_job) (batch : list post_job)
    (a j : post_job) :
  pj_id j = pj_id a ->
  (forall pj, In pj batch -> pj_id pj = pj_id a -> pj = a) ->
  (forall x, pj_id (g a x) = pj_id x) ->
  (forall x, g a (g a x) = g a x) ->
  row_updates g batch j = if in_batch batch a then g a j else j.
Proof.
  intros Hid Huniq Hkeep Hidem. unfold row_updates, in_batch.
  revert j Hid. induction batch as [|pj rest IH]; intros j Hid; [reflexivity|].
  simpl. rewrite Hid.
  destruct (pj_id a =? pj_id pj) eqn:E.
  - apply Z.eqb_eq in E.
    assert (pj = a) as -> by (apply Huniq; [now left|now symmetry]).
    rewrite Z.eqb_refl. simpl.
    rewrite IH; [|intros; apply Huniq; [now right|assumption]|now rewrite Hkeep].
    rewrite Hidem. now destruct (existsb _ rest).
  - rewrite Z.eqb_sym, E. simpl.
    apply IH; [intros; apply Huniq; [now right|assumption]|exact Hid].
Qed.

(** The queue after a claimed batch went through a loop of row updates. *)
Lemma batch_loop_rows (g : post_job -> post_job -> post_job) (now n : Z)
    (q : list post_job) :
  NoDup (map pj_id q) ->
  (forall a x, pj_id (g a x) = pj_id x) ->
  (forall a x, g a (g a x) = g a x) ->
  let batch := firstn (Z.to_nat n) (batch_candidates now q) in
  map (row_updates g batch) (claim_posts batch q) =
    map (fun a => if in_batch batch a then g a (claimed a) else a) q.
Proof.
  intros Hnd Hkeep Hidem batch. unfold claim_posts. rewrite map_map.
  apply map_ext_in. intros a Ha.
  assert (Huniq : forall pj, In pj batch -> pj_id pj = pj_id a -> pj = a).
  { intros pj Hpj E. apply (unique_by_id pj_id q); auto.
    now apply (batch_members now n q pj). }
  fold (in_batch batch a). fold (claimed a).
  destruct (in_batch batch a) eqn:Eb.
  - rewrite (row_updates_unique g batch a (claimed a)); auto. now rewrite Eb.
  - rewrite (row_updates_unique g batch a a); auto. now rewrite Eb.
Qed.

Lemma in_batch_In (batch : list post_job) (q : list post_job) (a : post_job) :
  NoDup (map pj_id q) -> In a q -> (forall b, In b batch -> In b q) ->
  in_batch batch a = true <-> In a batch.
Proof.
  intros Hnd Ha Hsub. unfold in_batch. rewrite existsb_exists. split.
  - intros (b & Hb & E). apply Z.eqb_eq in E.
    assert (b = a) as <- by (apply (unique_by_id pj_id q); auto). exact Hb.
  - intros Hb. exists a. split; [exact Hb|apply Z.eqb_refl].
Qed.


Section Paths.

Variable cfg : config.
Variable sync_post_checkpoint_batch :
  tables -> Z -> string -> string -> string -> list string ->
  tables * outcome (list string).

Lemma step_bounce (p : Z) (st : state) (pj : post_job) :
  mark_post_job_retry (pj_id pj) (pj_attempt pj) p COOLDOWN_ACTIVE st =
    with_post_queue (update_post (pj_id pj) (bounce p pj) (post_queue st)) st.
Proof. reflexivity. Qed.

Lemma step_resolution (now : Z) (batch_results : list string) (st : state)
    (pj : post_job) :
  resolve_post_job cfg now batch_results st pj =
    with_post_queue
      (update_post (pj_id pj) (resolution cfg now batch_results (db st) pj)
         (post_queue st)) st.
Proof.
  unfold resolve_post_job, resolution.
  destruct ((pj_checkpoint pj =? "d21")%string && pj_requires_d7_hot pj
            && negb (is_d7_hot (db st) (pj_subscriber_id pj) (pj_handle pj)
                       (pj_post_url pj)))%bool; [reflexivity|].
  destruct (existsb (String.eqb (pj_post_url pj)) batch_results); [reflexivity|].
  destruct (pj_attempt pj + 1 <=? Z.of_nat (List.length (RETRY_BACKOFF_MINUTES cfg)));
    reflexivity.
Qed.

Lemma step_failure (now : Z) (safe_error : string) (new_pause_until : option Z)
    (st : state) (pj : post_job) :
  fail_post_job cfg now safe_error new_pause_until st pj =
    with_post_queue
      (update_post (pj_id pj) (failure cfg now safe_error new_pause_until pj)
         (post_queue st)) st.
Proof.
  unfold fail_post_job, failure.
  destruct (pj_attempt pj + 1 <=? Z.of_nat (List.length (RETRY_BACKOFF_MINUTES cfg)));
    reflexivity.
Qed.

Lemma resolution_keeps_id now results t a x :
  pj_id (resolution cfg now results t a x) = pj_id x.
Proof.
  unfold resolution.
  repeat match goal with |- context [if ?c then _ else _] => destruct c end;
    reflexivity.
Qed.

Lemma resolution_idempotent now results t a x :
  resolution cfg now results t a (resolution cfg now results t a x)
  = resolution cfg now results t a x.
Proof.
  unfold resolution.
  repeat match goal with |- context [if ?c then _ else _] => destruct c end;
    reflexivity.
Qed.

Lemma failure_keeps_id now err pause a x :
  pj_id (failure cfg now err pause a x) = pj_id x.
Proof.
  unfold failure.
  repeat match goal with |- context [if ?c then _ else _] => destruct c end;
    reflexivity.
Qed.

Lemma failure_idempotent now err pause a x :
  failure cfg now err pause a (failure cfg now err pause a x)
  = failure cfg now err pause a x.
Proof.
  unfold failure.
  repeat match goal with |- context [if ?c then _ else _] => destruct c end;
    reflexivity.
Qed.

End Paths.


(** [fetch_next_job] either finds no ready row and changes nothing, or
    claims a ready row of the queue. *)
Lemma fetch_next_job_spec (now : Z) (st : state) :
  fetch_next_job now st = (st, None) \/
  exists job,
    In job (run_queue st) /\
    ready now (rj_status job) (rj_next_run_at job) = true /\
    fetch_next_job now st =
      (with_run_queue
         (update_run (rj_id job)
            (fun j => set_run_job running (rj_attempt j) (rj_next_run_at j)
                        (rj_last_error j) j) (run_queue st)) st,
       Some job).
Proof.
  unfold fetch_next_job.
  set (is_ready := fun j => ready now (rj_status j) (rj_next_run_at j)).
  destruct (order_by run_key (filter is_ready (run_queue st))) as [|job rest] eqn:E.
  - now left.
  - right. exists job.
    assert (Hin : In job (order_by run_key (filter is_ready (run_queue st)))).
    { rewrite E. now left. }
    apply order_by_In, filter_In in Hin. destruct Hin as [Hin Hr].
    split; [exact Hin|]. split; [exact Hr|reflexivity].
Qed.



(** A statement of [ensure_post_checkpoint_jobs] adds at most one row, at
    the end of the queue, pending and with no attempt used. *)
Lemma insert_post_job_appends (id sub : Z) (sheet handle url checkpoint : string)
    (requires_d7_hot : bool) (run_at : Z) (q : list post_job) :
  exists added,
    insert_post_job id sub sheet handle url checkpoint requires_d7_hot run_at q
      = q ++ added /\
    Forall (fun r => pj_status r = pending /\ pj_attempt r = 0 /\
                     pj_subscriber_id r = sub /\ pj_handle r = handle /\
                     pj_post_url r = url) added.
Proof.
  unfold insert_post_job.
  destruct (existsb (checkpoint_conflict sub handle url checkpoint) q).
  - exists []. split; [now rewrite app_nil_r|constructor].
  - eexists. split; [reflexivity|]. repeat constructor.
Qed.

Lemma ensure_post_checkpoint_jobs_appends (ids : Z * Z * Z) (sub : Z)
    (sheet handle url : string) (posted_at : option Z) (st : state) :
  let st' := ensure_post_checkpoint_jobs ids sub sheet handle url posted_at st in
  db st' = db st /\ run_queue st' = run_queue st /\ apify_health st' = apify_health st /\
  exists added,
    post_queue st' = post_queue st ++ added /\
    Forall (fun r => pj_status r = pending /\ pj_attempt r = 0 /\
                     pj_subscriber_id r = sub /\ pj_handle r = handle /\
                     pj_post_url r = url) added.
Proof.
  unfold ensure_post_checkpoint_jobs.
  destruct (negb (truthy url)).
  { cbv zeta. repeat split. exists []. split; [now rewrite app_nil_r|constructor]. }
  destruct posted_at as [t|].
  2:{ cbv zeta. repeat split. exists []. split; [now rewrite app_nil_r|constructor]. }
  destruct ids as [[id3 id7] id21]. cbv zeta.
  cbn [db run_queue apify_health post_queue with_post_queue].
  repeat split.
  destruct (insert_post_job_appends id3 sub sheet handle url "d3" false (t + days 3)
              (post_queue st)) as (a3 & -> & H3).
  destruct (insert_post_job_appends id7 sub sheet handle url "d7" false (t + days 7)
              (post_queue st ++ a3)) as (a7 & -> & H7).
  destruct (insert_post_job_appends id21 sub sheet handle url "d21" true (t + days 21)
              ((post_queue st ++ a3) ++ a7)) as (a21 & -> & H21).
  exists (a3 ++ a7 ++ a21). split; [now rewrite <- !app_assoc|].
  now repeat (apply Forall_app; split).
Qed.

(** The calls of one handle scrape: the store, the handle queue and the
    breaker stay; the post queue keeps its rows and may get pending rows of
    the job's subscriber and handle at its end. *)
Lemma schedule_appends (job : run_job) (calls : list scheduled) (st : state) :
  let st' := fold_left (schedule job) calls st in
  db st' = db st /\ run_queue st' = run_queue st /\ apify_health st' = apify_health st /\
  exists added,
    post_queue st' = post_queue st ++ added /\
    Forall (fun r => pj_status r = pending /\ pj_attempt r = 0 /\
                     pj_subscriber_id r = rj_subscriber_id job /\
                     pj_handle r = rj_handle job /\
                     In (pj_post_url r) (map s_post_url calls)) added.
Proof.
  revert st. induction calls as [|c calls IH]; intros st; cbn [fold_left].
  - repeat split. exists []. split; [now rewrite app_nil_r|constructor].
  - destruct (IH (schedule job st c)) as (Hd & Hr & Hh & added & Hq & Hall).
    destruct (ensure_post_checkpoint_jobs_appends (s_ids c) (rj_subscriber_id job)
                (rj_spreadsheet_id job) (rj_handle job) (s_post_url c) (s_posted_at c) st)
      as (Hd1 & Hr1 & Hh1 & added1 & Hq1 & Hall1).
    fold (schedule job st c) in Hd1, Hr1, Hh1, Hq1.
    cbv zeta. rewrite Hd, Hr, Hh, Hq, Hd1, Hr1, Hh1, Hq1. repeat split.
    exists (added1 ++ added). split; [now rewrite app_assoc|].
    apply Forall_app. split.
    + eapply Forall_impl; [|exact Hall1]. cbn. intros r (A & B & C & D & E).
      repeat split; auto.
    + eapply Forall_impl; [|exact Hall]. cbn. intros r (A & B & C & D & E).
      repeat split; auto.
Qed.

Section Rows.

Variable cfg : config.
Variable sync_post_checkpoint_batch :
  tables -> Z -> string -> string -> string -> list string ->
  tables * outcome (list string).

(** The row of a claimed job after each of the three loops over a batch. *)
Lemma bounce_claimed (p : Z) (a : post_job) :
  bounce p a (claimed a) = set_post_job retry (pj_attempt a) p (Some COOLDOWN_ACTIVE) a.
Proof. reflexivity. Qed.

Lemma resolution_claimed (now : Z) (batch_results : list string) (t : tables)
    (a : post_job) :
  resolution cfg now batch_results t a (claimed a) =
    if ((pj_checkpoint a =? "d21")%string && pj_requires_d7_hot a
        && negb (is_d7_hot t (pj_subscriber_id a) (pj_handle a) (pj_post_url a)))%bool
    then set_post_job skipped (pj_attempt a) (pj_next_run_at a) (Some D21_SKIPPED) a
    else if existsb (String.eqb (pj_post_url a)) batch_results
    then set_post_job done (pj_attempt a) (pj_next_run_at a) None a
    else if pj_attempt a + 1 <=? Z.of_nat (List.length (RETRY_BACKOFF_MINUTES cfg))
    then set_post_job retry (pj_attempt a + 1)
           (_next_retry_time cfg now (pj_attempt a + 1)) (Some POST_MISSING) a
    else set_post_job failed (pj_attempt a) (pj_next_run_at a) (Some POST_MISSING) a.
Proof.
  unfold resolution.
  repeat match goal with |- context [if ?c then _ else _] => destruct c end;
    reflexivity.
Qed.

Lemma failure_claimed (now : Z) (safe_error : string) (new_pause_until : option Z)
    (a : post_job) :
  failure cfg now safe_error new_pause_until a (claimed a) =
    if pj_attempt a + 1 <=? Z.of_nat (List.length (RETRY_BACKOFF_MINUTES cfg))
    then set_post_job retry (pj_attempt a + 1)
           (match new_pause_until with
            | Some p => Z.max p (_next_retry_time cfg now (pj_attempt a + 1))
            | None => _next_retry_time cfg now (pj_attempt a + 1)
            end) (Some (take 1000 safe_error)) a
    else set_post_job failed (pj_attempt a) (pj_next_run_at a)
           (Some (take 1000 safe_error)) a.
Proof.
  unfold failure. cbv zeta.
  destruct (pj_attempt a + 1 <=? _); [|reflexivity].
  replace (match cooling new_pause_until (_next_retry_time cfg now (pj_attempt a + 1)) with
           | Some p => p
           | None => _next_retry_time cfg now (pj_attempt a + 1)
           end)
    with (match new_pause_until with
          | Some p => Z.max p (_next_retry_time cfg now (pj_attempt a + 1))
          | None => _next_retry_time cfg now (pj_attempt a + 1)
          end); [reflexivity|].
  unfold cooling. destruct new_pause_until as [p|]; [|reflexivity].
  destruct (_ <? p) eqn:E; [apply Z.ltb_lt in E|apply Z.ltb_ge in E]; lia.
Qed.


(** A turn that claims a batch outside a cooldown, when the scrape
    returns. *)
Lemma claimed_batch_returned (clk : clock) (pause : option Z) (now n : Z) (st : state)
    (anchor : post_job) (rest : list post_job) (t : tables) (batch_results : list string) :
  NoDup (map pj_id (post_queue st)) ->
  cooling pause (at_check clk) = None ->
  snd (fetch_next_post_job_batch now n st) = anchor :: rest ->
  sync_post_checkpoint_batch (db st) (pj_subscriber_id anchor) (pj_spreadsheet_id anchor)
    (pj_handle anchor) (pj_checkpoint anchor) (map pj_post_url (anchor :: rest))
    = (t, Returned batch_results) ->
  run_post_batch cfg sync_post_checkpoint_batch clk pause (anchor :: rest)
    (fst (fetch_next_post_job_batch now n st)) =
  {| db := t; run_queue := run_queue st;
     post_queue :=
       map (fun a => if in_batch (anchor :: rest) a
                     then resolution cfg (at_done clk) batch_results t a (claimed a)
                     else a) (post_queue st);
     apify_health :=
       {| consecutive_failures := 0; pause_until := None; last_error := None |} |}.
Proof.
  intros Hnd Ec Hb Hs. unfold fetch_next_post_job_batch in *. cbn [fst snd] in *.
  rewrite Hb.
  set (st1 := with_post_queue (claim_posts (anchor :: rest) (post_queue st)) st).
  unfold run_post_batch. rewrite Ec.
  change (db st1) with (db st). rewrite Hs.
  set (st3 := record_apify_success (with_db t st1)).
  assert (Hstep : forall s pj, db s = t ->
    resolve_post_job cfg (at_done clk) batch_results s pj =
    with_post_queue
      (update_post (pj_id pj) (resolution cfg (at_done clk) batch_results t pj)
         (post_queue s)) s).
  { intros s pj <-. apply step_resolution. }
  rewrite (fold_marks _ _ t Hstep (anchor :: rest) st3 eq_refl).
  subst st3 st1. unfold with_post_queue, record_apify_success, with_health, with_db.
  cbn [post_queue run_queue db apify_health]. f_equal.
  rewrite <- Hb. apply (batch_loop_rows _ now n (post_queue st) Hnd).
  - intros. apply resolution_keeps_id.
  - intros. apply resolution_idempotent.
Qed.

(** A turn that claims a batch outside a cooldown, when the scrape
    raises. *)
Lemma claimed_batch_raised (clk : clock) (pause : option Z) (now n : Z) (st : state)
    (anchor : post_job) (rest : list post_job) (t : tables) (safe_error : string) :
  NoDup (map pj_id (post_queue st)) ->
  cooling pause (at_check clk) = None ->
  snd (fetch_next_post_job_batch now n st) = anchor :: rest ->
  sync_post_checkpoint_batch (db st) (pj_subscriber_id anchor) (pj_spreadsheet_id anchor)
    (pj_handle anchor) (pj_checkpoint anchor) (map pj_post_url (anchor :: rest))
    = (t, Raised safe_error) ->
  let recorded :=
    record_apify_failure (at_done clk) safe_error (APIFY_COOLDOWN_TRIGGER_FAILURES cfg)
      (APIFY_COOLDOWN_HOURS cfg) st in
  let st' :=
    run_post_batch cfg sync_post_checkpoint_batch clk pause (anchor :: rest)
      (fst (fetch_next_post_job_batch now n st)) in
  db st' = t /\ run_queue st' = run_queue st /\
  apify_health st' = apify_health (fst recorded) /\
  post_queue st' =
    map (fun a => if in_batch (anchor :: rest) a
                  then failure cfg (at_done clk) safe_error (snd (snd recorded)) a
                         (claimed a)
                  else a) (post_queue st).
Proof.
  intros Hnd Ec Hb Hs recorded st'. subst st' recorded.
  unfold fetch_next_post_job_batch in *. cbn [fst snd] in *.
  rewrite Hb.
  set (st1 := with_post_queue (claim_posts (anchor :: rest) (post_queue st)) st).
  unfold run_post_batch. rewrite Ec.
  change (db st1) with (db st). rewrite Hs.
  unfold record_apify_failure.
  change (apify_health (with_db t st1)) with (apify_health st).
  destruct (Z.max 1 (APIFY_COOLDOWN_TRIGGER_FAILURES cfg) <=? _); cbn [fst snd];
    match goal with
    | |- context [fold_left (fail_post_job cfg ?now ?err ?np) _ ?s] =>
        rewrite (fold_marks _ (failure cfg now err np) (db s)
                   (fun s' pj _ => step_failure cfg now err np s' pj)
                   (anchor :: rest) s eq_refl)
    end;
    subst st1; cbn [post_queue with_post_queue run_queue db apify_health with_health
                      with_db];
    (repeat split);
    rewrite <- Hb; apply (batch_loop_rows _ now n (post_queue st) Hnd);
    intros; (apply failure_keeps_id || apply failure_idempotent).
Qed.

End Rows.

End WorkerFacts.

(* ------------------------------------------------------------------ *)
(** ** Cooldown, batches and the D21 gate in the worker loop *)

Module WorkerSpec.
Import Py Classifier Store Lifecycle Queue Enqueue Worker TableFacts WorkerFacts.

Section Turn.

Variable cfg : config.
Variable sync_handle : tables -> run_job -> tables * list scheduled * outcome unit.
Variable sync_post_checkpoint_batch :
  tables -> Z -> string -> string -> string -> list string ->
  tables * outcome (list string).


End Turn.





Lemma signal_key_other (sub sub' : Z) (handle handle' url url' : string) (r : signal) :
  ~ (sub' = sub /\ handle' = handle /\ url' = url) ->
  signal_key sub' handle' url' r = true -> signal_key sub handle url r = false.
Proof.
  unfold signal_key. intros Hne H.
  apply andb_true_iff in H. destruct H as [H Hu].
  apply andb_true_iff in H. destruct H as [Hs Hh].
  apply Z.eqb_eq in Hs. apply String.eqb_eq in Hh. apply String.eqb_eq in Hu.
  destruct (sig_subscriber_id r =? sub) eqn:E1; [|reflexivity].
  destruct (sig_handle r =? handle)%string eqn:E2; [|reflexivity].
  destruct (sig_post_url r =? url)%string eqn:E3; [|reflexivity].
  apply Z.eqb_eq in E1. apply String.eqb_eq in E2. apply String.eqb_eq in E3.
  elim Hne. repeat split; congruence.
Qed.

(** Writing the signal of one post leaves the signal of every other post as
    it is. *)
Lemma upsert_post_signal_other (t : tables) (sub sub' : Z) (handle handle' url url' : string)
    (media_type : option string) (posted_at : option Z) (caption : option string)
    (tag stage percentile : option string) :
  ~ (sub' = sub /\ handle' = handle /\ url' = url) ->
  find (signal_key sub handle url)
    (post_signals (upsert_post_signal t sub' handle' url' media_type posted_at caption
                     tag stage percentile))
  = find (signal_key sub handle url) (post_signals t).
Proof.
  intros Hne. unfold upsert_post_signal. cbn [post_signals].
  assert (Hfresh : forall old,
    signal_key sub handle url
      {| sig_subscriber_id := sub'; sig_handle := handle'; sig_post_url := url';
         sig_media_type := media_type; sig_posted_at := coalesce posted_at old;
         sig_caption := caption; sig_velocity_tag := tag; sig_velocity_stage := stage;
         sig_velocity_percentile := percentile |} = false).
  { intros old. apply (signal_key_other sub sub' handle handle' url url' _ Hne).
    unfold signal_key. cbn. now rewrite Z.eqb_refl, !String.eqb_refl. }
  destruct (existsb (signal_key sub' handle' url') (post_signals t)).
  - apply find_map_other. intros r Hr. split; [|apply Hfresh].
    now apply (signal_key_other sub sub' handle handle' url url' r Hne).
  - apply find_app_other, Hfresh.
Qed.

Lemma set_velocity_url (a b c : string) (n : norm) :
  n_post_url (set_velocity a b c n) = n_post_url n.
Proof. reflexivity. Qed.

(** So does the classification of another post. *)
Lemma apply_velocity_other_post (t : tables) (now sub sub' : Z) (handle handle' url : string)
    (it : item) (n : norm) (forced_checkpoint : option string) :
  ~ (sub' = sub /\ handle' = handle /\ n_post_url n = url) ->
  find (signal_key sub handle url)
    (post_signals (fst (_apply_velocity t now sub' handle' it n forced_checkpoint)))
  = find (signal_key sub handle url) (post_signals t).
Proof.
  intros Hne. unfold _apply_velocity.
  destruct (item_posted_at it) as [posted_at|]; [|reflexivity].
  unfold apply_velocity_at. cbv zeta. rewrite !set_velocity_url.
  match goal with
  | |- context [if (?c =? "d21")%string then _ else None] =>
      destruct (c =? "d21")%string
  end.
  - destruct (get_snapshots t sub' handle' (n_post_url n)) as [snap|] eqn:Eg.
    + destruct (negb (_is_high_tag _)).
      * destruct (_velocity_from_snapshots t sub' handle' snap it "d7") as [pct full].
        cbn [fst]. unfold upsert_checkpoint_metric. cbn [post_signals].
        now apply upsert_post_signal_other.
      * match goal with
        | |- context [get_snapshots ?db sub' handle' (n_post_url n)] =>
            destruct (get_snapshots db sub' handle' (n_post_url n)) as [snap'|] eqn:Eg'
        end; [|reflexivity].
        match goal with
        | |- context [_velocity_from_snapshots ?db sub' handle' snap' it ?c] =>
            destruct (_velocity_from_snapshots db sub' handle' snap' it c) as [pct tag]
        end.
        cbn [fst]. unfold upsert_checkpoint_metric. cbn [post_signals].
        rewrite upsert_post_signal_other by exact Hne. reflexivity.
    + match goal with
      | |- context [get_snapshots ?db sub' handle' (n_post_url n)] =>
          destruct (get_snapshots db sub' handle' (n_post_url n)) as [snap'|] eqn:Eg'
      end; [|reflexivity].
      match goal with
      | |- context [_velocity_from_snapshots ?db sub' handle' snap' it ?c] =>
          destruct (_velocity_from_snapshots db sub' handle' snap' it c) as [pct tag]
      end.
      cbn [fst]. unfold upsert_checkpoint_metric. cbn [post_signals].
      rewrite upsert_post_signal_other by exact Hne. reflexivity.
  - match goal with
    | |- context [get_snapshots ?db sub' handle' (n_post_url n)] =>
        destruct (get_snapshots db sub' handle' (n_post_url n)) as [snap'|] eqn:Eg'
    end; [|reflexivity].
    match goal with
    | |- context [_velocity_from_snapshots ?db sub' handle' snap' it ?c] =>
        destruct (_velocity_from_snapshots db sub' handle' snap' it c) as [pct tag]
    end.
    cbn [fst]. unfold upsert_checkpoint_metric. cbn [post_signals].
    rewrite upsert_post_signal_other by exact Hne. reflexivity.
Qed.

(** After [upsert_post_signal] the signal of the post holds the tag, stage
    and percentile just written. *)
Lemma upsert_post_signal_find (t : tables) (sub : Z) (handle url : string)
    (media_type : option string) (posted_at : option Z) (caption : option string)
    (tag stage percentile : option string) :
  exists row,
    find (signal_key sub handle url)
      (post_signals (upsert_post_signal t sub handle url media_type posted_at caption
                       tag stage percentile)) = Some row /\
    sig_velocity_tag row = tag /\ sig_velocity_stage row = stage /\
    sig_velocity_percentile row = percentile.
Proof.
  unfold upsert_post_signal. cbn [post_signals].
  set (key := signal_key sub handle url).
  set (fresh := fun old : option Z =>
    {| sig_subscriber_id := sub; sig_handle := handle; sig_post_url := url;
       sig_media_type := media_type; sig_posted_at := coalesce posted_at old;
       sig_caption := caption; sig_velocity_tag := tag; sig_velocity_stage := stage;
       sig_velocity_percentile := percentile |}).
  assert (Hk : forall old, key (fresh old) = true).
  { intros old. unfold key, signal_key, fresh. cbn.
    now rewrite Z.eqb_refl, !String.eqb_refl. }
  destruct (existsb key (post_signals t)) eqn:E.
  - destruct (TableFacts.existsb_find _ _ E) as (r & Hr & _).
    pose proof (TableFacts.find_map_update key (fun r => fresh (sig_posted_at r))
                  (post_signals t) (fun r _ => Hk (sig_posted_at r))) as Hf.
    rewrite Hr in Hf. cbn [option_map] in Hf.
    exists (fresh (sig_posted_at r)). split; [exact Hf|]. auto.
  - exists (fresh None). split; [|auto].
    apply TableFacts.find_app_new; [exact E|apply Hk].
Qed.

(** A tag that is not hot, or the default check tag, keeps [is_d7_hot]
    false. *)
Lemma not_hot_signal (d7_tag : option string) :
  _is_high_tag d7_tag = false ->
  let tag := or_else (Some (or_else d7_tag TAG_CHECK)) "" in
  (contains TAG_FIRE tag || contains TAG_ROCKET tag)%bool = false.
Proof.
  intros H. destruct d7_tag as [s|]; [|reflexivity].
  destruct s as [|c s]; [reflexivity|]. exact H.
Qed.


Section Gate.

Variable cfg : config.
Variable sync_post_checkpoint_batch :
  tables -> Z -> string -> string -> string -> list string ->
  tables * outcome (list string).

(** C1, as the code has it. When [_apply_velocity] runs for a d21 job on an
    item with a posting time, for a post that has a snapshot row whose D7
    tag, re-evaluated from the snapshots, is not hot: no snapshot column is
    written; the signal of the post is rewritten with the D7 tag (the check
    tag when there is none), the stage D7 and the D7 percentile; and the
    classification of any other post leaves that signal as it is.  The
    worker applies the gate after the batch scrape, to every job of the
    batch: when the scrape returns and the signal of the post is still the
    one just written, the d21 job of the post, wherever it stands in the
    batch, is marked skipped with the reason of the gate and keeps its
    attempt count and retry time; when the scrape raises, the job is retried
    with one more attempt or, with the backoff list used up, failed. *)
Theorem d21_gate_skips (t : tables) (now posted_at sub : Z)
    (handle : string) (it : item) (n : norm) (snap : snapshot) :
  item_posted_at it = Some posted_at ->
  get_snapshots t sub handle (n_post_url n) = Some snap ->
  let d7_tag :=
    _velocity_tag_for_checkpoint t sub handle (cohort_media_type snap it) snap it "d7" in
  let d7_percentile := fst (_velocity_from_snapshots t sub handle snap it "d7") in
  _is_high_tag d7_tag = false ->
  let t' := fst (_apply_velocity t now sub handle it n (Some "d21"%string)) in
  let own := signal_key sub handle (n_post_url n) in
  post_snapshots t' = post_snapshots t /\
  (exists row,
     find own (post_signals t') = Some row /\
     sig_velocity_tag row = Some (or_else d7_tag TAG_CHECK) /\
     sig_velocity_stage row = Some "D7"%string /\
     sig_velocity_percentile row = Some (or_else d7_percentile "")) /\
  (forall t1 now1 sub1 handle1 it1 n1 checkpoint1,
     ~ (sub1 = sub /\ handle1 = handle /\ n_post_url n1 = n_post_url n) ->
     find own
       (post_signals (fst (_apply_velocity t1 now1 sub1 handle1 it1 n1 checkpoint1)))
     = find own (post_signals t1)) /\
  (forall clk pause st anchor rest pj scraped res,
     NoDup (map pj_id (post_queue st)) ->
     cooling pause (at_check clk) = None ->
     snd (fetch_next_post_job_batch (at_post_claim clk) 10 st) = anchor :: rest ->
     In pj (anchor :: rest) ->
     pj_subscriber_id pj = sub -> pj_handle pj = handle ->
     pj_post_url pj = n_post_url n ->
     pj_checkpoint pj = "d21"%string -> pj_requires_d7_hot pj = true ->
     sync_post_checkpoint_batch (db st) (pj_subscriber_id anchor)
       (pj_spreadsheet_id anchor) (pj_handle anchor) (pj_checkpoint anchor)
       (map pj_post_url (anchor :: rest)) = (scraped, res) ->
     let st' :=
       run_post_batch cfg sync_post_checkpoint_batch clk pause (anchor :: rest)
         (fst (fetch_next_post_job_batch (at_post_claim clk) 10 st)) in
     match res with
     | Returned batch_results =>
         find own (post_signals scraped) = find own (post_signals t') ->
         In (set_post_job skipped (pj_attempt pj) (pj_next_run_at pj)
               (Some D21_SKIPPED) pj) (post_queue st')
     | Raised safe_error =>
         exists row,
           In row (post_queue st') /\ pj_id row = pj_id pj /\
           pj_last_error row = Some (take 1000 safe_error) /\
           if pj_attempt pj + 1 <=? Z.of_nat (List.length (RETRY_BACKOFF_MINUTES cfg))
           then pj_status row = retry /\ pj_attempt row = pj_attempt pj + 1
           else pj_status row = failed /\ pj_attempt row = pj_attempt pj
     end).
Proof.
  intros Hposted Hget d7_tag d7_percentile Hcold t' own.
  pose proof (PoolFacts.emitted_d7_tag t sub handle snap it) as Hfull.
  cbv zeta in Hfull. fold d7_tag in Hfull. rewrite Hcold, andb_false_r in Hfull.
  assert (Ht' : exists stage_n,
    t' = upsert_checkpoint_metric
           (upsert_post_signal t sub handle (n_post_url n) (Some (n_media_type n))
              (Some posted_at) (Some (n_caption n))
              (Some (or_else d7_tag TAG_CHECK)) (Some "D7"%string)
              (Some (or_else d7_percentile "")))
           now sub handle (n_post_url n) "d7" "D7"
           (t_views (snap_d7 snap)) (t_likes (snap_d7 snap)) (t_comments (snap_d7 snap))
           (_metric_for_checkpoint snap it "d7")
           stage_n
           (Some (or_else d7_tag TAG_CHECK)) (Some (or_else d7_percentile ""))).
  { subst t'. unfold _apply_velocity. rewrite Hposted. unfold apply_velocity_at.
    cbv zeta. change (truthy "d21") with true. cbv iota.
    change ("d21" =? "d21")%string with true. cbv iota.
    cbn [n_post_url set_velocity]. rewrite Hget. fold d7_tag. rewrite Hcold.
    cbn [negb]. cbv iota beta.
    unfold d7_percentile.
    destruct (_velocity_from_snapshots t sub handle snap it "d7") as [pct full].
    cbn [fst snd] in *. subst full.
    assert (Etag : (if truthy (or_else d7_tag "") then or_else d7_tag ""
                    else or_else d7_tag TAG_CHECK) = or_else d7_tag TAG_CHECK).
    { destruct d7_tag as [[|c s]|]; reflexivity. }
    rewrite Etag. unfold shown.
    destruct (or_else d7_tag TAG_CHECK =? INSUFFICIENT_DATA)%string;
      cbn [fst n_media_type n_caption set_velocity]; eexists; reflexivity. }
  destruct Ht' as [stage_n Ht'].
  assert (Hsig : exists row,
     find own (post_signals t') = Some row /\
     sig_velocity_tag row = Some (or_else d7_tag TAG_CHECK) /\
     sig_velocity_stage row = Some "D7"%string /\
     sig_velocity_percentile row = Some (or_else d7_percentile "")).
  { rewrite Ht'. unfold upsert_checkpoint_metric. cbn [post_signals].
    apply upsert_post_signal_find. }
  split; [rewrite Ht'; reflexivity|]. split; [exact Hsig|].
  split; [intros; now apply apply_velocity_other_post|].
  intros clk pause st anchor rest pj scraped res Hnd Ec Hb Hin Hs Hh Hu Hc Hr Hsync st'.
  assert (Hmem : forall a, In a (anchor :: rest) -> In a (post_queue st)).
  { intros a Ha. rewrite <- Hb in Ha. now apply batch_members in Ha. }
  assert (Ein : in_batch (anchor :: rest) pj = true).
  { apply (in_batch_In (anchor :: rest) (post_queue st) pj Hnd (Hmem pj Hin) Hmem).
    exact Hin. }
  destruct res as [safe_error|batch_results].
  - destruct (claimed_batch_raised cfg sync_post_checkpoint_batch clk pause
                (at_post_claim clk) 10 st anchor rest scraped safe_error Hnd Ec Hb Hsync)
      as (_ & _ & _ & Hq).
    fold st' in Hq.
    eexists. split.
    { rewrite Hq. apply in_map_iff. exists pj. split; [|exact (Hmem pj Hin)].
      rewrite Ein. reflexivity. }
    rewrite failure_claimed.
    destruct (pj_attempt pj + 1 <=? _); repeat split.
  - intros Hsame.
    assert (Hhot : is_d7_hot scraped sub handle (n_post_url n) = false).
    { unfold is_d7_hot. fold own. rewrite Hsame.
      destruct Hsig as (row & -> & Htag & _). rewrite Htag.
      now apply not_hot_signal. }
    subst st'.
    rewrite (claimed_batch_returned cfg sync_post_checkpoint_batch clk pause
               (at_post_claim clk) 10 st anchor rest scraped batch_results Hnd Ec Hb Hsync).
    cbn [post_queue]. apply in_map_iff. exists pj. split; [|exact (Hmem pj Hin)].
    rewrite Ein, resolution_claimed, Hc, Hr, Hs, Hh, Hu, Hhot. reflexivity.
Qed.

End Gate.

(** Scenario of the specification: the weakest post of the day-7 cohort
    carries the sleeping tag; no snapshot column is written, its signal is
    set to that tag, and the worker turn that scrapes the post marks its d21
    job skipped. *)
Lemma d21_gate_skips_witness :
  let it := Sample.video_item in
  let n := Sample.weakest_norm in
  let t' := fst (_apply_velocity Sample.cohort_d7 30 1 "h" it n (Some "d21"%string)) in
  let pj := Sample.post_job_of 1 "1" "d21" 6 in
  item_posted_at it = Some 0 /\
  get_snapshots Sample.cohort_d7 1 "h" "1" = Some Sample.weakest_post /\
  _velocity_tag_for_checkpoint Sample.cohort_d7 1 "h"
    (cohort_media_type Sample.weakest_post it) Sample.weakest_post it "d7"
    = Some TAG_SLEEP /\
  post_snapshots t' = post_snapshots Sample.cohort_d7 /\
  map sig_velocity_tag (post_signals t') = [Some TAG_SLEEP] /\
  snd (fetch_next_post_job_batch 10 10 Sample.due_d21) = [pj] /\
  In (set_post_job skipped 6 0 (Some D21_SKIPPED) pj)
     (post_queue (worker_turn Sample.defaults Sample.scrape_ok Sample.batch_classifies
                    Sample.noon Sample.due_d21)).
Proof.
  intros it n t' pj.
  split; [reflexivity|]. split; [reflexivity|]. split; [vm_compute; reflexivity|].
  destruct (d21_gate_skips Sample.defaults Sample.batch_classifies Sample.cohort_d7 30 0 1
              "h" it n Sample.weakest_post eq_refl eq_refl) as (Hsnap & _ & _ & Hworker).
  - vm_compute. reflexivity.
  - split; [exact Hsnap|]. split; [vm_compute; reflexivity|]. split; [reflexivity|].
    assert (Hnd : NoDup (map pj_id (post_queue Sample.due_d21))).
    { repeat constructor. intros []. }
    exact (Hworker Sample.noon None Sample.due_d21 pj [] pj t' (Returned ["1"%string])
             Hnd eq_refl eq_refl (or_introl eq_refl) eq_refl eq_refl eq_refl eq_refl
             eq_refl eq_refl eq_refl).
Defined.

(** C1, as stated, fails: the gate is applied after the batch scrape, so
    when the scrape raises and the attempts are used up, the d21 job of a
    post whose D7 tag is the sleeping tag ends failed, not skipped. *)
Lemma d21_job_fails_when_scrape_fails :
  _velocity_tag_for_checkpoint (db Sample.due_d21) 1 "h"
    (cohort_media_type Sample.weakest_post Sample.video_item)
    Sample.weakest_post Sample.video_item "d7" = Some TAG_SLEEP /\
  _is_high_tag (Some TAG_SLEEP) = false /\
  map pj_checkpoint (post_queue Sample.due_d21) = ["d21"%string] /\
  map pj_status
    (post_queue (worker_turn Sample.defaults Sample.scrape_ok Sample.batch_times_out
                   Sample.noon Sample.due_d21)) = [failed].
Proof.
  split; [vm_compute; reflexivity|]. split; [reflexivity|].
  split; [reflexivity|]. vm_compute. reflexivity.
Qed.

End WorkerSpec.

(* ------------------------------------------------------------------ *)
(** ** Column names, header alignment, stage and tag repair *)

Module SheetFacts.
Import Py PyFacts Classifier Store Lifecycle Sheet.

Lemma string_app_assoc (a b c : string) : ((a ++ b) ++ c = a ++ (b ++ c))%string.
Proof.
  induction a as [|x a IH]; simpl; [reflexivity|now rewrite IH].
Qed.

Lemma col_number_from_app (acc : Z) (s t : string) :
  col_number_from acc (s ++ t) = col_number_from (col_number_from acc s) t.
Proof.
  revert acc. induction s as [|c s IH]; intros acc; simpl; [reflexivity|apply IH].
Qed.

Lemma all_chars_app (f : ascii -> bool) (s t : string) :
  all_chars f (s ++ t) = (all_chars f s && all_chars f t)%bool.
Proof.
  induction s as [|c s IH]; simpl; [reflexivity|].
  now rewrite IH, andb_assoc.
Qed.

Lemma col_letter_loop_app (fuel : nat) (n : Z) (result : string) :
  col_letter_loop fuel n result = (col_letter_loop fuel n "" ++ result)%string.
Proof.
  revert n result. induction fuel as [|fuel IH]; intros n result;
    cbn [col_letter_loop]; [reflexivity|].
  destruct (0 <? n); [|reflexivity].
  rewrite IH. rewrite (IH _ (String _ "")). now rewrite string_app_assoc.
Qed.

Lemma col_letter_loop_spec (fuel : nat) (n : Z) :
  0 <= n -> (Z.to_nat n <= fuel)%nat ->
  col_number (col_letter_loop fuel n "") = n /\
  all_chars is_capital (col_letter_loop fuel n "") = true /\
  (col_letter_loop fuel n "" = ""%string <-> n = 0).
Proof.
  revert n. induction fuel as [|fuel IH]; intros n Hn Hf.
  - assert (n = 0) as -> by lia. repeat split; reflexivity.
  - cbn [col_letter_loop]. destruct (0 <? n) eqn:E.
    + apply Z.ltb_lt in E.
      pose proof (Z.div_mod (n - 1) 26 ltac:(lia)) as Hdm.
      pose proof (Z.mod_pos_bound (n - 1) 26 ltac:(lia)) as Hrem.
      assert (Hq : 0 <= (n - 1) / 26) by (apply Z.div_pos; lia).
      assert (Hqn : (n - 1) / 26 < n) by (apply Z.div_lt_upper_bound; lia).
      destruct (IH ((n - 1) / 26) Hq ltac:(lia)) as (Hnum & Hcap & _).
      rewrite col_letter_loop_app.
      set (q := (n - 1) / 26) in *. set (r := (n - 1) mod 26) in *.
      set (c := ascii_of_nat (65 + Z.to_nat r)).
      assert (Hcode : nat_of_ascii c = (65 + Z.to_nat r)%nat).
      { apply nat_ascii_embedding. lia. }
      split; [|split].
      * unfold col_number in *. rewrite col_number_from_app, Hnum.
        cbn [col_number_from]. rewrite Hcode. lia.
      * rewrite all_chars_app, Hcap. cbn [all_chars andb]. unfold is_capital.
        rewrite Hcode. rewrite andb_true_r.
        apply andb_true_iff. split; apply Nat.leb_le; lia.
      * split; [|lia]. intros H.
        destruct (col_letter_loop fuel q ""); discriminate H.
    + apply Z.ltb_ge in E. assert (n = 0) as -> by lia. repeat split; reflexivity.
Qed.

Lemma col_letter_loop_fuel (f1 f2 : nat) (n : Z) :
  0 <= n -> (Z.to_nat n <= f1)%nat -> (Z.to_nat n <= f2)%nat ->
  col_letter_loop f1 n "" = col_letter_loop f2 n "".
Proof.
  revert f2 n. induction f1 as [|f1 IH]; intros f2 n Hn H1 H2.
  - assert (n = 0) as -> by lia. destruct f2; reflexivity.
  - destruct f2 as [|f2].
    + assert (n = 0) as -> by lia. reflexivity.
    + cbn [col_letter_loop]. destruct (0 <? n) eqn:E; [|reflexivity].
      apply Z.ltb_lt in E.
      assert (Hq : 0 <= (n - 1) / 26) by (apply Z.div_pos; lia).
      assert (Hqn : (n - 1) / 26 < n) by (apply Z.div_lt_upper_bound; lia).
      rewrite col_letter_loop_app, (col_letter_loop_app f2). f_equal.
      apply IH; lia.
Qed.

(** X1. [_col_letter] names columns in bijective base 26: the name of a
    non-negative number reads back as that number, is made of capital
    letters only, is empty for 0 alone, and the loop needs no more turns than
    the model gives it. *)
Theorem col_letter_round_trip (n : Z) :
  0 <= n ->
  col_number (_col_letter n) = n /\
  all_chars is_capital (_col_letter n) = true /\
  (_col_letter n = ""%string <-> n = 0) /\
  (forall fuel, (Z.to_nat n <= fuel)%nat -> col_letter_loop fuel n "" = _col_letter n).
Proof.
  intros Hn. unfold _col_letter.
  destruct (col_letter_loop_spec (Z.to_nat n) n Hn (Nat.le_refl _)) as (A & B & C).
  split; [exact A|]. split; [exact B|]. split; [exact C|].
  intros fuel Hf. apply col_letter_loop_fuel; lia.
Qed.

Lemma col_letter_round_trip_witness :
  0 <= 703 /\ _col_letter 703 = "AAA"%string /\ col_number (_col_letter 703) = 703.
Proof.
  split; [lia|]. split; [reflexivity|].
  apply (col_letter_round_trip 703). lia.
Defined.

(** X2. [_align_schema] returns the header as it is and one description per
    header column: the given description where there is one, the empty string
    where the descriptions run out; surplus descriptions are dropped. *)
Theorem align_schema_pointwise (header descriptions : list string) :
  fst (_align_schema header descriptions) = header /\
  List.length (snd (_align_schema header descriptions)) = List.length header /\
  (forall i, (i < List.length header)%nat ->
     nth_error (snd (_align_schema header descriptions)) i
     = Some (nth i descriptions ""%string)).
Proof.
  unfold _align_schema.
  destruct (Nat.eqb_spec (List.length descriptions) (List.length header)) as [E|E].
  - cbn. repeat split; auto. intros i Hi.
    apply nth_error_nth'. lia.
  - destruct (Nat.ltb_spec (List.length descriptions) (List.length header)) as [L|L]; cbn.
    + split; [reflexivity|]. split.
      * rewrite length_app, repeat_length. lia.
      * intros i Hi. rewrite nth_error_app.
        destruct (Nat.ltb_spec i (List.length descriptions)) as [Li|Li].
        -- now apply nth_error_nth'.
        -- rewrite nth_error_repeat by lia. now rewrite nth_overflow.
    + split; [reflexivity|]. split.
      * rewrite length_firstn. lia.
      * intros i Hi. rewrite nth_error_firstn.
        destruct (Nat.ltb_spec i (List.length header)) as [Li|Li]; [|lia].
        apply nth_error_nth'. lia.
Qed.

Lemma align_schema_pointwise_witness :
  let header := ["post_url"%string; "views"%string; "likes"%string] in
  (1 < List.length header)%nat /\
  nth_error (snd (_align_schema header ["link"%string])) 1 = Some ""%string.
Proof.
  intros header. split; [simpl; lia|].
  apply (align_schema_pointwise header ["link"%string]).
  simpl; lia.
Defined.

(** X3. [_canonical_stage] keeps every label that [_stage_label] emits, for
    a tag without the eyes literal. *)
Theorem canonical_stage_of_stage_label (checkpoint : string) (age_hours : Q)
    (tag : option string) :
  contains TAG_EYES (strip (or_else tag "")) = false ->
  _canonical_stage (Some (_stage_label checkpoint age_hours)) tag
  = _stage_label checkpoint age_hours.
Proof.
  intros Heyes. unfold _canonical_stage. rewrite Heyes.
  unfold _stage_label.
  destruct (checkpoint =? "d1")%string; [destruct (lt age_hours 24); reflexivity|].
  destruct (checkpoint =? "d3")%string; [reflexivity|].
  destruct (checkpoint =? "d7")%string; [reflexivity|].
  destruct (checkpoint =? "d21")%string; reflexivity.
Qed.

Lemma canonical_stage_of_stage_label_witness :
  contains TAG_EYES (strip (or_else (Some TAG_FIRE) "")) = false /\
  _canonical_stage (Some (_stage_label "d1" 30)) (Some TAG_FIRE) = "D2"%string.
Proof.
  split; [reflexivity|].
  apply (canonical_stage_of_stage_label "d1" 30 (Some TAG_FIRE)). reflexivity.
Defined.

Lemma digits_then_percent_uint (seen : bool) (d : Decimal.uint) :
  digits_then_percent seen (NilEmpty.string_of_uint d ++ "%") =
    match d with
    | Decimal.Nil => seen
    | _ => true
    end.
Proof.
  revert seen. induction d; intros seen; try reflexivity;
    cbn [NilEmpty.string_of_uint append digits_then_percent];
    (replace (is_digit _) with true by reflexivity); rewrite IHd; now destruct d.
Qed.

Lemma digits_then_percent_string (p : Z) :
  0 <= p -> digits_then_percent false (percent_string p) = true.
Proof.
  intros Hp. unfold percent_string, str_of_int.
  destruct p as [|q|q]; [reflexivity| |lia].
  cbn [Z.to_int NilZero.string_of_int]. unfold NilZero.string_of_uint.
  pose proof (Unsigned.to_uint_nonnil q) as Hnn.
  destruct (Pos.to_uint q) eqn:E; [congruence| | | | | | | | | |];
    rewrite digits_then_percent_uint; reflexivity.
Qed.

(** X4. The SQL rewrite of [repair_velocity] draws for every percentile
    ["p%"] with p from 0 to [INT4_MAX] the tag that [_velocity_tag] gives it,
    and raises beyond; a row without a percentile gets an empty tag, where
    [_velocity_tag] gives the check tag. *)
Theorem repair_tag_agrees_with_velocity_tag (p : Z) :
  0 <= p ->
  repair_tag (Some (percent_string p)) =
    (if p <=? INT4_MAX then Some (_velocity_tag (Some (percent_string p))) else None) /\
  repair_tag None = Some ""%string /\
  repair_tag (Some ""%string) = Some ""%string /\
  _velocity_tag None = TAG_CHECK.
Proof.
  intros Hp. split; [|repeat split].
  unfold repair_tag, _velocity_tag, tag_of_band.
  rewrite (digits_then_percent_string p Hp), TagSpec.percent_string_truthy,
    TagSpec.parse_percent_string.
  destruct (p <=? INT4_MAX); [|reflexivity].
  destruct (p <=? 5); [reflexivity|].
  destruct (p <=? 15); [reflexivity|].
  destruct (p <=? 35) eqn:E; [reflexivity|].
  apply Z.leb_gt in E. apply Z.ltb_lt in E. now rewrite E.
Qed.

Lemma repair_tag_agrees_with_velocity_tag_witness :
  0 <= 11 /\ repair_tag (Some (percent_string 11)) = Some TAG_FIRE.
Proof.
  split; [lia|].
  destruct (repair_tag_agrees_with_velocity_tag 11 ltac:(lia)) as [H _].
  rewrite H. reflexivity.
Defined.

Lemma repair_tag_vocabulary (percentile : option string) (tag : string) :
  repair_tag percentile = Some tag ->
  In tag [""%string; TAG_ROCKET; TAG_FIRE; TAG_CHECK; TAG_SLEEP].
Proof.
  unfold repair_tag, tag_of_band.
  destruct (digits_then_percent _ _); [|intros [= <-]; simpl; tauto].
  destruct (int_of_str _) as [n|]; [|discriminate].
  destruct (n <=? INT4_MAX); [|discriminate].
  intros [= <-].
  destruct (n <=? 5); [simpl; tauto|].
  destruct (n <=? 15); [simpl; tauto|].
  destruct (n <=? 35); simpl; tauto.
Qed.

Lemma repair_stage_labels (now : Z) (posted_at : option Z) (stage : option string) :
  let s1 := repair_stage now posted_at stage in
  s1 = "D3"%string \/ s1 = "D7"%string \/ s1 = "D21"%string \/
  (s1 = "D1"%string /\ posted_within 24 now posted_at = true) \/ s1 = "D2"%string.
Proof.
  unfold repair_stage.
  destruct (one_of _ ["D3"; "C3"]%string); [tauto|].
  destruct (one_of _ ["D7"; "C7"]%string); [tauto|].
  destruct (one_of _ ["D21"; "C21"]%string); [tauto|].
  destruct (posted_within 24 now posted_at); [tauto|].
  destruct (posted_within 72 now posted_at); tauto.
Qed.

Lemma repair_stage_stable (now : Z) (posted_at : option Z) (stage : option string) :
  let kept := enforce_stage_by_age now posted_at
                (Some (repair_stage now posted_at stage)) in
  enforce_stage_by_age now posted_at (Some (repair_stage now posted_at kept)) = kept /\
  exists label, kept = Some label /\
    In label ["D1"; "D2"; "D3"; "D7"; "D21"]%string.
Proof.
  unfold enforce_stage_by_age.
  destruct (posted_within 24 now posted_at) eqn:E24.
  { split; [reflexivity|]. eexists. split; [reflexivity|]. simpl. tauto. }
  destruct (posted_within 72 now posted_at) eqn:E72.
  { split; [reflexivity|]. eexists. split; [reflexivity|]. simpl. tauto. }
  pose proof (repair_stage_labels now posted_at stage) as H. cbv zeta in H.
  rewrite E24 in H.
  destruct H as [H|[H|[H|[[_ H]|H]]]]; try discriminate H; rewrite H;
    (split; [unfold repair_stage; rewrite ?E24, ?E72; reflexivity
            |eexists; split; [reflexivity|simpl; tauto]]).
Qed.

Lemma repair_signal_stable (now : Z) (r r' : signal) :
  repair_signal now r = Some r' ->
  repair_signal now r' = Some r' /\
  sig_subscriber_id r' = sig_subscriber_id r /\
  (exists label, sig_velocity_stage r' = Some label /\
     In label ["D1"; "D2"; "D3"; "D7"; "D21"]%string) /\
  (exists tag, sig_velocity_tag r' = Some tag /\
     In tag [""%string; TAG_ROCKET; TAG_FIRE; TAG_CHECK; TAG_SLEEP]).
Proof.
  unfold repair_signal.
  destruct (repair_tag (sig_velocity_percentile r)) as [tag|] eqn:Etag; [|discriminate].
  intros [= <-].
  cbn [sig_posted_at sig_velocity_stage sig_velocity_percentile
       sig_subscriber_id sig_handle sig_post_url sig_media_type sig_caption
       sig_velocity_tag].
  rewrite Etag.
  destruct (repair_stage_stable now (sig_posted_at r) (sig_velocity_stage r))
    as [Hst Hlab]. cbv zeta in Hst, Hlab.
  rewrite Hst. split; [reflexivity|]. split; [reflexivity|]. split; [exact Hlab|].
  exists tag. split; [reflexivity|]. exact (repair_tag_vocabulary _ _ Etag).
Qed.

(** X5. When step 1 of [repair_velocity] goes through, every signal of the
    subscriber has a stage among D1, D2, D3, D7, D21 and a tag that is empty
    or one of the four band literals (a clover prefix or the
    insufficient-data sentinel does not survive); the other subscribers' rows
    stay as they were; and running it again at the same time changes
    nothing. *)
Theorem repair_signals_normalises (now sid : Z) (rows rows' : list signal) :
  repair_signals now sid rows = Some rows' ->
  repair_signals now sid rows' = Some rows' /\
  List.length rows' = List.length rows /\
  (forall r, In r rows' -> sig_subscriber_id r = sid ->
     (exists label, sig_velocity_stage r = Some label /\
        In label ["D1"; "D2"; "D3"; "D7"; "D21"]%string) /\
     (exists tag, sig_velocity_tag r = Some tag /\
        In tag [""%string; TAG_ROCKET; TAG_FIRE; TAG_CHECK; TAG_SLEEP])) /\
  (forall r, In r rows -> sig_subscriber_id r <> sid -> In r rows').
Proof.
  revert rows'. induction rows as [|r rows IH]; intros rows' H.
  - injection H as <-.
    split; [reflexivity|split; [reflexivity|split; intros x []]].
  - cbn [repair_signals] in H.
    destruct (sig_subscriber_id r =? sid) eqn:E.
    + destruct (repair_signal now r) as [r1|] eqn:E1; [|discriminate].
      destruct (repair_signals now sid rows) as [rest|]; [|discriminate].
      injection H as <-.
      destruct (IH rest eq_refl) as (Hi & Hl & Hv & Hf).
      destruct (repair_signal_stable now r r1 E1) as (Hs & Hk & Hlab & Htag).
      split; [|split; [|split]].
      * cbn [repair_signals]. rewrite Hk, E, Hs, Hi. reflexivity.
      * cbn [List.length]. now rewrite Hl.
      * intros x [<-|Hin] Hx; [now split|now apply Hv].
      * intros x [<-|Hin] Hx; [apply Z.eqb_eq in E; contradiction|].
        right. now apply Hf.
    + destruct (repair_signals now sid rows) as [rest|]; [|discriminate].
      injection H as <-.
      destruct (IH rest eq_refl) as (Hi & Hl & Hv & Hf).
      split; [|split; [|split]].
      * cbn [repair_signals]. rewrite E, Hi. reflexivity.
      * cbn [List.length]. now rewrite Hl.
      * intros x [<-|Hin] Hx; [apply Z.eqb_neq in E; contradiction|now apply Hv].
      * intros x [<-|Hin] Hx; [now left|right; now apply Hf].
Qed.

Lemma repair_signals_normalises_witness :
  let r := {| sig_subscriber_id := 1; sig_handle := "h"; sig_post_url := "u";
              sig_media_type := None; sig_posted_at := Some 0;
              sig_caption := None;
              sig_velocity_tag := Some (TAG_CLOVER ++ TAG_ROCKET)%string;
              sig_velocity_stage := Some "c7"%string;
              sig_velocity_percentile := Some "3%"%string |} in
  exists rows',
    repair_signals 1000000 1 [r] = Some rows' /\
    map sig_velocity_stage rows' = [Some "D7"%string] /\
    map sig_velocity_tag rows' = [Some TAG_ROCKET] /\
    repair_signals 1000000 1 rows' = Some rows'.
Proof.
  intros r. eexists. split; [reflexivity|]. split; [reflexivity|].
  split; [reflexivity|].
  refine (proj1 (repair_signals_normalises 1000000 1 [r] _ _)). reflexivity.
Defined.

End SheetFacts.

(* ------------------------------------------------------------------ *)
(** ** Order properties of the percentile, and hot tags *)

Module ClassifierOrder.
Import Py PyFacts Classifier ClassifierFacts Store Lifecycle.

Lemma round_ge_iff (k : Z) (x : Q) :
  k <= round x <->
  (2 * k - 1) * Z.pos (Qden x) < 2 * Qnum x \/
  ((2 * k - 1) * Z.pos (Qden x) = 2 * Qnum x /\ Z.even k = true).
Proof.
  unfold round.
  set (n := Qnum x); set (d := Z.pos (Qden x)).
  assert (Hd : 0 < d) by (unfold d; lia).
  pose proof (Z.div_mod n d ltac:(lia)) as E.
  pose proof (Z.mod_pos_bound n d Hd) as B.
  set (q := n / d) in *. set (r := n mod d) in *.
  destruct (Z.compare_spec (2 * r) d) as [C|C|C].
  - destruct (Z.even q) eqn:Ev.
    + split.
      * intros H. left. nia.
      * intros [H|[H Hk]]; [nia|].
        assert (k = q + 1) as -> by nia.
        rewrite Z.even_add, Ev in Hk. discriminate Hk.
    + split.
      * intros H. destruct (Z.eq_dec k (q + 1)) as [->|Hne].
        -- right. split; [nia|]. rewrite Z.even_add, Ev. reflexivity.
        -- left. nia.
      * intros [H|[H Hk]]; nia.
  - split; [intros H; left; nia|intros [H|[H _]]; nia].
  - split; [intros H; left; nia|intros [H|[H _]]; nia].
Qed.

Lemma round_mono (x y : Q) : (x <= y)%Q -> round x <= round y.
Proof.
  intros H. apply round_ge_iff.
  destruct (proj1 (round_ge_iff (round x) x) (Z.le_refl _)) as [L|[L Ev]];
    unfold Qle in H.
  - left. nia.
  - assert ((2 * round x - 1) * Z.pos (Qden y) <= 2 * Qnum y) as Hle by nia.
    apply Z.le_lteq in Hle. destruct Hle as [Hlt|Heq]; [now left|right; now split].
Qed.

Lemma Qle_bool_compat (u u' v v' : Q) :
  (u == u')%Q -> (v == v')%Q -> Qle_bool u v = Qle_bool u' v'.
Proof.
  intros Eu Ev. destruct (Qle_bool u v) eqn:A, (Qle_bool u' v') eqn:B; try reflexivity.
  - apply Qle_bool_iff in A. rewrite Eu, Ev in A. apply Qle_bool_iff in A. congruence.
  - apply Qle_bool_iff in B. rewrite <- Eu, <- Ev in B. apply Qle_bool_iff in B. congruence.
Qed.

Lemma rank_loop_compat (l1 l2 : list Q) (v1 v2 : Q) (i d : Z) :
  Forall2 Qeq l1 l2 -> (v1 == v2)%Q -> rank_loop i l1 v1 d = rank_loop i l2 v2 d.
Proof.
  intros H Ev. revert i. induction H as [|a b l1 l2 Eab H IH]; intros i; simpl.
  - reflexivity.
  - rewrite (Qle_bool_compat a b v1 v2 Eab Ev). now rewrite IH.
Qed.

Lemma rank_loop_antitone (l : list Q) (v1 v2 : Q) (i d : Z) :
  (v1 <= v2)%Q -> i + Z.of_nat (List.length l) - 1 <= d ->
  rank_loop i l v2 d <= rank_loop i l v1 d.
Proof.
  intros Hv. revert i. induction l as [|u l IH]; intros i Hd; simpl.
  - lia.
  - simpl List.length in Hd.
    destruct (Qle_bool u v1) eqn:E1.
    + apply Qle_bool_iff in E1.
      assert (E2 : Qle_bool u v2 = true) by (apply Qle_bool_iff; now apply Qle_trans with v1).
      rewrite E2. lia.
    + destruct (Qle_bool u v2).
      * destruct (rank_loop_bounds l v1 (i + 1) d) as [E|B]; cbv zeta in *; lia.
      * apply IH. lia.
Qed.

Lemma percentile_raw_mono (r1 r2 n : Z) :
  2 <= n -> r1 <= r2 -> (percentile_raw r1 n <= percentile_raw r2 n)%Q.
Proof.
  intros Hn Hr. unfold percentile_raw.
  apply Qplus_le_compat; [apply Qle_refl|].
  unfold Qdiv. apply Qmult_le_compat_r.
  - rewrite <- Zle_Qle. lia.
  - apply Qinv_le_0_compat. replace 0%Q with (inject_Z 0) by reflexivity.
    rewrite <- Zle_Qle. lia.
Qed.

Lemma strictly_desc_inv (a : Q) (l : list Q) :
  strictly_desc (a :: l) -> strictly_desc l /\ forall z, InQ z l -> (z < a)%Q.
Proof.
  intros H. apply StronglySorted_inv in H. destruct H as [Hl Ha].
  split; [exact Hl|]. intros z (y & Hy & E).
  rewrite Forall_forall in Ha. rewrite E. now apply Ha.
Qed.

Lemma sorted_same_members (l1 l2 : list Q) :
  strictly_desc l1 -> strictly_desc l2 ->
  (forall z, InQ z l1 <-> InQ z l2) -> Forall2 Qeq l1 l2.
Proof.
  revert l2. induction l1 as [|a l1 IH]; intros [|b l2] H1 H2 Hm.
  - constructor.
  - exfalso. apply (InQ_nil b). apply Hm. apply InQ_cons. left. reflexivity.
  - exfalso. apply (InQ_nil a). apply Hm. apply InQ_cons. left. reflexivity.
  - destruct (strictly_desc_inv a l1 H1) as [S1 B1].
    destruct (strictly_desc_inv b l2 H2) as [S2 B2].
    assert (Hab : (a == b)%Q).
    { assert (Ha : InQ a (b :: l2)) by (apply Hm, InQ_cons; left; reflexivity).
      assert (Hb : InQ b (a :: l1)) by (apply Hm, InQ_cons; left; reflexivity).
      apply InQ_cons in Ha. apply InQ_cons in Hb.
      destruct Ha as [E|Ha]; [exact E|].
      destruct Hb as [E|Hb]; [now symmetry|].
      apply B2 in Ha. apply B1 in Hb.
      exfalso. apply (Qlt_irrefl a). now apply Qlt_trans with b. }
    constructor; [exact Hab|].
    apply IH; [exact S1|exact S2|].
    intros z. split; intros Hz.
    + assert (Hz' : InQ z (b :: l2)) by (apply Hm, InQ_cons; now right).
      apply InQ_cons in Hz'. destruct Hz' as [E|Hz']; [|exact Hz'].
      apply B1 in Hz. rewrite E, <- Hab in Hz. exfalso. apply (Qlt_irrefl a Hz).
    + assert (Hz' : InQ z (a :: l1)) by (apply Hm, InQ_cons; now right).
      apply InQ_cons in Hz'. destruct Hz' as [E|Hz']; [|exact Hz'].
      apply B2 in Hz. rewrite E, Hab in Hz. exfalso. apply (Qlt_irrefl b Hz).
Qed.

(** The shape of every result of [_percentile] on a non-empty pool. *)
Lemma percentile_shape (pool : list Q) (v : Q) :
  pool <> [] ->
  let uniq := sorted_set_desc pool in
  let n := Z.of_nat (List.length uniq) in
  _percentile pool v =
    Some (percent_string
            (if n =? 1 then 50
             else round (percentile_raw (rank_loop 1 uniq v n) n))) /\
  1 <= n /\
  (n <> 1 -> 1 <= rank_loop 1 uniq v n <= n).
Proof.
  intros Hne uniq n.
  pose proof (sorted_set_desc_not_nil pool Hne) as Hnn. fold uniq in Hnn.
  assert (Hn : 1 <= n) by (unfold n; destruct uniq; [congruence|simpl List.length; lia]).
  assert (Hr : 1 <= rank_loop 1 uniq v n <= n).
  { destruct (rank_loop_bounds uniq v 1 n) as [E|B]; cbv zeta in *; [rewrite E|]; lia. }
  split; [|split; [exact Hn|intros _; exact Hr]].
  unfold _percentile. destruct pool as [|x l]; [congruence|]. fold uniq.
  destruct uniq as [|u1 [|u2 rest]] eqn:Eu; [congruence|reflexivity|].
  fold n. fold n in Hr.
  assert (Hn2 : 2 <= n) by (unfold n; simpl List.length; lia).
  replace (n =? 1) with false by (symmetry; apply Z.eqb_neq; lia).
  pose proof (round_percentile_raw_bounds _ n Hr Hn2) as HB.
  do 2 f_equal. lia.
Qed.

Lemma hot_band (p : Z) :
  _is_high_tag (Some (_velocity_tag (Some (percent_string p)))) = (p <=? 15).
Proof.
  unfold _velocity_tag.
  rewrite TagSpec.percent_string_truthy, TagSpec.parse_percent_string.
  destruct (p <=? 5) eqn:E5.
  - replace (p <=? 15) with true by (symmetry; apply Z.leb_le; apply Z.leb_le in E5; lia).
    reflexivity.
  - destruct (p <=? 15); [reflexivity|].
    destruct (p <=? 35); [reflexivity|].
    destruct (35 <? p); reflexivity.
Qed.

(** X6. On a non-empty pool [_percentile] is antitone in the post's value: a
    post with at least the metric-per-day of another gets a percentile that
    is at most the other's, both between 1 and 100; so if the lower post's
    tag is hot, the higher post's tag is hot too. *)
Theorem percentile_antitone (pool : list Q) (v1 v2 : Q) :
  pool <> [] -> (v1 <= v2)%Q ->
  exists p1 p2,
    _percentile pool v1 = Some (percent_string p1) /\
    _percentile pool v2 = Some (percent_string p2) /\
    1 <= p2 /\ p2 <= p1 /\ p1 <= 100 /\
    (_is_high_tag (Some (_velocity_tag (_percentile pool v1))) = true ->
     _is_high_tag (Some (_velocity_tag (_percentile pool v2))) = true).
Proof.
  intros Hne Hv.
  destruct (percentile_shape pool v1 Hne) as (E1 & Hn & R1).
  destruct (percentile_shape pool v2 Hne) as (E2 & _ & R2).
  cbv zeta in *.
  set (uniq := sorted_set_desc pool) in *.
  set (n := Z.of_nat (List.length uniq)) in *.
  assert (Hp : exists p1 p2,
    _percentile pool v1 = Some (percent_string p1) /\
    _percentile pool v2 = Some (percent_string p2) /\
    1 <= p2 /\ p2 <= p1 /\ p1 <= 100).
  { destruct (n =? 1) eqn:En.
    - exists 50, 50. repeat split; try assumption; lia.
    - apply Z.eqb_neq in En. specialize (R1 En). specialize (R2 En).
      assert (Hn2 : 2 <= n) by lia.
      eexists; eexists. split; [exact E1|]. split; [exact E2|].
      pose proof (round_percentile_raw_bounds _ n R1 Hn2).
      pose proof (round_percentile_raw_bounds _ n R2 Hn2).
      split; [lia|]. split; [|lia].
      apply round_mono, percentile_raw_mono; [exact Hn2|].
      apply rank_loop_antitone; [exact Hv|]. unfold n. lia. }
  destruct Hp as (p1 & p2 & P1 & P2 & B1 & B2 & B3).
  exists p1, p2. repeat split; try assumption.
  rewrite P1, P2, !hot_band. intros H. apply Z.leb_le in H. apply Z.leb_le. lia.
Qed.

Lemma percentile_antitone_witness :
  let pool := map inject_Z [10; 40; 20; 40; 30] in
  pool <> [] /\ (inject_Z 20 <= inject_Z 35)%Q /\
  exists p1 p2,
    _percentile pool (inject_Z 20) = Some (percent_string p1) /\
    _percentile pool (inject_Z 35) = Some (percent_string p2) /\
    p2 <= p1.
Proof.
  intros pool.
  assert (Hne : pool <> []) by discriminate.
  assert (Hle : (inject_Z 20 <= inject_Z 35)%Q) by (unfold Qle; simpl; lia).
  split; [exact Hne|]. split; [exact Hle|].
  destruct (percentile_antitone pool (inject_Z 20) (inject_Z 35) Hne Hle)
    as (p1 & p2 & H1 & H2 & _ & H & _).
  exists p1, p2. auto.
Defined.

Lemma same_members_nil (pool1 pool2 : list Q) :
  (forall z, InQ z pool1 <-> InQ z pool2) -> pool1 = [] -> pool2 = [].
Proof.
  intros Hm ->. destruct pool2 as [|b l]; [reflexivity|].
  exfalso. apply (InQ_nil b). apply Hm. apply InQ_cons. left. reflexivity.
Qed.

(** Two pools with the same values give equal values the same percentile. *)
Lemma percentile_same_values (pool1 pool2 : list Q) (v1 v2 : Q) :
  (forall z, InQ z pool1 <-> InQ z pool2) -> (v1 == v2)%Q ->
  _percentile pool1 v1 = _percentile pool2 v2.
Proof.
  intros Hm Hv.
  destruct pool1 as [|x1 l1] eqn:E1.
  { rewrite (same_members_nil [] pool2 Hm eq_refl). reflexivity. }
  destruct pool2 as [|x2 l2] eqn:E2.
  { assert (x1 :: l1 = []) as H; [|discriminate H].
    apply (same_members_nil [] (x1 :: l1)); [|reflexivity].
    intros z. symmetry. apply Hm. }
  rewrite <- E1, <- E2 in *.
  assert (N1 : pool1 <> []) by (rewrite E1; discriminate).
  assert (N2 : pool2 <> []) by (rewrite E2; discriminate).
  destruct (percentile_shape pool1 v1 N1) as (P1 & _ & _).
  destruct (percentile_shape pool2 v2 N2) as (P2 & _ & _).
  cbv zeta in *. rewrite P1, P2.
  assert (HF : Forall2 Qeq (sorted_set_desc pool1) (sorted_set_desc pool2)).
  { apply sorted_same_members; try apply sorted_set_desc_sorted.
    intros z. rewrite !sorted_set_desc_InQ. apply Hm. }
  rewrite (Forall2_length HF).
  now rewrite (rank_loop_compat _ _ v1 v2 1 _ HF Hv).
Qed.

Lemma percentile_permutation (pool1 pool2 : list Q) (v : Q) :
  Permutation pool1 pool2 -> _percentile pool1 v = _percentile pool2 v.
Proof.
  intros Hp. apply percentile_same_values; [|reflexivity].
  intros z. unfold InQ. split; intros (y & Hy & E); exists y; split; try exact E.
  - now apply (Permutation_in _ Hp).
  - now apply (Permutation_in _ (Permutation_sym Hp)).
Qed.

(** X7. [_percentile] depends on the pool only through its set of values:
    two pools that hold the same values give the same percentile to equal
    values; in particular neither the order of the pool nor a value that
    comes twice makes a difference. *)
Theorem percentile_depends_on_value_set (pool1 pool2 : list Q) (v1 v2 : Q) :
  (forall z, InQ z pool1 <-> InQ z pool2) -> (v1 == v2)%Q ->
  _percentile pool1 v1 = _percentile pool2 v2 /\
  _percentile (pool1 ++ pool2) v1 = _percentile pool1 v1 /\
  (forall pool, Permutation pool1 pool -> _percentile pool v1 = _percentile pool1 v1).
Proof.
  intros Hm Hv. split; [|split].
  - now apply percentile_same_values.
  - apply percentile_same_values; [|reflexivity].
    intros z. unfold InQ. split.
    + intros (y & Hy & E). apply in_app_or in Hy. destruct Hy as [Hy|Hy].
      * exists y. auto.
      * apply Hm. exists y. auto.
    + intros (y & Hy & E). exists y. split; [apply in_or_app; now left|exact E].
  - intros pool Hp. symmetry. now apply percentile_permutation.
Qed.

Lemma percentile_depends_on_value_set_witness :
  _percentile (map inject_Z [10; 20; 20; 10; 30]) (2 # 1) =
  _percentile [30 # 1; 20 # 2; 40 # 2] (4 # 2).
Proof.
  apply percentile_depends_on_value_set; [|reflexivity].
  intros z. unfold map. rewrite !InQ_cons, !InQ_nil.
  assert (E1 : (inject_Z 10 == 20 # 2)%Q) by reflexivity.
  assert (E2 : (inject_Z 20 == 40 # 2)%Q) by reflexivity.
  assert (E3 : (inject_Z 30 == 30 # 1)%Q) by reflexivity.
  rewrite <- E1, <- E2, <- E3. tauto.
Defined.

Lemma rank_loop_bottom (l : list Q) (v : Q) (i d : Z) :
  strictly_desc l -> l <> [] -> (forall u, InQ u l -> (v <= u)%Q) ->
  d = i + Z.of_nat (List.length l) - 1 ->
  rank_loop i l v d = d.
Proof.
  revert i. induction l as [|u l IH]; intros i Hs Hne Hv Hd; [congruence|].
  destruct (strictly_desc_inv u l Hs) as [Hs' Hu].
  simpl. simpl List.length in Hd.
  destruct l as [|u' l'].
  - simpl in *. destruct (Qle_bool u v); lia.
  - assert (Hlt : (u' < u)%Q) by (apply Hu, InQ_cons; left; reflexivity).
    assert (Hle : (v <= u')%Q) by (apply Hv; rewrite !InQ_cons; right; left; reflexivity).
    destruct (Qle_bool u v) eqn:E.
    + apply Qle_bool_iff in E. exfalso. apply (Qlt_irrefl u).
      apply Qle_lt_trans with u'; [|exact Hlt]. now apply Qle_trans with v.
    + apply IH; [exact Hs'|discriminate| |simpl List.length in *; lia].
      intros w Hw. apply Hv. apply InQ_cons. now right.
Qed.

Lemma round_percentile_raw_last (n : Z) : 2 <= n -> round (percentile_raw n n) = 100.
Proof.
  intros Hn. apply Z.le_antisymm.
  - apply round_percentile_raw_bounds; lia.
  - apply round_ge. unfold percentile_raw.
    replace (inject_Z 100) with (1 + inject_Z 99)%Q by reflexivity.
    apply Qplus_le_compat; [apply Qle_refl|].
    apply Qle_shift_div_l.
    + replace 0%Q with (inject_Z 0) by reflexivity. rewrite <- Zlt_Qlt. lia.
    + rewrite <- inject_Z_mult, <- Zle_Qle. lia.
Qed.

(** X8. The two ends of [_percentile]: when all pool values are equal,
    every post gets 50% and with it the sleep tag; when the pool holds two
    different values, a post at or below every pool value gets 100% and the
    sleep tag. *)
Theorem percentile_extremes (pool : list Q) (v : Q) :
  pool <> [] ->
  ((forall x y, In x pool -> In y pool -> (x == y)%Q) ->
     _percentile pool v = Some "50%"%string /\
     _velocity_tag (_percentile pool v) = TAG_SLEEP) /\
  ((exists x y, In x pool /\ In y pool /\ ~ (x == y)%Q) ->
   (forall x, In x pool -> (v <= x)%Q) ->
     _percentile pool v = Some "100%"%string /\
     _velocity_tag (_percentile pool v) = TAG_SLEEP).
Proof.
  intros Hne.
  destruct (percentile_shape pool v Hne) as (P & Hn & _). cbv zeta in *.
  pose proof (sorted_set_desc_sorted pool) as Hs.
  pose proof (sorted_set_desc_InQ pool) as Hin.
  set (uniq := sorted_set_desc pool) in *.
  split.
  - intros Hall.
    assert (E : Z.of_nat (List.length uniq) = 1).
    { destruct uniq as [|u1 [|u2 rest]]; [simpl in Hn; lia|reflexivity|].
      exfalso. destruct (strictly_desc_inv u1 _ Hs) as [_ Hlt].
      assert (H2 : InQ u2 (u2 :: rest)) by (apply InQ_cons; left; reflexivity).
      pose proof (Hlt u2 H2) as L.
      destruct (proj1 (Hin u1)) as (y1 & Y1 & E1); [apply InQ_cons; left; reflexivity|].
      destruct (proj1 (Hin u2)) as (y2 & Y2 & E2); [apply InQ_cons; right; exact H2|].
      rewrite E1, E2, (Hall y1 y2 Y1 Y2) in L. exact (Qlt_irrefl _ L). }
    rewrite P, E. split; reflexivity.
  - intros (x & y & Hx & Hy & Hxy) Hbot.
    assert (E : 2 <= Z.of_nat (List.length uniq)).
    { destruct uniq as [|u1 [|u2 rest]]; [simpl in Hn; lia| |simpl List.length; lia].
      exfalso. apply Hxy.
      assert (X : InQ x [u1]) by (apply Hin; exists x; split; [exact Hx|reflexivity]).
      assert (Y : InQ y [u1]) by (apply Hin; exists y; split; [exact Hy|reflexivity]).
      rewrite InQ_cons, InQ_nil in X, Y.
      destruct X as [X|[]], Y as [Y|[]]. now rewrite X, Y. }
    rewrite P.
    replace (Z.of_nat (List.length uniq) =? 1) with false
      by (symmetry; apply Z.eqb_neq; lia).
    rewrite rank_loop_bottom; [|exact Hs|destruct uniq; [simpl in E; lia|discriminate]| |lia].
    + rewrite round_percentile_raw_last by exact E. split; reflexivity.
    + intros u Hu. apply Hin in Hu. destruct Hu as (w & Hw & Ew).
      rewrite Ew. now apply Hbot.
Qed.

Lemma percentile_extremes_witness :
  _percentile (map inject_Z [7; 7; 7]) (inject_Z 7) = Some "50%"%string /\
  _percentile (map inject_Z [7; 9; 8]) (inject_Z 7) = Some "100%"%string.
Proof.
  split.
  - refine (proj1 (proj1 (percentile_extremes (map inject_Z [7; 7; 7]) (inject_Z 7) _) _)).
    + discriminate.
    + simpl. intros x y [<-|[<-|[<-|[]]]] [<-|[<-|[<-|[]]]]; reflexivity.
  - refine (proj1 (proj2 (percentile_extremes (map inject_Z [7; 9; 8]) (inject_Z 7) _) _ _)).
    + discriminate.
    + exists (inject_Z 7), (inject_Z 9). simpl. split; [tauto|]. split; [tauto|].
      intros H. discriminate H.
    + simpl. intros x [<-|[<-|[<-|[]]]]; unfold Qle; simpl; lia.
Defined.


Lemma contains_app_r (sub p t : string) :
  contains sub t = true -> contains sub (p ++ t) = true.
Proof.
  intros H. induction p as [|c p IH]; [exact H|].
  cbn [append contains]. rewrite IH. apply orb_true_r.
Qed.

Lemma clover_keeps_high (t : string) :
  _is_high_tag (Some t) = true -> _is_high_tag (Some (TAG_CLOVER ++ t)%string) = true.
Proof.
  unfold _is_high_tag. destruct (truthy t); [|discriminate].
  intros H. replace (truthy (TAG_CLOVER ++ t)) with true by reflexivity.
  apply orb_true_iff in H. apply orb_true_iff.
  destruct H as [H|H]; [left|right]; now apply contains_app_r.
Qed.

(** The three shapes of a result of [_velocity_from_snapshots]. *)
Lemma from_snapshots_cases (db : tables) (sub : Z) (handle : string)
    (snap : snapshot) (it : item) (checkpoint : string) :
  let r := _velocity_from_snapshots db sub handle snap it checkpoint in
  r = (None, ""%string) \/ r = (None, INSUFFICIENT_DATA) \/
  exists p, 1 <= p <= 100 /\ fst r = Some (percent_string p) /\
            _is_high_tag (Some (snd r)) = (p <=? 15) /\
            truthy (snd r) = true.
Proof.
  unfold _velocity_from_snapshots.
  destruct (_checkpoint_days checkpoint <=? 0); [now left|].
  destruct (_metric_for_checkpoint snap it checkpoint) as [m|]; [|now left].
  destruct (_velocity_pool db sub handle (cohort_media_type snap it) checkpoint)
    as [|x pool] eqn:Epool; [now left|].
  destruct (_ <? _min_cohort_size checkpoint); [right; now left|].
  right. right. cbv zeta. cbn [fst snd].
  destruct (percentile_shape (x :: pool) (m / inject_Z (_checkpoint_days checkpoint))
              ltac:(discriminate)) as (P & Hn & R).
  cbv zeta in P, Hn, R.
  set (n := Z.of_nat (List.length (sorted_set_desc (x :: pool)))) in *.
  assert (HB : exists p, 1 <= p <= 100 /\
            _percentile (x :: pool) (m / inject_Z (_checkpoint_days checkpoint))
              = Some (percent_string p)).
  { destruct (n =? 1) eqn:En.
    - exists 50. split; [lia|exact P].
    - apply Z.eqb_neq in En. eexists. split; [|exact P].
      apply round_percentile_raw_bounds; [apply R; exact En|lia]. }
  destruct HB as (p & Hp & E). rewrite E.
  exists p. split; [exact Hp|]. split; [reflexivity|].
  pose proof (hot_band p) as Hhot.
  assert (Ht : truthy (_velocity_tag (Some (percent_string p))) = true).
  { unfold _velocity_tag.
    rewrite TagSpec.percent_string_truthy, TagSpec.parse_percent_string.
    destruct (p <=? 5); [reflexivity|]. destruct (p <=? 15); [reflexivity|].
    destruct (p <=? 35); [reflexivity|]. destruct (35 <? p); reflexivity. }
  destruct (checkpoint =? "d7")%string; [|auto].
  destruct (negb _ && _)%bool eqn:Eclover; [|auto].
  apply andb_true_iff in Eclover. destruct Eclover as [_ Hhigh].
  rewrite (clover_keeps_high _ Hhigh). split; [now rewrite <- Hhot|reflexivity].
Qed.

(** X9. Whatever the store, [_velocity_from_snapshots] returns either no
    percentile and a tag that is not hot, or a percentile ["p%"] with p between
    1 and 100 and a tag that is hot exactly when p is at most 15; the clover
    prefix of the late bloomer never changes whether a tag is hot. *)
Theorem hot_iff_top_fifteen (db : tables) (sub : Z) (handle : string)
    (snap : snapshot) (it : item) (checkpoint : string) :
  let r := _velocity_from_snapshots db sub handle snap it checkpoint in
  match fst r with
  | None => _is_high_tag (Some (snd r)) = false
  | Some s =>
      exists p, 1 <= p <= 100 /\ s = percent_string p /\
                _is_high_tag (Some (snd r)) = (p <=? 15)
  end.
Proof.
  intros r. subst r.
  destruct (from_snapshots_cases db sub handle snap it checkpoint)
    as [E|[E|(p & Hp & Ep & Ehot & _)]].
  - rewrite E. reflexivity.
  - rewrite E. reflexivity.
  - rewrite Ep. exists p. auto.
Qed.

(** X10. The gate of the worker loop and the classifier agree on what a hot
    tag is: [is_d7_hot] of db.py is [_is_high_tag] of sync.py on the stored
    tag of the post, and false for a post without a signal. *)
Theorem is_d7_hot_agrees_with_is_high_tag (db : tables) (sub : Z) (handle url : string) :
  is_d7_hot db sub handle url =
    match find (signal_key sub handle url) (post_signals db) with
    | Some row => _is_high_tag (sig_velocity_tag row)
    | None => false
    end.
Proof.
  unfold is_d7_hot, _is_high_tag.
  destruct (find _ _) as [row|]; [|reflexivity].
  destruct (sig_velocity_tag row) as [t|]; [|reflexivity].
  destruct t; reflexivity.
Qed.

End ClassifierOrder.

(* ------------------------------------------------------------------ *)
(** ** Laws of the upserts, and what [_apply_velocity] writes *)

Module StoreLaws.
Import Py Classifier Store Lifecycle TableFacts CohortSpec.

Section Update.
Context {A : Type} (key : A -> bool).

Lemma map_upd_compose (f g h : A -> A) (l : list A) :
  (forall r, key r = true -> key (f r) = true /\ g (f r) = h r) ->
  map (fun r => if key r then g r else r) (map (fun r => if key r then f r else r) l) =
  map (fun r => if key r then h r else r) l.
Proof.
  intros H. rewrite map_map. apply map_ext. intros r.
  destruct (key r) eqn:E; [|now rewrite E].
  destruct (H r E) as [K G]. now rewrite K, G.
Qed.

Lemma existsb_map_upd (f : A -> A) (l : list A) :
  (forall r, key r = true -> key (f r) = true) ->
  existsb key (map (fun r => if key r then f r else r) l) = existsb key l.
Proof.
  intros H. induction l as [|r l IH]; simpl; [reflexivity|].
  rewrite IH. destruct (key r) eqn:E; [now rewrite (H r E)|now rewrite E].
Qed.

Lemma others_map_upd (f : A -> A) (l : list A) :
  (forall r, key r = true -> key (f r) = true) ->
  filter (fun r => negb (key r)) (map (fun r => if key r then f r else r) l) =
  filter (fun r => negb (key r)) l.
Proof.
  intros H. induction l as [|r l IH]; simpl; [reflexivity|].
  rewrite IH. destruct (key r) eqn:E; [now rewrite (H r E)|now rewrite E].
Qed.

Lemma own_map_upd (f : A -> A) (l : list A) :
  (forall r, key r = true -> key (f r) = true) ->
  List.length (filter key (map (fun r => if key r then f r else r) l)) =
  List.length (filter key l).
Proof.
  intros H. induction l as [|r l IH]; simpl; [reflexivity|].
  destruct (key r) eqn:E; [rewrite (H r E)|rewrite E]; simpl; now rewrite IH.
Qed.

Lemma others_app_new (l : list A) (x : A) :
  key x = true -> filter (fun r => negb (key r)) (l ++ [x]) = filter (fun r => negb (key r)) l.
Proof.
  intros H. rewrite filter_app. simpl. rewrite H. simpl. apply app_nil_r.
Qed.

Lemma own_absent (l : list A) : existsb key l = false -> filter key l = [].
Proof.
  induction l as [|r l IH]; simpl; [reflexivity|].
  intros H. apply orb_false_iff in H. destruct H as [H1 H2]. rewrite H1. auto.
Qed.

Lemma own_present (l : list A) :
  existsb key l = true -> (1 <= List.length (filter key l))%nat.
Proof.
  induction l as [|r l IH]; simpl; [discriminate|].
  destruct (key r); simpl; [lia|exact IH].
Qed.

Lemma map_upd_absent (f : A -> A) (l : list A) :
  existsb key l = false -> map (fun r => if key r then f r else r) l = l.
Proof.
  induction l as [|r l IH]; simpl; [reflexivity|].
  intros H. apply orb_false_iff in H. destruct H as [H1 H2]. rewrite H1. f_equal. auto.
Qed.

End Update.

Lemma coalesce_assoc {A : Type} (a b c : option A) :
  coalesce a (coalesce b c) = coalesce (coalesce a b) c.
Proof. destruct a, b; reflexivity. Qed.

Lemma signal_key_fresh (sub : Z) (handle url : string) (r : signal) :
  sig_subscriber_id r = sub -> sig_handle r = handle -> sig_post_url r = url ->
  signal_key sub handle url r = true.
Proof.
  intros <- <- <-. unfold signal_key. now rewrite Z.eqb_refl, !String.eqb_refl.
Qed.

(** X11. Two calls of [upsert_post_signal] for one post amount to the
    second call alone, except for the posting time: a NULL in the second call
    keeps the time of the first, so a posting time once stored is never
    lost. *)
Theorem upsert_post_signal_last_write_wins (db : tables) (sub : Z) (handle url : string)
    (m1 m2 : option string) (p1 p2 : option Z) (c1 c2 t1 t2 s1 s2 q1 q2 : option string) :
  upsert_post_signal (upsert_post_signal db sub handle url m1 p1 c1 t1 s1 q1)
    sub handle url m2 p2 c2 t2 s2 q2 =
  upsert_post_signal db sub handle url m2 (coalesce p2 p1) c2 t2 s2 q2.
Proof.
  unfold upsert_post_signal. cbn [post_snapshots post_signals post_checkpoint_metrics].
  f_equal.
  set (key := signal_key sub handle url).
  destruct (existsb key (post_signals db)) eqn:E.
  - rewrite existsb_map_upd, E
      by (intros r _; now apply signal_key_fresh).
    apply map_upd_compose. intros r _. split; [now apply signal_key_fresh|].
    cbn [sig_posted_at]. now rewrite coalesce_assoc.
  - rewrite existsb_app, E. cbn [existsb orb].
    replace (key _) with true by (symmetry; now apply signal_key_fresh).
    cbn [orb]. rewrite map_app, map_upd_absent by exact E.
    cbn [map]. replace (key _) with true by (symmetry; now apply signal_key_fresh).
    cbn [sig_posted_at]. now rewrite coalesce_assoc.
Qed.

(** The rows of [post_signals] after [upsert_post_signal]. *)
Lemma upsert_post_signal_rows (db : tables) (sub : Z) (handle url : string)
    (m : option string) (p : option Z) (c t s q : option string) :
  let db' := upsert_post_signal db sub handle url m p c t s q in
  let key := signal_key sub handle url in
  filter (fun r => negb (key r)) (post_signals db') =
    filter (fun r => negb (key r)) (post_signals db) /\
  List.length (filter key (post_signals db')) =
    Nat.max 1 (List.length (filter key (post_signals db))).
Proof.
  intros db' key. subst db'. unfold upsert_post_signal.
  cbn [post_snapshots post_signals post_checkpoint_metrics]. fold key.
  destruct (existsb key (post_signals db)) eqn:E.
  - split.
    + apply others_map_upd. intros r _. now apply signal_key_fresh.
    + rewrite own_map_upd by (intros r _; now apply signal_key_fresh).
      pose proof (own_present key _ E). lia.
  - split.
    + apply others_app_new. now apply signal_key_fresh.
    + rewrite filter_app, (own_absent key _ E). cbn [filter app].
      replace (key _) with true by (symmetry; now apply signal_key_fresh).
      reflexivity.
Qed.

(** X12. [upsert_post_signal] writes nothing but the signal of its post:
    the other two tables and the signals of all other posts stay as they
    were, in their order, and the post has one signal row afterwards if it
    had none or one before. *)
Theorem upsert_post_signal_frame (db : tables) (sub : Z) (handle url : string)
    (m : option string) (p : option Z) (c t s q : option string) :
  let db' := upsert_post_signal db sub handle url m p c t s q in
  let key := signal_key sub handle url in
  post_snapshots db' = post_snapshots db /\
  post_checkpoint_metrics db' = post_checkpoint_metrics db /\
  filter (fun r => negb (key r)) (post_signals db') =
    filter (fun r => negb (key r)) (post_signals db) /\
  List.length (filter key (post_signals db')) =
    Nat.max 1 (List.length (filter key (post_signals db))).
Proof.
  intros db' key. split; [reflexivity|]. split; [reflexivity|].
  apply upsert_post_signal_rows.
Qed.

Lemma metric_key_fresh (sub : Z) (handle url checkpoint : string) (r : checkpoint_metric) :
  cm_subscriber_id r = sub -> cm_handle r = handle -> cm_post_url r = url ->
  cm_checkpoint r = checkpoint ->
  metric_key sub handle url checkpoint r = true.
Proof.
  intros <- <- <- <-. unfold metric_key. now rewrite Z.eqb_refl, !String.eqb_refl.
Qed.

(** X13. [upsert_checkpoint_metric] is last write wins: a second call for
    the same post and checkpoint leaves the store as if the first had never
    been made.  A call changes nothing but the metric rows of its post and
    checkpoint, and leaves one such row if there was none or one. *)
Theorem upsert_checkpoint_metric_last_write_wins (db : tables) (now1 now2 sub : Z)
    (handle url checkpoint stage1 stage2 : string)
    (v1 l1 c1 v2 l2 c2 : option Z) (mv1 vv1 mv2 vv2 : option Q)
    (t1 q1 t2 q2 : option string) :
  let first := upsert_checkpoint_metric db now1 sub handle url checkpoint stage1
                 v1 l1 c1 mv1 vv1 t1 q1 in
  let key := metric_key sub handle url checkpoint in
  upsert_checkpoint_metric first now2 sub handle url checkpoint stage2
    v2 l2 c2 mv2 vv2 t2 q2 =
  upsert_checkpoint_metric db now2 sub handle url checkpoint stage2
    v2 l2 c2 mv2 vv2 t2 q2 /\
  post_snapshots first = post_snapshots db /\
  post_signals first = post_signals db /\
  filter (fun r => negb (key r)) (post_checkpoint_metrics first) =
    filter (fun r => negb (key r)) (post_checkpoint_metrics db) /\
  List.length (filter key (post_checkpoint_metrics first)) =
    Nat.max 1 (List.length (filter key (post_checkpoint_metrics db))).
Proof.
  intros first key. subst first. unfold upsert_checkpoint_metric.
  cbn [post_snapshots post_signals post_checkpoint_metrics]. fold key.
  split; [|split; [reflexivity|split; [reflexivity|]]].
  - f_equal.
    destruct (existsb key (post_checkpoint_metrics db)) eqn:E.
    + rewrite existsb_map_upd, E by (intros r _; now apply metric_key_fresh).
      apply (map_upd_compose key). intros r _. split; [now apply metric_key_fresh|reflexivity].
    + rewrite existsb_app, E. cbn [existsb orb].
      replace (key _) with true by (symmetry; now apply metric_key_fresh).
      cbn [orb]. rewrite map_app, map_upd_absent by exact E.
      cbn [map]. replace (key _) with true by (symmetry; now apply metric_key_fresh).
      reflexivity.
  - destruct (existsb key (post_checkpoint_metrics db)) eqn:E.
    + split.
      * apply (others_map_upd key). intros r _. now apply metric_key_fresh.
      * rewrite (own_map_upd key) by (intros r _; now apply metric_key_fresh).
        pose proof (own_present key _ E). lia.
    + split.
      * apply others_app_new. now apply metric_key_fresh.
      * rewrite filter_app, (own_absent key _ E). cbn [filter app].
        replace (key _) with true by (symmetry; now apply metric_key_fresh).
        reflexivity.
Qed.


Lemma snapshot_key_fresh (sub : Z) (handle url : string) (r : snapshot) :
  snap_subscriber_id r = sub -> snap_handle r = handle -> snap_post_url r = url ->
  snapshot_key sub handle url r = true.
Proof.
  intros <- <- <-. unfold snapshot_key. now rewrite Z.eqb_refl, !String.eqb_refl.
Qed.

(** The row update of [upsert_snapshot] keeps the key of the row. *)
Lemma snapshot_update_key (sub : Z) (handle url checkpoint : string) (t : triple)
    (m : option string) (r : snapshot) :
  snapshot_key sub handle url (set_checkpoint_columns checkpoint t (set_media_type m r)) =
  snapshot_key sub handle url r.
Proof. reflexivity. Qed.

Lemma find_none_existsb {A : Type} (key : A -> bool) (l : list A) :
  find key l = None -> existsb key l = false.
Proof.
  induction l as [|r l IH]; simpl; [reflexivity|].
  destruct (key r); [discriminate|exact IH].
Qed.

Lemma find_some_existsb {A : Type} (key : A -> bool) (l : list A) (r : A) :
  find key l = Some r -> existsb key l = true.
Proof.
  intros H. destruct (existsb key l) eqn:E; [reflexivity|].
  apply find_some in H. destruct H as [Hin Hk].
  assert (existsb key l = true) by (apply existsb_exists; eauto). congruence.
Qed.

Lemma set_checkpoint_columns_twice (checkpoint : string) (t1 t2 : triple)
    (m1 m2 : option string) (r : snapshot) :
  set_checkpoint_columns checkpoint t2
    (set_media_type m2 (set_checkpoint_columns checkpoint t1 (set_media_type m1 r))) =
  set_checkpoint_columns checkpoint t2 (set_media_type m2 r).
Proof.
  unfold set_checkpoint_columns, set_media_type. cbn.
  destruct (checkpoint =? "d1")%string, (checkpoint =? "d3")%string,
    (checkpoint =? "d7")%string, (checkpoint =? "d21")%string; reflexivity.
Qed.

Lemma coalesce_idem {A : Type} (a c : option A) (b : A) :
  coalesce (coalesce a (Some b)) c = coalesce a (Some b).
Proof. destruct a; reflexivity. Qed.

Lemma coalesce_same {A : Type} (a b : option A) :
  coalesce (coalesce a b) b = coalesce a b.
Proof. destruct a, b; reflexivity. Qed.

(** X14. [upsert_snapshot] is idempotent: a second call with the same
    values, at whatever later time and with whatever posting time, changes
    nothing. *)
Theorem upsert_snapshot_idempotent (db : tables) (now now' sub : Z) (handle url : string)
    (media_type : option string) (posted_at posted_at' : option Z) (checkpoint : string)
    (views likes comments : option Z) :
  let once := upsert_snapshot db now sub handle url media_type posted_at checkpoint
                views likes comments in
  upsert_snapshot once now' sub handle url media_type posted_at' checkpoint
    views likes comments = once.
Proof.
  intros once. subst once. unfold upsert_snapshot.
  cbn [post_snapshots post_signals post_checkpoint_metrics]. f_equal.
  set (key := snapshot_key sub handle url).
  set (rows1 := if existsb key (post_snapshots db) then post_snapshots db else _).
  assert (E1 : existsb key rows1 = true).
  { unfold rows1. destruct (existsb key (post_snapshots db)) eqn:E; [exact E|].
    rewrite existsb_app, E. cbn. unfold key.
    rewrite snapshot_key_fresh; reflexivity. }
  destruct (in_field_map checkpoint) eqn:F; cbn [negb].
  - assert (K : forall now0 r, key r = true ->
        key match checkpoint_columns checkpoint r with
            | Some old =>
                set_checkpoint_columns checkpoint
                  {| t_at := coalesce (t_at old) (Some now0); t_views := views;
                     t_likes := likes; t_comments := comments |}
                  (set_media_type (coalesce (snap_media_type r) media_type) r)
            | None => r
            end = true).
    { intros now0 r Hr. destruct (checkpoint_columns checkpoint r); exact Hr. }
    rewrite (existsb_map_upd key) by apply K. rewrite E1.
    apply (map_upd_compose key). intros r Hr. split; [now apply K|].
    destruct (checkpoint_columns_known checkpoint r F) as [old Hold]. rewrite Hold.
    rewrite checkpoint_columns_set by exact F.
    cbn [t_at]. rewrite set_checkpoint_columns_twice.
    change (snap_media_type (set_checkpoint_columns _ _ (set_media_type ?m _))) with m.
    now rewrite coalesce_idem, coalesce_same.
  - now rewrite E1.
Qed.

Lemma checkpoint_columns_other (checkpoint other : string) (t : triple)
    (m : option string) (r : snapshot) :
  other <> checkpoint ->
  checkpoint_columns other (set_checkpoint_columns checkpoint t (set_media_type m r)) =
  checkpoint_columns other r.
Proof.
  intros Hne. unfold checkpoint_columns, set_checkpoint_columns, set_media_type. cbn.
  destruct (other =? "d1")%string eqn:O1.
  { apply String.eqb_eq in O1. subst other.
    destruct (checkpoint =? "d1")%string eqn:C; [|reflexivity].
    apply String.eqb_eq in C. congruence. }
  destruct (other =? "d3")%string eqn:O3.
  { apply String.eqb_eq in O3. subst other.
    destruct (checkpoint =? "d3")%string eqn:C; [|reflexivity].
    apply String.eqb_eq in C. congruence. }
  destruct (other =? "d7")%string eqn:O7.
  { apply String.eqb_eq in O7. subst other.
    destruct (checkpoint =? "d7")%string eqn:C; [|reflexivity].
    apply String.eqb_eq in C. congruence. }
  destruct (other =? "d21")%string eqn:O21; [|reflexivity].
  apply String.eqb_eq in O21. subst other.
  destruct (checkpoint =? "d21")%string eqn:C; [|reflexivity].
  apply String.eqb_eq in C. congruence.
Qed.

(** The rows of [post_snapshots] after [upsert_snapshot]. *)
Lemma upsert_snapshot_rows (db : tables) (now sub : Z) (handle url : string)
    (media_type : option string) (posted_at : option Z) (checkpoint : string)
    (views likes comments : option Z) :
  let db' := upsert_snapshot db now sub handle url media_type posted_at checkpoint
               views likes comments in
  let key := snapshot_key sub handle url in
  filter (fun r => negb (key r)) (post_snapshots db') =
    filter (fun r => negb (key r)) (post_snapshots db) /\
  List.length (filter key (post_snapshots db')) =
    Nat.max 1 (List.length (filter key (post_snapshots db))).
Proof.
  intros db' key. subst db'. unfold upsert_snapshot.
  cbn [post_snapshots post_signals post_checkpoint_metrics]. fold key.
  set (rows1 := if existsb key (post_snapshots db) then post_snapshots db else _).
  assert (H1 : filter (fun r => negb (key r)) rows1 =
                 filter (fun r => negb (key r)) (post_snapshots db) /\
               List.length (filter key rows1) =
                 Nat.max 1 (List.length (filter key (post_snapshots db)))).
  { unfold rows1. destruct (existsb key (post_snapshots db)) eqn:E.
    - split; [reflexivity|]. pose proof (own_present key _ E). lia.
    - split.
      + apply others_app_new. now apply snapshot_key_fresh.
      + rewrite filter_app, (own_absent key _ E). cbn [filter app].
        replace (key _) with true by (symmetry; now apply snapshot_key_fresh).
        reflexivity. }
  destruct (negb (in_field_map checkpoint)); [exact H1|].
  assert (K : forall r, key r = true ->
      key match checkpoint_columns checkpoint r with
          | Some old =>
              set_checkpoint_columns checkpoint
                {| t_at := coalesce (t_at old) (Some now); t_views := views;
                   t_likes := likes; t_comments := comments |}
                (set_media_type (coalesce (snap_media_type r) media_type) r)
          | None => r
          end = true).
  { intros r Hr. destruct (checkpoint_columns checkpoint r); exact Hr. }
  rewrite (others_map_upd key), (own_map_upd key) by apply K. exact H1.
Qed.

(** X15. [upsert_snapshot] writes nothing but the snapshot of its post:
    signals, checkpoint metrics and the snapshots of all other posts stay as
    they were, and the post has one snapshot row afterwards if it had none or
    one before. *)
Theorem upsert_snapshot_frame (db : tables) (now sub : Z) (handle url : string)
    (media_type : option string) (posted_at : option Z) (checkpoint : string)
    (views likes comments : option Z) :
  let db' := upsert_snapshot db now sub handle url media_type posted_at checkpoint
               views likes comments in
  let key := snapshot_key sub handle url in
  post_signals db' = post_signals db /\
  post_checkpoint_metrics db' = post_checkpoint_metrics db /\
  filter (fun r => negb (key r)) (post_snapshots db') =
    filter (fun r => negb (key r)) (post_snapshots db) /\
  List.length (filter key (post_snapshots db')) =
    Nat.max 1 (List.length (filter key (post_snapshots db))).
Proof.
  intros db' key. split; [reflexivity|]. split; [reflexivity|].
  apply upsert_snapshot_rows.
Qed.

(** X16. What [upsert_snapshot] does to the row of its post at a known
    checkpoint, the row being the stored one or else the one just inserted:
    the posting time is kept; the media type and the time of the checkpoint
    keep a value they already have and take the new one otherwise; the three
    counts of the checkpoint are overwritten; the columns of every other
    checkpoint are kept. *)
Theorem upsert_snapshot_first_write_wins (db : tables) (now sub : Z) (handle url : string)
    (media_type : option string) (posted_at : option Z) (checkpoint : string)
    (views likes comments : option Z) :
  in_field_map checkpoint = true ->
  let db' := upsert_snapshot db now sub handle url media_type posted_at checkpoint
               views likes comments in
  let before :=
    match get_snapshots db sub handle url with
    | Some old => old
    | None =>
        {| snap_subscriber_id := sub; snap_handle := handle; snap_post_url := url;
           snap_media_type := media_type; snap_posted_at := posted_at;
           snap_d1 := no_triple; snap_d3 := no_triple;
           snap_d7 := no_triple; snap_d21 := no_triple |}
    end in
  exists new old_columns,
    get_snapshots db' sub handle url = Some new /\
    snap_posted_at new = snap_posted_at before /\
    snap_media_type new = coalesce (snap_media_type before) media_type /\
    checkpoint_columns checkpoint before = Some old_columns /\
    checkpoint_columns checkpoint new =
      Some {| t_at := coalesce (t_at old_columns) (Some now);
              t_views := views; t_likes := likes; t_comments := comments |} /\
    (forall other, other <> checkpoint ->
       checkpoint_columns other new = checkpoint_columns other before).
Proof.
  intros F db' before.
  destruct (checkpoint_columns_known checkpoint before F) as [old Hold].
  exists (set_checkpoint_columns checkpoint
            {| t_at := coalesce (t_at old) (Some now); t_views := views;
               t_likes := likes; t_comments := comments |}
            (set_media_type (coalesce (snap_media_type before) media_type) before)), old.
  split; [|split; [reflexivity|split; [reflexivity|split; [exact Hold|split]]]].
  - subst db'. unfold get_snapshots, upsert_snapshot. cbn [post_snapshots].
    rewrite F. cbn [negb].
    set (key := snapshot_key sub handle url).
    pose proof (find_map_update key
      (fun r => match checkpoint_columns checkpoint r with
                | Some old =>
                    set_checkpoint_columns checkpoint
                      {| t_at := coalesce (t_at old) (Some now); t_views := views;
                         t_likes := likes; t_comments := comments |}
                      (set_media_type (coalesce (snap_media_type r) media_type) r)
                | None => r
                end)) as Hfind.
    cbv beta in Hfind. rewrite Hfind; clear Hfind.
    2:{ intros r Hr. destruct (checkpoint_columns checkpoint r); exact Hr. }
    set (rows1 := if existsb key (post_snapshots db) then post_snapshots db else _).
    assert (Hb : find key rows1 = Some before).
    { subst before rows1. unfold get_snapshots. fold key.
      destruct (find key (post_snapshots db)) as [old0|] eqn:E.
      - now rewrite (find_some_existsb _ _ _ E).
      - rewrite (find_none_existsb _ _ E).
        apply find_app_new; [now apply find_none_existsb|now apply snapshot_key_fresh]. }
    rewrite Hb. cbn [option_map]. now rewrite Hold.
  - now apply checkpoint_columns_set.
  - intros other Hne. now apply checkpoint_columns_other.
Qed.

Lemma upsert_snapshot_first_write_wins_witness :
  let db := {| post_snapshots :=
                 [Sample.video "own" (Sample.views_only 10) no_triple];
               post_signals := []; post_checkpoint_metrics := [] |} in
  exists new,
    get_snapshots
      (upsert_snapshot db 99 1 "h" "own" (Some "Image"%string) (Some 5) "d1"
         (Some 20) None None) 1 "h" "own" = Some new /\
    snap_media_type new = Some "Video"%string /\
    snap_posted_at new = Some 0 /\
    snap_d1 new = {| t_at := Some 0; t_views := Some 20; t_likes := None;
                     t_comments := None |}.
Proof.
  intros db.
  destruct (upsert_snapshot_first_write_wins db 99 1 "h" "own" (Some "Image"%string)
              (Some 5) "d1" (Some 20) None None eq_refl)
    as (new & old & Hget & Hp & Hm & Hold & Hnew & _).
  exists new. split; [exact Hget|]. split; [exact Hm|]. split; [exact Hp|].
  injection Hold as <-. injection Hnew as ->. reflexivity.
Defined.


Lemma filter_map_upd_out {A : Type} (key P : A -> bool) (f : A -> A) (l : list A) :
  (forall r, key r = true -> P r = false /\ P (f r) = false) ->
  filter P (map (fun r => if key r then f r else r) l) = filter P l.
Proof.
  intros H. induction l as [|r l IH]; simpl; [reflexivity|].
  rewrite IH. destruct (key r) eqn:E; [|reflexivity].
  destruct (H r E) as [-> ->]. reflexivity.
Qed.

Lemma filter_app_out {A : Type} (P : A -> bool) (l : list A) (x : A) :
  P x = false -> filter P (l ++ [x]) = filter P l.
Proof.
  intros H. rewrite filter_app. simpl. rewrite H. apply app_nil_r.
Qed.

(** The rows of [post_checkpoint_metrics] of a post, whatever the
    checkpoint. *)
Lemma upsert_checkpoint_metric_others (P : checkpoint_metric -> bool) (db : tables)
    (now sub : Z) (handle url checkpoint stage : string) (v l c : option Z)
    (mv vv : option Q) (t q : option string) :
  (forall r, cm_subscriber_id r = sub -> cm_handle r = handle -> cm_post_url r = url ->
             P r = false) ->
  filter P (post_checkpoint_metrics
              (upsert_checkpoint_metric db now sub handle url checkpoint stage
                 v l c mv vv t q)) =
  filter P (post_checkpoint_metrics db).
Proof.
  intros HP. unfold upsert_checkpoint_metric. cbn [post_checkpoint_metrics].
  destruct (existsb _ _).
  - apply filter_map_upd_out. intros r Hr.
    unfold metric_key in Hr. apply andb_true_iff in Hr. destruct Hr as [Hr _].
    apply andb_true_iff in Hr. destruct Hr as [Hr Hu].
    apply andb_true_iff in Hr. destruct Hr as [Hs Hh].
    apply Z.eqb_eq in Hs. apply String.eqb_eq in Hh, Hu.
    split; apply HP; auto.
  - apply filter_app_out. apply HP; reflexivity.
Qed.

Lemma set_velocity_fields (a b c : string) (n : norm) :
  let n' := set_velocity a b c n in
  n_post_url n' = n_post_url n /\ n_media_type n' = n_media_type n /\
  n_views n' = n_views n /\ n_likes n' = n_likes n /\
  n_comments n' = n_comments n /\ n_caption n' = n_caption n.
Proof. repeat split. Qed.

Lemma shown_fields (a b c : string) (n : norm) :
  let n' := shown a b c n in
  n_post_url n' = n_post_url n /\ n_media_type n' = n_media_type n /\
  n_views n' = n_views n /\ n_likes n' = n_likes n /\
  n_comments n' = n_comments n /\ n_caption n' = n_caption n.
Proof. unfold shown. destruct (a =? INSUFFICIENT_DATA)%string; repeat split. Qed.

(** X17. [_apply_velocity] touches one post only: the snapshots, signals and
    checkpoint metrics of every other post stay as they were, and in the
    record of the sheet row nothing but the three velocity cells changes. *)
Theorem apply_velocity_frame (db : tables) (now sub : Z) (handle : string)
    (it : item) (n : norm) (forced_checkpoint : option string) :
  let '(db', n') := _apply_velocity db now sub handle it n forced_checkpoint in
  let url := n_post_url n in
  filter (fun r => negb (snapshot_key sub handle url r)) (post_snapshots db') =
    filter (fun r => negb (snapshot_key sub handle url r)) (post_snapshots db) /\
  filter (fun r => negb (signal_key sub handle url r)) (post_signals db') =
    filter (fun r => negb (signal_key sub handle url r)) (post_signals db) /\
  filter (fun r => negb ((cm_subscriber_id r =? sub) && (cm_handle r =? handle)%string
                         && (cm_post_url r =? url)%string))
         (post_checkpoint_metrics db') =
    filter (fun r => negb ((cm_subscriber_id r =? sub) && (cm_handle r =? handle)%string
                           && (cm_post_url r =? url)%string))
           (post_checkpoint_metrics db) /\
  n_post_url n' = n_post_url n /\ n_media_type n' = n_media_type n /\
  n_views n' = n_views n /\ n_likes n' = n_likes n /\
  n_comments n' = n_comments n /\ n_caption n' = n_caption n.
Proof.
  unfold _apply_velocity.
  destruct (item_posted_at it) as [posted_at|]; [|repeat split].
  unfold apply_velocity_at.
  set (age := (inject_Z (now - posted_at) / 3600)%Q).
  set (checkpoint := match forced_checkpoint with
                     | Some c => if truthy c then c else fst (_checkpoint_from_age age)
                     | None => fst (_checkpoint_from_age age)
                     end).
  set (n0 := set_velocity (n_velocity n) (n_velocity_percentile n)
               (_stage_label checkpoint age) n).
  change (n_post_url n0) with (n_post_url n).
  change (n_media_type n0) with (n_media_type n).
  change (n_caption n0) with (n_caption n).
  change (n_views n0) with (n_views n).
  change (n_likes n0) with (n_likes n).
  change (n_comments n0) with (n_comments n).
  set (url := n_post_url n).
  assert (HPm : forall r : checkpoint_metric,
             cm_subscriber_id r = sub -> cm_handle r = handle -> cm_post_url r = url ->
             negb ((cm_subscriber_id r =? sub) && (cm_handle r =? handle)%string
                   && (cm_post_url r =? url)%string) = false).
  { intros r -> -> ->. now rewrite Z.eqb_refl, !String.eqb_refl. }
  set (gate := if (checkpoint =? "d21")%string then _ else None).
  destruct gate as [[snap d7_tag]|].
  - destruct (_velocity_from_snapshots db sub handle snap it "d7") as [d7p d7t].
    set (tag := if truthy d7t then d7t else or_else d7_tag TAG_CHECK).
    split; [reflexivity|]. split; [|split].
    + apply (upsert_post_signal_rows db sub handle url).
    + rewrite (upsert_checkpoint_metric_others _ _ _ _ _ _ _ _ _ _ _ _ _ _ _ HPm).
      reflexivity.
    + exact (shown_fields _ _ _ n0).
  - set (db1 := upsert_snapshot db now sub handle url (Some (n_media_type n))
                  (Some posted_at) checkpoint _ _ _).
    assert (H1 : filter (fun r => negb (snapshot_key sub handle url r)) (post_snapshots db1) =
                 filter (fun r => negb (snapshot_key sub handle url r)) (post_snapshots db) /\
                 post_signals db1 = post_signals db /\
                 post_checkpoint_metrics db1 = post_checkpoint_metrics db).
    { destruct (upsert_snapshot_rows db now sub handle url (Some (n_media_type n))
                  (Some posted_at) checkpoint (_safe_int (n_views n))
                  (_safe_int (n_likes n)) (_safe_int (n_comments n)))
        as (A & _). fold db1 in A. split; [exact A|]. split; reflexivity. }
    destruct H1 as (S1 & S2 & S3).
    destruct (get_snapshots db1 sub handle url) as [snap|].
    + destruct (_velocity_from_snapshots db1 sub handle snap it checkpoint) as [pct tg].
      split; [exact S1|]. split; [|split].
      * cbn [post_signals upsert_checkpoint_metric].
        rewrite <- S2. apply (upsert_post_signal_rows db1 sub handle url).
      * rewrite (upsert_checkpoint_metric_others _ _ _ _ _ _ _ _ _ _ _ _ _ _ _ HPm).
        cbn [post_checkpoint_metrics upsert_post_signal]. now rewrite S3.
      * exact (shown_fields _ _ _ n0).
    + rewrite S2, S3. split; [exact S1|]. repeat split.
Qed.

Lemma upsert_snapshot_row_exists (db : tables) (now sub : Z) (handle url : string)
    (media_type : option string) (posted_at : option Z) (checkpoint : string)
    (views likes comments : option Z) :
  exists snap,
    get_snapshots
      (upsert_snapshot db now sub handle url media_type posted_at checkpoint
         views likes comments) sub handle url = Some snap.
Proof.
  pose proof (upsert_snapshot_rows db now sub handle url media_type posted_at checkpoint
                views likes comments) as (_ & H).
  unfold get_snapshots.
  destruct (find _ _) as [snap|] eqn:E; [eauto|].
  apply find_none_existsb in E. rewrite (own_absent _ _ E) in H.
  cbn [List.length] in H. lia.
Qed.

Lemma upsert_post_signal_row (db : tables) (sub : Z) (handle url : string)
    (m : option string) (p : Z) (c t s q : option string) :
  exists row,
    find (signal_key sub handle url)
      (post_signals (upsert_post_signal db sub handle url m (Some p) c t s q)) = Some row /\
    sig_velocity_tag row = t /\ sig_velocity_stage row = s /\
    sig_velocity_percentile row = q /\ sig_posted_at row = Some p /\
    sig_media_type row = m /\ sig_caption row = c.
Proof.
  unfold upsert_post_signal. cbn [post_signals].
  set (key := signal_key sub handle url).
  destruct (existsb key (post_signals db)) eqn:E.
  - destruct (existsb_find _ _ E) as (r & Hr & _).
    pose proof (find_map_update key
      (fun r => {| sig_subscriber_id := sub; sig_handle := handle; sig_post_url := url;
                   sig_media_type := m;
                   sig_posted_at := coalesce (Some p) (sig_posted_at r);
                   sig_caption := c; sig_velocity_tag := t; sig_velocity_stage := s;
                   sig_velocity_percentile := q |}) (post_signals db)) as Hf.
    cbv beta in Hf. rewrite Hf by (intros r0 _; now apply signal_key_fresh).
    rewrite Hr. cbn [option_map]. eexists. split; [reflexivity|]. repeat split.
  - eexists. split; [apply find_app_new; [exact E|now apply signal_key_fresh]|].
    repeat split.
Qed.

Lemma upsert_checkpoint_metric_row (db : tables) (now sub : Z)
    (handle url checkpoint stage : string) (v l c : option Z)
    (mv vv : option Q) (t q : option string) :
  exists row,
    find (metric_key sub handle url checkpoint)
      (post_checkpoint_metrics
         (upsert_checkpoint_metric db now sub handle url checkpoint stage
            v l c mv vv t q)) = Some row /\
    cm_velocity_tag row = t /\ cm_velocity_percentile row = q /\
    cm_stage_label row = stage /\ cm_checkpoint_at row = now.
Proof.
  unfold upsert_checkpoint_metric. cbn [post_checkpoint_metrics].
  set (key := metric_key sub handle url checkpoint).
  destruct (existsb key (post_checkpoint_metrics db)) eqn:E.
  - destruct (existsb_find _ _ E) as (r & Hr & _).
    pose proof (find_map_update key
      (fun _ => {| cm_subscriber_id := sub; cm_handle := handle; cm_post_url := url;
                   cm_checkpoint := checkpoint; cm_checkpoint_at := now;
                   cm_stage_label := stage;
                   cm_views := v; cm_likes := l; cm_comments := c;
                   cm_metric_value := mv; cm_velocity_value := vv;
                   cm_velocity_tag := t; cm_velocity_percentile := q |})
      (post_checkpoint_metrics db)) as Hf.
    cbv beta in Hf. rewrite Hf by (intros r0 _; now apply metric_key_fresh).
    rewrite Hr. cbn [option_map]. eexists. split; [reflexivity|]. repeat split.
  - eexists. split; [apply find_app_new; [exact E|now apply metric_key_fresh]|].
    repeat split.
Qed.

Lemma or_else_truthy (a : option string) (b : string) :
  truthy b = true -> truthy (or_else a b) = true.
Proof.
  intros H. destruct a as [s|]; [|exact H]. simpl.
  destruct (truthy s) eqn:E; [exact E|exact H].
Qed.

Lemma shown_velocity (tag pct stage : string) (n : norm) :
  let n' := shown tag pct stage n in
  n_velocity_stage n' = stage /\
  n_velocity n' = (if (tag =? INSUFFICIENT_DATA)%string then ""%string else tag) /\
  n_velocity_percentile n' =
    (if (tag =? INSUFFICIENT_DATA)%string then ""%string else pct) /\
  n_velocity n' <> INSUFFICIENT_DATA.
Proof.
  unfold shown. destruct (tag =? INSUFFICIENT_DATA)%string eqn:E.
  - repeat split. discriminate.
  - repeat split. cbn. now apply String.eqb_neq.
Qed.

Lemma shown_media_type (a b c : string) (n : norm) :
  n_media_type (shown a b c n) = n_media_type n.
Proof. apply shown_fields. Qed.

Lemma shown_caption (a b c : string) (n : norm) :
  n_caption (shown a b c n) = n_caption n.
Proof. apply shown_fields. Qed.

(** X18. For an item with a posting time [_apply_velocity] always leaves a
    signal of the post with a non-empty tag and that posting time, and a
    checkpoint metric with the same tag, percentile and stage; the sheet row
    shows the stage, tag and percentile of that signal, except that the
    insufficient-data sentinel is shown as two empty cells, so the sentinel
    never reaches the sheet. *)
Theorem apply_velocity_shows_stored_signal (db : tables) (now sub : Z) (handle : string)
    (it : item) (n : norm) (forced_checkpoint : option string) (posted_at : Z) :
  item_posted_at it = Some posted_at ->
  let '(db', n') := _apply_velocity db now sub handle it n forced_checkpoint in
  let url := n_post_url n in
  exists row tag pct stage,
    find (signal_key sub handle url) (post_signals db') = Some row /\
    sig_velocity_tag row = Some tag /\
    sig_velocity_percentile row = Some pct /\
    sig_velocity_stage row = Some stage /\
    sig_posted_at row = Some posted_at /\
    truthy tag = true /\
    n_velocity_stage n' = stage /\
    n_velocity n' = (if (tag =? INSUFFICIENT_DATA)%string then ""%string else tag) /\
    n_velocity_percentile n' =
      (if (tag =? INSUFFICIENT_DATA)%string then ""%string else pct) /\
    n_velocity n' <> INSUFFICIENT_DATA /\
    exists checkpoint mrow,
      find (metric_key sub handle url checkpoint) (post_checkpoint_metrics db') = Some mrow /\
      cm_velocity_tag mrow = Some tag /\
      cm_velocity_percentile mrow = Some pct /\
      cm_stage_label mrow = stage /\
      cm_checkpoint_at mrow = now.
Proof.
  intros Hposted. unfold _apply_velocity. rewrite Hposted.
  unfold apply_velocity_at.
  set (age := (inject_Z (now - posted_at) / 3600)%Q).
  set (checkpoint := match forced_checkpoint with
                     | Some c => if truthy c then c else fst (_checkpoint_from_age age)
                     | None => fst (_checkpoint_from_age age)
                     end).
  set (n0 := set_velocity (n_velocity n) (n_velocity_percentile n)
               (_stage_label checkpoint age) n).
  change (n_post_url n0) with (n_post_url n).
  change (n_media_type n0) with (n_media_type n).
  change (n_caption n0) with (n_caption n).
  change (n_views n0) with (n_views n).
  change (n_likes n0) with (n_likes n).
  change (n_comments n0) with (n_comments n).
  set (url := n_post_url n).
  set (gate := if (checkpoint =? "d21")%string then _ else None).
  destruct gate as [[snap d7_tag]|].
  - destruct (_velocity_from_snapshots db sub handle snap it "d7") as [d7p d7t].
    cbv zeta. rewrite !shown_media_type, !shown_caption.
    change (n_media_type n0) with (n_media_type n).
    change (n_caption n0) with (n_caption n).
    set (tag := if truthy d7t then d7t else or_else d7_tag TAG_CHECK).
    set (pct := or_else d7p "").
    set (stage := _stage_label "d7" age).
    destruct (upsert_post_signal_row db sub handle url (Some (n_media_type n)) posted_at
                (Some (n_caption n)) (Some tag) (Some stage) (Some pct))
      as (row & Hrow & Ht & Hs & Hq & Hp & _).
    exists row, tag, pct, stage.
    split; [exact Hrow|]. split; [exact Ht|]. split; [exact Hq|]. split; [exact Hs|].
    split; [exact Hp|]. split.
    { unfold tag. destruct (truthy d7t) eqn:E; [exact E|now apply or_else_truthy]. }
    destruct (shown_velocity tag pct stage n0) as (A & B & C & D).
    split; [exact A|]. split; [exact B|]. split; [exact C|]. split; [exact D|].
    exists "d7"%string.
    destruct (upsert_checkpoint_metric_row
                (upsert_post_signal db sub handle url (Some (n_media_type n))
                   (Some posted_at) (Some (n_caption n)) (Some tag) (Some stage) (Some pct))
                now sub handle url "d7" stage
                (t_views (snap_d7 snap)) (t_likes (snap_d7 snap)) (t_comments (snap_d7 snap))
                (_metric_for_checkpoint snap it "d7")
                (match _metric_for_checkpoint snap it "d7" with
                 | Some m => Some (m / 7)%Q
                 | None => None
                 end) (Some tag) (Some pct)) as (mrow & Hm & M1 & M2 & M3 & M4).
    exists mrow. auto.
  - set (db1 := upsert_snapshot db now sub handle url (Some (n_media_type n))
                  (Some posted_at) checkpoint _ _ _).
    destruct (upsert_snapshot_row_exists db now sub handle url (Some (n_media_type n))
                (Some posted_at) checkpoint (_safe_int (n_views n))
                (_safe_int (n_likes n)) (_safe_int (n_comments n))) as [snap Hsnap].
    fold db1 in Hsnap. rewrite Hsnap.
    destruct (_velocity_from_snapshots db1 sub handle snap it checkpoint) as [p tg].
    cbv zeta. rewrite !shown_media_type, !shown_caption.
    change (n_media_type n0) with (n_media_type n).
    change (n_caption n0) with (n_caption n).
    set (tag := if truthy tg then tg else TAG_CHECK).
    set (pct := or_else p "").
    set (stage := _stage_label checkpoint age).
    destruct (upsert_post_signal_row db1 sub handle url (Some (n_media_type n)) posted_at
                (Some (n_caption n)) (Some tag) (Some stage) (Some pct))
      as (row & Hrow & Ht & Hs & Hq & Hp & _).
    exists row, tag, pct, stage.
    split; [exact Hrow|]. split; [exact Ht|]. split; [exact Hq|]. split; [exact Hs|].
    split; [exact Hp|]. split.
    { unfold tag. destruct (truthy tg) eqn:E; [exact E|reflexivity]. }
    destruct (shown_velocity tag pct stage n0) as (A & B & C & D).
    split; [exact A|]. split; [exact B|]. split; [exact C|]. split; [exact D|].
    exists checkpoint.
    destruct (upsert_checkpoint_metric_row
                (upsert_post_signal db1 sub handle url (Some (n_media_type n))
                   (Some posted_at) (Some (n_caption n)) (Some tag) (Some stage) (Some pct))
                now sub handle url checkpoint
                (if truthy stage then stage else _stage_label checkpoint age)
                (_safe_int (n_views n)) (_safe_int (n_likes n)) (_safe_int (n_comments n))
                (Some (_metric_value it (_safe_int (n_views n)) (_safe_int (n_likes n))
                         (_safe_int (n_comments n))))
                (if 0 <? _checkpoint_days checkpoint
                 then Some (_metric_value it (_safe_int (n_views n)) (_safe_int (n_likes n))
                              (_safe_int (n_comments n)) / inject_Z (_checkpoint_days checkpoint))%Q
                 else None)
                (Some tag) (Some pct)) as (mrow & Hm & M1 & M2 & M3 & M4).
    exists mrow. split; [exact Hm|]. split; [exact M1|]. split; [exact M2|].
    split; [|exact M4]. rewrite M3. destruct (truthy stage); reflexivity.
Qed.

Lemma apply_velocity_shows_stored_signal_witness :
  let n := {| n_post_url := "own"; n_media_type := "Video"; n_views := "500";
              n_likes := "3"; n_comments := "1"; n_caption := "";
              n_velocity := ""; n_velocity_percentile := ""; n_velocity_stage := "" |} in
  let '(db', n') := _apply_velocity Sample.no_tables 3600 1 "h" Sample.video_item n None in
  n_velocity n' <> INSUFFICIENT_DATA /\
  exists row, find (signal_key 1 "h" "own") (post_signals db') = Some row /\
              sig_velocity_tag row = Some INSUFFICIENT_DATA.
Proof.
  intros n.
  pose proof (apply_velocity_shows_stored_signal Sample.no_tables 3600 1 "h"
                Sample.video_item n None 0 eq_refl) as H.
  destruct (_apply_velocity Sample.no_tables 3600 1 "h" Sample.video_item n None)
    as [db' n'] eqn:E.
  destruct H as (row & tag & pct & stage & Hrow & Ht & _ & _ & _ & _ & _ & _ & _ & D & _).
  split; [exact D|]. exists row. split; [exact Hrow|].
  vm_compute in E. injection E as <- _. vm_compute in Hrow. injection Hrow as <-.
  reflexivity.
Defined.

End StoreLaws.

(* ------------------------------------------------------------------ *)
(** ** Laws of the queues, the breaker and the alert insert *)

Module QueueLaws.
Import Py Classifier Store Queue Worker Enqueue WorkerFacts Alerts.

Lemma insert_post_job_spec (id sub : Z) (sheet handle url checkpoint : string)
    (requires : bool) (run_at : Z) (q : list post_job) :
  let q' := insert_post_job id sub sheet handle url checkpoint requires run_at q in
  let row := {| pj_id := id; pj_subscriber_id := sub; pj_spreadsheet_id := sheet;
                pj_handle := handle; pj_post_url := url; pj_checkpoint := checkpoint;
                pj_requires_d7_hot := requires; pj_attempt := 0;
                pj_next_run_at := run_at; pj_status := pending;
                pj_last_error := None |} in
  existsb (checkpoint_conflict sub handle url checkpoint) q' = true /\
  (existsb (checkpoint_conflict sub handle url checkpoint) q = true /\ q' = q \/
   existsb (checkpoint_conflict sub handle url checkpoint) q = false /\ q' = q ++ [row]).
Proof.
  intros q' row. subst q'. unfold insert_post_job.
  destruct (existsb _ q) eqn:E.
  - split; [exact E|left; auto].
  - split; [|right; auto].
    rewrite existsb_app. cbn. unfold checkpoint_conflict at 2. cbn.
    rewrite Z.eqb_refl, !String.eqb_refl. apply orb_true_r.
Qed.

Lemma insert_post_job_keeps (P : post_job -> bool) (id sub : Z)
    (sheet handle url checkpoint : string) (requires : bool) (run_at : Z)
    (q : list post_job) :
  existsb P q = true ->
  existsb P (insert_post_job id sub sheet handle url checkpoint requires run_at q) = true.
Proof.
  intros H. unfold insert_post_job.
  destruct (existsb (checkpoint_conflict sub handle url checkpoint) q) eqn:E; [exact H|].
  rewrite existsb_app, H. reflexivity.
Qed.

Lemma insert_post_job_present (id sub : Z) (sheet handle url checkpoint : string)
    (requires : bool) (run_at : Z) (q : list post_job) :
  existsb (checkpoint_conflict sub handle url checkpoint) q = true ->
  insert_post_job id sub sheet handle url checkpoint requires run_at q = q.
Proof.
  intros H. unfold insert_post_job. now rewrite H.
Qed.

Lemma checkpoint_conflict_fields (sub : Z) (handle url checkpoint : string) (j : post_job) :
  checkpoint_conflict sub handle url checkpoint j = true <->
  pj_subscriber_id j = sub /\ pj_handle j = handle /\ pj_post_url j = url /\
  pj_checkpoint j = checkpoint.
Proof.
  unfold checkpoint_conflict.
  rewrite !andb_true_iff, Z.eqb_eq, !String.eqb_eq. tauto.
Qed.

Lemma insert_post_job_unique (id sub : Z) (sheet handle url checkpoint : string)
    (requires : bool) (run_at : Z) (q : list post_job) :
  unique_checkpoints q ->
  unique_checkpoints (insert_post_job id sub sheet handle url checkpoint requires run_at q).
Proof.
  intros Hu. unfold insert_post_job.
  destruct (existsb _ q) eqn:E; [exact Hu|].
  apply AlertSpec.ForallOrdPairs_snoc; [exact Hu|].
  apply Forall_forall. intros a Ha (H1 & H2 & H3 & H4). cbn in H1, H2, H3, H4.
  pose proof (AlertSpec.existsb_false_In _ _ a E Ha) as Hc.
  assert (checkpoint_conflict sub handle url checkpoint a = true); [|congruence].
  apply checkpoint_conflict_fields. auto.
Qed.

(** After [ensure_post_checkpoint_jobs] the post has its three jobs. *)
Lemma ensure_covers_checkpoints (ids : Z * Z * Z) (sub : Z)
    (sheet handle url : string) (posted_at : Z) (st : state) (checkpoint : string) :
  truthy url = true ->
  In checkpoint ["d3"; "d7"; "d21"]%string ->
  existsb (checkpoint_conflict sub handle url checkpoint)
    (post_queue (ensure_post_checkpoint_jobs ids sub sheet handle url (Some posted_at) st))
  = true.
Proof.
  intros Hurl Hin. unfold ensure_post_checkpoint_jobs.
  rewrite Hurl. cbn [negb]. destruct ids as [[id3 id7] id21].
  cbn [post_queue with_post_queue].
  destruct Hin as [<-|[<-|[<-|[]]]].
  - do 2 apply insert_post_job_keeps. apply insert_post_job_spec.
  - apply insert_post_job_keeps. apply insert_post_job_spec.
  - apply insert_post_job_spec.
Qed.

(** X19. For a post with a URL and a posting time
    [ensure_post_checkpoint_jobs] only appends to the post queue: after it
    the post has a job for each of d3, d7 and d21, and never a new one where
    it had one already, so the unique index on post and checkpoint keeps
    holding; each job added is pending, runs at the
    posting time plus the days of its checkpoint as [_checkpoint_days] counts
    them, and waits for a hot D7 exactly when it is the d21 job. *)
Theorem ensure_post_checkpoint_jobs_schedule (ids : Z * Z * Z) (sub : Z)
    (sheet handle url : string) (posted_at : Z) (st : state) :
  truthy url = true ->
  let st' := ensure_post_checkpoint_jobs ids sub sheet handle url (Some posted_at) st in
  db st' = db st /\ run_queue st' = run_queue st /\ apify_health st' = apify_health st /\
  (unique_checkpoints (post_queue st) -> unique_checkpoints (post_queue st')) /\
  (forall checkpoint, In checkpoint ["d3"; "d7"; "d21"]%string ->
     existsb (checkpoint_conflict sub handle url checkpoint) (post_queue st') = true) /\
  exists added,
    post_queue st' = post_queue st ++ added /\
    forall j, In j added ->
      pj_subscriber_id j = sub /\ pj_spreadsheet_id j = sheet /\ pj_handle j = handle /\
      pj_post_url j = url /\
      In (pj_checkpoint j) ["d3"; "d7"; "d21"]%string /\
      existsb (checkpoint_conflict sub handle url (pj_checkpoint j)) (post_queue st) = false /\
      pj_next_run_at j = posted_at + _checkpoint_days (pj_checkpoint j) * 86400 /\
      pj_requires_d7_hot j = (pj_checkpoint j =? "d21")%string /\
      pj_status j = pending.
Proof.
  intros Hurl st'. subst st'. unfold ensure_post_checkpoint_jobs.
  rewrite Hurl. cbn [negb]. destruct ids as [[id3 id7] id21].
  cbn [db run_queue apify_health post_queue with_post_queue].
  split; [reflexivity|]. split; [reflexivity|]. split; [reflexivity|].
  set (q0 := post_queue st).
  set (q1 := insert_post_job id3 sub sheet handle url "d3" false (posted_at + days 3) q0).
  set (q2 := insert_post_job id7 sub sheet handle url "d7" false (posted_at + days 7) q1).
  set (q3 := insert_post_job id21 sub sheet handle url "d21" true (posted_at + days 21) q2).
  destruct (insert_post_job_spec id3 sub sheet handle url "d3" false (posted_at + days 3) q0)
    as [P1 S1].
  destruct (insert_post_job_spec id7 sub sheet handle url "d7" false (posted_at + days 7) q1)
    as [P2 S2].
  destruct (insert_post_job_spec id21 sub sheet handle url "d21" true (posted_at + days 21) q2)
    as [P3 S3].
  cbv zeta in P1, S1, P2, S2, P3, S3. fold q1 in P1, S1, P2, S2. fold q2 in P2, S2, P3, S3.
  fold q3 in P3, S3.
  split; [|split].
  - intros Hu. unfold q3, q2, q1. do 3 apply insert_post_job_unique. exact Hu.
  - intros checkpoint [<-|[<-|[<-|[]]]].
    + unfold q3, q2. do 2 apply insert_post_job_keeps. exact P1.
    + unfold q3. apply insert_post_job_keeps. exact P2.
    + exact P3.
  - assert (A1 : exists a1, q1 = q0 ++ a1 /\
        forall j, In j a1 ->
          j = {| pj_id := id3; pj_subscriber_id := sub; pj_spreadsheet_id := sheet;
                 pj_handle := handle; pj_post_url := url; pj_checkpoint := "d3";
                 pj_requires_d7_hot := false; pj_attempt := 0;
                 pj_next_run_at := posted_at + days 3; pj_status := pending;
                 pj_last_error := None |} /\
          existsb (checkpoint_conflict sub handle url "d3") q0 = false).
    { destruct S1 as [[_ ->]|[E ->]].
      - exists []. split; [now rewrite app_nil_r|intros j []].
      - eexists. split; [reflexivity|]. intros j [<-|[]]. auto. }
    assert (A2 : exists a2, q2 = q1 ++ a2 /\
        forall j, In j a2 ->
          j = {| pj_id := id7; pj_subscriber_id := sub; pj_spreadsheet_id := sheet;
                 pj_handle := handle; pj_post_url := url; pj_checkpoint := "d7";
                 pj_requires_d7_hot := false; pj_attempt := 0;
                 pj_next_run_at := posted_at + days 7; pj_status := pending;
                 pj_last_error := None |} /\
          existsb (checkpoint_conflict sub handle url "d7") q1 = false).
    { destruct S2 as [[_ ->]|[E ->]].
      - exists []. split; [now rewrite app_nil_r|intros j []].
      - eexists. split; [reflexivity|]. intros j [<-|[]]. auto. }
    assert (A3 : exists a3, q3 = q2 ++ a3 /\
        forall j, In j a3 ->
          j = {| pj_id := id21; pj_subscriber_id := sub; pj_spreadsheet_id := sheet;
                 pj_handle := handle; pj_post_url := url; pj_checkpoint := "d21";
                 pj_requires_d7_hot := true; pj_attempt := 0;
                 pj_next_run_at := posted_at + days 21; pj_status := pending;
                 pj_last_error := None |} /\
          existsb (checkpoint_conflict sub handle url "d21") q2 = false).
    { destruct S3 as [[_ ->]|[E ->]].
      - exists []. split; [now rewrite app_nil_r|intros j []].
      - eexists. split; [reflexivity|]. intros j [<-|[]]. auto. }
    destruct A1 as (a1 & E1 & H1), A2 as (a2 & E2 & H2), A3 as (a3 & E3 & H3).
    exists (a1 ++ a2 ++ a3). split.
    { rewrite E3, E2, E1. now rewrite <- !app_assoc. }
    assert (M : forall P (qa qb : list post_job),
               existsb P (qa ++ qb) = false -> existsb P qa = false).
    { intros P qa qb H. rewrite existsb_app in H. now apply orb_false_iff in H. }
    intros j Hj. apply in_app_or in Hj. destruct Hj as [Hj|Hj].
    { destruct (H1 j Hj) as [-> F]. cbn. repeat split; auto. }
    apply in_app_or in Hj. destruct Hj as [Hj|Hj].
    { destruct (H2 j Hj) as [-> F]. rewrite E1 in F. apply M in F.
      cbn. repeat split; auto. }
    destruct (H3 j Hj) as [-> F]. rewrite E2, E1 in F. apply M in F. apply M in F.
    cbn. repeat split; auto.
Qed.

Lemma ensure_post_checkpoint_jobs_schedule_witness :
  let st := ensure_post_checkpoint_jobs (1, 2, 3) 1 "sheet" "h" "own" (Some 1000)
              Sample.quiet in
  existsb (checkpoint_conflict 1 "h" "own" "d3") (post_queue st) = true /\
  existsb (checkpoint_conflict 1 "h" "own" "d7") (post_queue st) = true /\
  existsb (checkpoint_conflict 1 "h" "own" "d21") (post_queue st) = true /\
  map pj_next_run_at (post_queue st) = [1000 + 3 * 86400; 1000 + 7 * 86400; 1000 + 21 * 86400].
Proof.
  intros st.
  destruct (ensure_post_checkpoint_jobs_schedule (1, 2, 3) 1 "sheet" "h" "own" 1000
              Sample.quiet eq_refl) as (_ & _ & _ & _ & Hall & _).
  split; [apply Hall; simpl; tauto|].
  split; [apply Hall; simpl; tauto|].
  split; [apply Hall; simpl; tauto|reflexivity].
Defined.

(** X20. Once [ensure_post_checkpoint_jobs] has run for a post, running it
    again for that post changes nothing, whatever posting time and
    spreadsheet the later call brings: a job once scheduled is never
    rescheduled. *)
Theorem ensure_post_checkpoint_jobs_idempotent (ids ids' : Z * Z * Z) (sub : Z)
    (sheet sheet' handle url : string) (posted_at : Z) (posted_at' : option Z)
    (st : state) :
  let once := ensure_post_checkpoint_jobs ids sub sheet handle url (Some posted_at) st in
  ensure_post_checkpoint_jobs ids' sub sheet' handle url posted_at' once = once.
Proof.
  intros once. destruct (truthy url) eqn:Hurl.
  - assert (Hall : forall checkpoint, In checkpoint ["d3"; "d7"; "d21"]%string ->
              existsb (checkpoint_conflict sub handle url checkpoint) (post_queue once)
              = true).
    { intros checkpoint Hin. now apply ensure_covers_checkpoints. }
    unfold ensure_post_checkpoint_jobs at 1. rewrite Hurl. cbn [negb].
    destruct posted_at' as [t'|]; [|reflexivity].
    destruct ids' as [[id3 id7] id21].
    rewrite (insert_post_job_present id3 sub sheet' handle url "d3")
      by (apply Hall; simpl; tauto).
    rewrite (insert_post_job_present id7 sub sheet' handle url "d7")
      by (apply Hall; simpl; tauto).
    rewrite (insert_post_job_present id21 sub sheet' handle url "d21")
      by (apply Hall; simpl; tauto).
    apply with_post_queue_same.
  - subst once. unfold ensure_post_checkpoint_jobs. now rewrite Hurl.
Qed.

Lemma earlier_spec (a b : Z * Z) :
  earlier a b = true <-> fst a < fst b \/ (fst a = fst b /\ snd a < snd b).
Proof.
  unfold earlier. rewrite orb_true_iff, andb_true_iff, !Z.ltb_lt, Z.eqb_eq. tauto.
Qed.

Lemma not_earlier_spec (a b : Z * Z) :
  earlier a b = false <-> fst b < fst a \/ (fst b = fst a /\ snd b <= snd a).
Proof.
  unfold earlier. rewrite orb_false_iff, andb_false_iff, !Z.ltb_ge, Z.eqb_neq. lia.
Qed.

(** The first row of [ORDER BY next_run_at ASC, id ASC] has no row before
    it. *)
Lemma order_by_head_minimal {A : Type} (key : A -> Z * Z) (l : list A) (x : A)
    (rest : list A) :
  order_by key l = x :: rest ->
  forall y, In y l -> earlier (key y) (key x) = false.
Proof.
  revert x rest. induction l as [|a l IH]; intros x rest E y Hy; [contradiction|].
  simpl in E. destruct (order_by key l) as [|z r] eqn:Eo.
  - simpl in E. injection E as <- <-.
    assert (Hnil : forall w, ~ In w l).
    { intros w Hw. apply (order_by_In key) in Hw. rewrite Eo in Hw. contradiction. }
    destruct Hy as [<-|Hy]; [|elim (Hnil y Hy)].
    apply not_earlier_spec. lia.
  - simpl in E. specialize (IH z r eq_refl).
    destruct (earlier (key z) (key a)) eqn:Eza.
    + injection E as <- <-. destruct Hy as [<-|Hy]; [|now apply IH].
      apply earlier_spec in Eza. apply not_earlier_spec. lia.
    + injection E as <- <-. destruct Hy as [<-|Hy].
      * apply not_earlier_spec. lia.
      * specialize (IH y Hy). apply not_earlier_spec in IH, Eza.
        apply not_earlier_spec. lia.
Qed.

Lemma order_by_nil {A : Type} (key : A -> Z * Z) (l : list A) :
  order_by key l = [] -> l = [].
Proof.
  destruct l as [|a l]; [reflexivity|]. intros E. exfalso.
  assert (H : In a (order_by key (a :: l))) by (apply order_by_In; now left).
  rewrite E in H. contradiction.
Qed.

Lemma filter_nil_false {A : Type} (f : A -> bool) (l : list A) :
  filter f l = [] -> forall x, In x l -> f x = false.
Proof.
  intros E x Hx. destruct (f x) eqn:Ex; [|reflexivity].
  assert (H : In x (filter f l)) by (apply filter_In; auto).
  rewrite E in H. contradiction.
Qed.

(** X21. [fetch_next_job] and [fetch_next_post_job] claim oldest first: the
    job returned is a ready row of the queue and no ready row has an earlier
    [next_run_at], or the same one and a smaller id; its row is set running,
    the rows with another id stay, and no row is added or removed.  Nothing
    is returned only when no row is ready, and then nothing changes. *)
Theorem fetch_claims_oldest_ready (now : Z) (st : state) :
  (let '(st', claimed_job) := fetch_next_job now st in
   db st' = db st /\ post_queue st' = post_queue st /\
   apify_health st' = apify_health st /\
   map rj_id (run_queue st') = map rj_id (run_queue st) /\
   match claimed_job with
   | None =>
       st' = st /\
       forall j, In j (run_queue st) -> ready now (rj_status j) (rj_next_run_at j) = false
   | Some job =>
       In job (run_queue st) /\
       ready now (rj_status job) (rj_next_run_at job) = true /\
       (forall j, In j (run_queue st) ->
          ready now (rj_status j) (rj_next_run_at j) = true ->
          rj_next_run_at job < rj_next_run_at j \/
          (rj_next_run_at job = rj_next_run_at j /\ rj_id job <= rj_id j)) /\
       (forall j, In j (run_queue st) -> rj_id j <> rj_id job -> In j (run_queue st')) /\
       exists row, In row (run_queue st') /\ rj_id row = rj_id job /\
                   rj_status row = running /\ rj_attempt row = rj_attempt job /\
                   rj_next_run_at row = rj_next_run_at job
   end) /\
  (let '(st', claimed_job) := fetch_next_post_job now st in
   db st' = db st /\ run_queue st' = run_queue st /\
   apify_health st' = apify_health st /\
   map pj_id (post_queue st') = map pj_id (post_queue st) /\
   match claimed_job with
   | None =>
       st' = st /\
       forall j, In j (post_queue st) -> ready now (pj_status j) (pj_next_run_at j) = false
   | Some job =>
       In job (post_queue st) /\
       ready now (pj_status job) (pj_next_run_at job) = true /\
       (forall j, In j (post_queue st) ->
          ready now (pj_status j) (pj_next_run_at j) = true ->
          pj_next_run_at job < pj_next_run_at j \/
          (pj_next_run_at job = pj_next_run_at j /\ pj_id job <= pj_id j)) /\
       (forall j, In j (post_queue st) -> pj_id j <> pj_id job -> In j (post_queue st')) /\
       exists row, In row (post_queue st') /\ pj_id row = pj_id job /\
                   pj_status row = running /\ pj_attempt row = pj_attempt job /\
                   pj_next_run_at row = pj_next_run_at job
   end).
Proof.
  split.
  - unfold fetch_next_job.
    set (is_ready := fun j => ready now (rj_status j) (rj_next_run_at j)).
    destruct (order_by run_key (filter is_ready (run_queue st))) as [|job rest] eqn:E.
    + repeat split. intros j Hj. apply order_by_nil in E.
      exact (filter_nil_false is_ready _ E j Hj).
    + cbn [db post_queue apify_health run_queue with_run_queue].
      split; [reflexivity|]. split; [reflexivity|]. split; [reflexivity|].
      assert (Hin : In job (filter is_ready (run_queue st))).
      { apply (order_by_In run_key). rewrite E. now left. }
      apply filter_In in Hin. destruct Hin as [Hin Hr].
      split.
      { unfold update_run. rewrite map_map. apply map_ext. intros a.
        destruct (rj_id a =? rj_id job); reflexivity. }
      split; [exact Hin|]. split; [exact Hr|]. split; [|split].
      * intros j Hj Hrj.
        assert (Hjf : In j (filter is_ready (run_queue st))) by (apply filter_In; auto).
        pose proof (order_by_head_minimal run_key _ job rest E j Hjf) as Hm.
        apply not_earlier_spec in Hm. unfold run_key in Hm. cbn [fst snd] in Hm. lia.
      * intros j Hj Hne. unfold update_run. apply in_map_iff. exists j.
        split; [|exact Hj]. apply Z.eqb_neq in Hne. now rewrite Hne.
      * eexists. split.
        { unfold update_run. apply in_map_iff. exists job. split; [|exact Hin].
          rewrite Z.eqb_refl. reflexivity. }
        repeat split.
  - unfold fetch_next_post_job.
    set (is_ready := fun j => ready now (pj_status j) (pj_next_run_at j)).
    destruct (order_by post_key (filter is_ready (post_queue st))) as [|job rest] eqn:E.
    + repeat split. intros j Hj. apply order_by_nil in E.
      exact (filter_nil_false is_ready _ E j Hj).
    + cbn [db post_queue apify_health run_queue with_post_queue].
      split; [reflexivity|]. split; [reflexivity|]. split; [reflexivity|].
      assert (Hin : In job (filter is_ready (post_queue st))).
      { apply (order_by_In post_key). rewrite E. now left. }
      apply filter_In in Hin. destruct Hin as [Hin Hr].
      split.
      { unfold update_post. rewrite map_map. apply map_ext. intros a.
        destruct (pj_id a =? pj_id job); reflexivity. }
      split; [exact Hin|]. split; [exact Hr|]. split; [|split].
      * intros j Hj Hrj.
        assert (Hjf : In j (filter is_ready (post_queue st))) by (apply filter_In; auto).
        pose proof (order_by_head_minimal post_key _ job rest E j Hjf) as Hm.
        apply not_earlier_spec in Hm. unfold post_key in Hm. cbn [fst snd] in Hm. lia.
      * intros j Hj Hne. unfold update_post. apply in_map_iff. exists j.
        split; [|exact Hj]. apply Z.eqb_neq in Hne. now rewrite Hne.
      * eexists. split.
        { unfold update_post. apply in_map_iff. exists job. split; [|exact Hin].
          rewrite Z.eqb_refl. reflexivity. }
        repeat split.
Qed.

Section HandlePath.

Variable cfg : config.
Variable sync_handle : tables -> run_job -> tables * list scheduled * outcome unit.
Variable sync_post_checkpoint_batch :
  tables -> Z -> string -> string -> string -> list string ->
  tables * outcome (list string).

Lemma update_run_other (id : Z) (f : run_job -> run_job) (q : list run_job) (j : run_job) :
  In j q -> rj_id j <> id -> In j (update_run id f q).
Proof.
  intros Hj Hne. unfold update_run. apply in_map_iff. exists j.
  split; [|exact Hj]. apply Z.eqb_neq in Hne. now rewrite Hne.
Qed.

Lemma update_run_own (id : Z) (f : run_job -> run_job) (q : list run_job) (j : run_job) :
  In j q -> rj_id j = id -> In (f j) (update_run id f q).
Proof.
  intros Hj He. unfold update_run. apply in_map_iff. exists j.
  split; [|exact Hj]. apply Z.eqb_eq in He. now rewrite He.
Qed.

(** The scheduling calls read and write the post queue only. *)
Lemma schedule_reads_post_queue (job : run_job) (calls : list scheduled) (a b : state) :
  post_queue a = post_queue b ->
  post_queue (fold_left (schedule job) calls a)
  = post_queue (fold_left (schedule job) calls b).
Proof.
  revert a b. induction calls as [|c calls IH]; intros a b Hab; cbn [fold_left];
    [exact Hab|].
  apply IH. unfold schedule, ensure_post_checkpoint_jobs.
  destruct (negb (truthy (s_post_url c))); [exact Hab|].
  destruct (s_posted_at c); [|exact Hab].
  destruct (s_ids c) as [[i3 i7] i21]. cbn [post_queue with_post_queue].
  now rewrite Hab.
Qed.

(** X22. A turn of the worker that claims a handle job outside a cooldown
    never leaves the job running and leaves the other handle jobs alone; the
    store is the one the scrape left, and the post queue is the queue after
    the calls of [ensure_post_checkpoint_jobs] that the scrape made: its rows
    are kept, and only pending rows of the job's subscriber and handle, for
    posts of those calls, are added at its end.  After a scrape that returns,
    the job is done and the breaker is reset; after one that raises, the job
    is retried with one attempt more, at the backoff of that attempt after
    the failure or at the end of the cooldown that this failure started,
    whichever is later, or it is failed when the backoff list is used up. *)
Theorem handle_job_outcome (clk : clock) (st st1 : state) (job : run_job) :
  fetch_next_job (at_claim clk) st = (st1, Some job) ->
  cooling (get_apify_pause_until st) (at_check clk) = None ->
  0 <= rj_attempt job ->
  let st' := worker_turn cfg sync_handle sync_post_checkpoint_batch clk st in
  let backoff := RETRY_BACKOFF_MINUTES cfg in
  let scraped := fst (fst (sync_handle (db st) job)) in
  let calls := snd (fst (sync_handle (db st) job)) in
  db st' = scraped /\
  post_queue st' = post_queue (fold_left (schedule job) calls st) /\
  (exists added,
     post_queue st' = post_queue st ++ added /\
     Forall (fun r => pj_status r = pending /\ pj_attempt r = 0 /\
                      pj_subscriber_id r = rj_subscriber_id job /\
                      pj_handle r = rj_handle job /\
                      In (pj_post_url r) (map s_post_url calls)) added) /\
  (forall j, In j (run_queue st) -> rj_id j <> rj_id job -> In j (run_queue st')) /\
  exists row,
    In row (run_queue st') /\ rj_id row = rj_id job /\
    match snd (sync_handle (db st) job) with
    | Returned _ =>
        rj_status row = done /\ rj_last_error row = None /\
        rj_attempt row = rj_attempt job /\
        apify_health st' =
          {| consecutive_failures := 0; pause_until := None; last_error := None |}
    | Raised safe_error =>
        let failures := consecutive_failures (apify_health st) + 1 in
        let tripped := Z.max 1 (APIFY_COOLDOWN_TRIGGER_FAILURES cfg) <=? failures in
        let delay := nth (Z.to_nat (rj_attempt job)) backoff 0 * 60 in
        rj_last_error row = Some (take 1000 safe_error) /\
        consecutive_failures (apify_health st') = (if tripped then 0 else failures) /\
        if rj_attempt job + 1 <=? Z.of_nat (List.length backoff) then
          rj_status row = retry /\ rj_attempt row = rj_attempt job + 1 /\
          rj_next_run_at row =
            at_done clk +
            (if tripped then Z.max delay (Z.max 1 (APIFY_COOLDOWN_HOURS cfg) * 3600)
             else delay)
        else
          rj_status row = failed /\ rj_attempt row = rj_attempt job /\
          rj_next_run_at row = rj_next_run_at job
    end.
Proof.
  intros Hfetch Hcool Hatt st' backoff scraped calls. subst st' scraped calls.
  unfold worker_turn. rewrite Hfetch, Hcool.
  destruct (fetch_next_job_spec (at_claim clk) st) as [E|(job' & Hin & Hready & E)];
    rewrite E in Hfetch; [discriminate|].
  injection Hfetch as <- ->.
  cbn [db with_run_queue].
  destruct (sync_handle (db st) job) as [[t calls] res]. cbn [fst snd].
  set (claim := fun j => set_run_job running (rj_attempt j) (rj_next_run_at j)
                           (rj_last_error j) j).
  set (st1 := with_db t (with_run_queue (update_run (rj_id job) claim (run_queue st)) st)).
  destruct (schedule_appends job calls st1) as (Hd & Hr & Hh & added & Hq & Hall).
  destruct (schedule_appends job calls st) as (_ & _ & _ & added0 & Hq0 & _).
  cbv zeta in Hd, Hr, Hh, Hq, Hq0.
  assert (Hsame : post_queue (fold_left (schedule job) calls st1)
                  = post_queue (fold_left (schedule job) calls st))
    by now apply schedule_reads_post_queue.
  set (st2 := fold_left (schedule job) calls st1) in *.
  change (db st1) with t in Hd.
  change (run_queue st1) with (update_run (rj_id job) claim (run_queue st)) in Hr.
  change (apify_health st1) with (apify_health st) in Hh.
  change (post_queue st1) with (post_queue st) in Hq.
  assert (Hrow : forall f, In (f (claim job))
                   (update_run (rj_id job) f (run_queue st2))).
  { intros f. rewrite Hr.
    apply update_run_own; [apply update_run_own; [exact Hin|reflexivity]|reflexivity]. }
  assert (Hothers : forall f j, In j (run_queue st) -> rj_id j <> rj_id job ->
                      In j (update_run (rj_id job) f (run_queue st2))).
  { intros f j Hj Hne. rewrite Hr.
    do 2 (apply update_run_other; [|exact Hne]). exact Hj. }
  destruct res as [safe_error|u].
  - unfold handle_failure, record_apify_failure. rewrite Hh.
    set (failures := consecutive_failures (apify_health st) + 1).
    fold backoff.
    assert (Hidx : rj_attempt job + 1 <= Z.of_nat (List.length backoff) ->
              _next_retry_time cfg (at_done clk) (rj_attempt job + 1) =
              at_done clk + nth (Z.to_nat (rj_attempt job)) backoff 0 * 60).
    { intros Hle. unfold _next_retry_time, index. fold backoff.
      replace (Z.min (rj_attempt job + 1 - 1) (Z.of_nat (List.length backoff) - 1))
        with (rj_attempt job) by lia.
      replace (rj_attempt job <? 0) with false by (symmetry; apply Z.ltb_ge; lia).
      reflexivity. }
    destruct (Z.max 1 (APIFY_COOLDOWN_TRIGGER_FAILURES cfg) <=? failures) eqn:Et;
      destruct (rj_attempt job + 1 <=? Z.of_nat (List.length backoff)) eqn:Ea;
      cbn [mark_job_retry mark_job_failed with_health with_run_queue run_queue post_queue
           apify_health consecutive_failures db];
      (split; [exact Hd|]); (split; [exact Hsame|]);
      (split; [exists added; split; [exact Hq|exact Hall]|]);
      (split; [apply Hothers|]);
      (eexists; split; [apply Hrow|]);
      (split; [reflexivity|]); cbn [set_run_job rj_last_error rj_status rj_attempt
                                     rj_next_run_at claim];
      (split; [reflexivity|]); (split; [reflexivity|]);
      try (repeat split; reflexivity).
    + apply Z.leb_le in Ea. rewrite (Hidx Ea). split; [reflexivity|].
      unfold cooling.
      set (delay := nth (Z.to_nat (rj_attempt job)) backoff 0 * 60).
      set (cool := Z.max 1 (APIFY_COOLDOWN_HOURS cfg) * 3600).
      destruct (at_done clk + delay <? at_done clk + cool) eqn:El.
      * apply Z.ltb_lt in El. lia.
      * apply Z.ltb_ge in El. lia.
    + apply Z.leb_le in Ea. rewrite (Hidx Ea). repeat split.
  - cbn [mark_job_success record_apify_success with_health with_db with_run_queue
         run_queue post_queue apify_health db].
    split; [exact Hd|]. split; [exact Hsame|].
    split; [exists added; split; [exact Hq|exact Hall]|].
    split; [apply Hothers|].
    eexists. split; [apply Hrow|].
    repeat split.
Qed.

End HandlePath.

(** A job with two attempts used whose scrape finds a post and then
    times out, on the fifth failure in a row: the three checkpoint jobs of
    the post are queued, and the job is retried at the end of the cooldown,
    three hours after the failure. *)
Lemma handle_job_outcome_witness :
  let st := with_run_queue [Sample.handle_job] Sample.quiet in
  let fails :=
    fun (t : tables) (_ : run_job) =>
      (t,
       [{| s_ids := (11, 12, 13); s_post_url := "new"%string; s_posted_at := Some 0 |}],
       @Raised unit "timeout") in
  let st' := worker_turn Sample.defaults fails Sample.batch_ok Sample.noon st in
  0 <= rj_attempt Sample.handle_job /\
  map pj_checkpoint (post_queue st') = ["d3"; "d7"; "d21"]%string /\
  exists row,
    In row (run_queue st') /\ rj_status row = retry /\ rj_attempt row = 3 /\
    rj_next_run_at row = 12 + 3 * 3600.
Proof.
  intros st fails st'.
  assert (Hatt : 0 <= rj_attempt Sample.handle_job) by (cbn; lia).
  split; [exact Hatt|].
  destruct (handle_job_outcome Sample.defaults fails Sample.batch_ok Sample.noon st
              (fst (fetch_next_job 10 st)) Sample.handle_job eq_refl eq_refl Hatt)
    as (_ & Hposts & _ & _ & row & Hin & _ & H).
  split; [fold st' in Hposts; rewrite Hposts; reflexivity|].
  exists row. split; [exact Hin|].
  cbn in H. destruct H as (_ & _ & Hs & Ha & Hn). auto.
Defined.

(** X23. The breaker counts failures in a row: as long as the count stays
    below max(1, trigger), each [record_apify_failure] adds one, leaves the
    pause as it is and touches no queue; the failure that brings the count to
    the threshold reports the threshold, starts the pause and resets the
    count. *)
Theorem breaker_counts_consecutive_failures (nows : list Z) (error : string)
    (trigger_failures cooldown_hours : Z) (st : state) :
  let threshold := Z.max 1 trigger_failures in
  let count := consecutive_failures (apify_health st) in
  count + Z.of_nat (List.length nows) < threshold ->
  let st' :=
    fold_left
      (fun s now => fst (record_apify_failure now error trigger_failures cooldown_hours s))
      nows st in
  consecutive_failures (apify_health st') = count + Z.of_nat (List.length nows) /\
  pause_until (apify_health st') = pause_until (apify_health st) /\
  db st' = db st /\ run_queue st' = run_queue st /\ post_queue st' = post_queue st /\
  (count + Z.of_nat (List.length nows) = threshold - 1 ->
   forall now,
     let last := record_apify_failure now error trigger_failures cooldown_hours st' in
     snd last = (threshold, Some (now + Z.max 1 cooldown_hours * 3600)) /\
     consecutive_failures (apify_health (fst last)) = 0 /\
     pause_until (apify_health (fst last)) = Some (now + Z.max 1 cooldown_hours * 3600)).
Proof.
  intros threshold count. subst count. revert st.
  induction nows as [|now0 nows IH]; intros st Hlt st'; subst st'.
  - cbn [fold_left List.length Z.of_nat] in *. rewrite Z.add_0_r in *.
    split; [reflexivity|]. split; [reflexivity|]. split; [reflexivity|].
    split; [reflexivity|]. split; [reflexivity|].
    intros Hlast now. unfold record_apify_failure.
    fold threshold. replace (threshold <=? consecutive_failures (apify_health st) + 1)
      with true by (symmetry; apply Z.leb_le; lia).
    cbn. repeat split. f_equal. lia.
  - cbn [fold_left]. cbn [List.length] in Hlt. rewrite Nat2Z.inj_succ in Hlt.
    cbn [List.length]. rewrite Nat2Z.inj_succ.
    set (st1 := fst (record_apify_failure now0 error trigger_failures cooldown_hours st)).
    assert (H1 : consecutive_failures (apify_health st1) =
                   consecutive_failures (apify_health st) + 1 /\
                 pause_until (apify_health st1) = pause_until (apify_health st) /\
                 db st1 = db st /\ run_queue st1 = run_queue st /\
                 post_queue st1 = post_queue st).
    { subst st1. unfold record_apify_failure. fold threshold.
      replace (threshold <=? consecutive_failures (apify_health st) + 1)
        with false by (symmetry; apply Z.leb_gt; lia).
      cbn. repeat split. }
    destruct H1 as (C1 & P1 & D1 & R1 & Q1).
    specialize (IH st1). cbv zeta in IH. rewrite C1, P1, D1, R1, Q1 in IH.
    replace (consecutive_failures (apify_health st) + Z.succ (Z.of_nat (List.length nows)))
      with (consecutive_failures (apify_health st) + 1 + Z.of_nat (List.length nows)) by lia.
    apply IH. lia.
Qed.

Lemma breaker_counts_consecutive_failures_witness :
  let st' :=
    fold_left (fun s now => fst (record_apify_failure now "timeout" 5 3 s))
      [10; 20; 30; 40] (record_apify_success Sample.quiet) in
  consecutive_failures (apify_health st') = 4 /\
  pause_until (apify_health st') = None /\
  snd (record_apify_failure 50 "timeout" 5 3 st') = (5, Some (50 + 3 * 3600)).
Proof.
  intros st'.
  destruct (breaker_counts_consecutive_failures [10; 20; 30; 40] "timeout" 5 3
              (record_apify_success Sample.quiet)) as (C & P & _ & _ & _ & L);
    [simpl; lia|].
  split; [exact C|]. split; [exact P|].
  apply (L eq_refl 50).
Defined.


Section Repeat.

Variable sha256_hexdigest : string -> string.
Variable utc_date : Z -> string.
Variable strip_lower : string -> string.
Variable indexes : list unique_index.

(** X24. Whatever the unique indexes of the table, repeating
    [upsert_alert_candidate] for the same feed, feeder, type and title stores
    nothing: at the same instant always, and up to 24 hours after a call that
    did store a row, whatever the body.  A call that raises stores nothing
    either. *)
Theorem alert_repeat_is_noop (table : list alert_candidate) (now now' feed_id : Z)
    (feeder_id : option Z) (alert_type title body body' : string) :
  let call := upsert_alert_candidate sha256_hexdigest utc_date strip_lower indexes in
  let once := table_after table (call table now feed_id feeder_id alert_type title body) in
  table_after once (call once now feed_id feeder_id alert_type title body') = once /\
  (once <> table -> now' - DAY <= now ->
   table_after once (call once now' feed_id feeder_id alert_type title body') = once) /\
  (call table now feed_id feeder_id alert_type title body = None -> once = table).
Proof.
  intros call once. subst call.
  destruct (existsb (infers CONFLICT_TARGET) indexes) eqn:Hix.
  2:{ assert (Hnone : forall t n b,
        upsert_alert_candidate sha256_hexdigest utc_date strip_lower indexes t n feed_id
          feeder_id alert_type title b = None).
      { intros. unfold upsert_alert_candidate. now rewrite Hix. }
      subst once. rewrite !Hnone. cbn [table_after]. rewrite ?Hnone.
      cbn [table_after]. repeat split. }
  assert (Hins : once = table \/
    forall t, t - DAY <= now ->
      existsb (recent_duplicate feed_id feeder_id alert_type title t) once = true).
  { subst once. unfold upsert_alert_candidate. rewrite Hix. cbn [negb].
    destruct (existsb (recent_duplicate _ _ _ _ _) table) eqn:Er; [now left|].
    destruct (existsb (key_conflict _ _) table) eqn:Ek; [now left|].
    right. cbn [table_after].
    intros t Ht. rewrite existsb_app. cbn [existsb]. unfold recent_duplicate at 2.
    cbn [ac_feed_id ac_feeder_id ac_alert_type ac_title ac_created_at ac_status].
    rewrite !Z.eqb_refl, !String.eqb_refl.
    replace (t - DAY <=? now) with true by (symmetry; apply Z.leb_le; exact Ht).
    change (active "candidate") with true. cbn [andb orb]. apply orb_true_r. }
  split; [|split].
  - destruct Hins as [E|Hrec].
    + rewrite E. subst once. unfold upsert_alert_candidate in *.
      rewrite Hix in *. cbn [negb] in *.
      destruct (existsb (recent_duplicate _ _ _ _ _) table) eqn:Er; [reflexivity|].
      destruct (existsb (key_conflict _ _) table) eqn:Ek; [reflexivity|].
      exfalso. cbn [table_after] in E. apply (f_equal (@List.length _)) in E.
      rewrite length_app in E. cbn in E. lia.
    + unfold upsert_alert_candidate at 1. rewrite Hix. cbn [negb].
      rewrite Hrec; [reflexivity|]. unfold DAY. lia.
  - intros Hne Hnow. destruct Hins as [E|Hrec]; [contradiction|].
    unfold upsert_alert_candidate at 1. rewrite Hix. cbn [negb]. now rewrite Hrec.
  - intros Hnone. subst once. now rewrite Hnone.
Qed.

End Repeat.

(** On the table as [init_db] declares it, with a row from before the key
    column was added: both calls raise, and the table stays. *)
Lemma alert_repeat_is_noop_witness :
  let digest := fun s : string => s in
  let date := fun t : Z => str_of_int (t / 86400) in
  let ascii_strip_lower := fun s : string => lower (strip s) in
  let legacy :=
    [{| ac_feed_id := 1; ac_feeder_id := Some 7;
        ac_alert_type := "velocity_spike"%string; ac_title := "Spike"%string;
        ac_body := "old"%string; ac_alert_dedupe_key := ""%string;
        ac_status := "sent"%string; ac_created_at := 0 |}] in
  let once :=
    table_after legacy
      (upsert_alert_candidate digest date ascii_strip_lower init_db_indexes legacy
         800000 1 (Some 7) "velocity_spike" "Spike" "first") in
  upsert_alert_candidate digest date ascii_strip_lower init_db_indexes legacy
    800000 1 (Some 7) "velocity_spike" "Spike" "first" = None /\
  once = legacy /\
  table_after once
    (upsert_alert_candidate digest date ascii_strip_lower init_db_indexes once
       800000 1 (Some 7) "velocity_spike" "Spike" "second") = once.
Proof.
  intros digest date ascii_strip_lower legacy once.
  destruct (alert_repeat_is_noop digest date ascii_strip_lower init_db_indexes legacy
              800000 800000 1 (Some 7) "velocity_spike" "Spike" "first" "second")
    as (Hsame & _ & Hraise).
  split; [reflexivity|]. split; [exact (Hraise eq_refl)|exact Hsame].
Defined.

End QueueLaws.

(* ------------------------------------------------------------------ *)
(** ** Checkpoints by age, and what a cohort depends on *)

Module CohortLaws.
Import Py PyFacts Classifier ClassifierFacts Store Lifecycle PoolFacts ClassifierOrder.

Lemma lt_below (age : Q) (a b : Z) :
  a <= b -> lt age (inject_Z a) = true -> lt age (inject_Z b) = true.
Proof.
  unfold lt. intros Hab H. apply negb_true_iff in H. apply negb_true_iff.
  destruct (Qle_bool (inject_Z b) age) eqn:E; [|reflexivity].
  apply Qle_bool_iff in E.
  assert (Qle_bool (inject_Z a) age = true); [|congruence].
  apply Qle_bool_iff. apply Qle_trans with (inject_Z b); [|exact E].
  now rewrite <- Zle_Qle.
Qed.

Lemma lt_mono (age1 age2 : Q) (a : Z) :
  (age1 <= age2)%Q -> lt age2 (inject_Z a) = true -> lt age1 (inject_Z a) = true.
Proof.
  unfold lt. intros Hab H. apply negb_true_iff in H. apply negb_true_iff.
  destruct (Qle_bool (inject_Z a) age1) eqn:E; [|reflexivity].
  apply Qle_bool_iff in E.
  assert (Qle_bool (inject_Z a) age2 = true); [|congruence].
  apply Qle_bool_iff. now apply Qle_trans with age1.
Qed.

(** X25. The checkpoint that [_checkpoint_from_age] picks for an age is
    always a column group of the snapshot table, with 1, 3, 7 or 21 days from
    48, 168 and 504 hours on, and it never goes back as the post ages; the
    stage that [_stage_label] shows for it is D1 before 24 hours, D2 from 24
    to 48 hours, where [_checkpoint_from_age] itself still says D1, and the
    label of [_checkpoint_from_age] afterwards. *)
Theorem stage_label_by_age (age : Q) :
  let checkpoint := fst (_checkpoint_from_age age) in
  _stage_label checkpoint age =
    (if lt age 24 then "D1"%string
     else if lt age 48 then "D2"%string
     else snd (_checkpoint_from_age age)) /\
  in_field_map checkpoint = true /\
  _checkpoint_days checkpoint =
    (if lt age 48 then 1 else if lt age 168 then 3 else if lt age 504 then 7 else 21) /\
  forall older, (age <= older)%Q ->
    _checkpoint_days checkpoint <= _checkpoint_days (fst (_checkpoint_from_age older)).
Proof.
  assert (Hdays : forall a,
    _checkpoint_days (fst (_checkpoint_from_age a)) =
      (if lt a 48 then 1 else if lt a 168 then 3 else if lt a 504 then 7 else 21)).
  { intros a. unfold _checkpoint_from_age.
    destruct (lt a 48); [reflexivity|].
    destruct (lt a 168); [reflexivity|].
    destruct (lt a 504); reflexivity. }
  intros checkpoint. subst checkpoint. split; [|split; [|split; [apply Hdays|]]].
  - unfold _checkpoint_from_age.
    destruct (lt age 24) eqn:E24.
    + change 24%Q with (inject_Z 24) in E24.
      rewrite (lt_below age 24 48 ltac:(lia) E24 : lt age 48 = true).
      cbn. change 24%Q with (inject_Z 24). now rewrite E24.
    + destruct (lt age 48); [cbn; now rewrite E24|].
      destruct (lt age 168); [reflexivity|].
      destruct (lt age 504); reflexivity.
  - unfold _checkpoint_from_age.
    destruct (lt age 48); [reflexivity|].
    destruct (lt age 168); [reflexivity|].
    destruct (lt age 504); reflexivity.
  - intros older Hle. rewrite !Hdays.
    pose proof (lt_mono age older 48 Hle) as M48.
    pose proof (lt_mono age older 168 Hle) as M168.
    pose proof (lt_mono age older 504 Hle) as M504.
    change (inject_Z 48) with 48%Q in M48.
    change (inject_Z 168) with 168%Q in M168.
    change (inject_Z 504) with 504%Q in M504.
    destruct (lt older 48); [rewrite M48 by reflexivity; lia|].
    destruct (lt older 168); [rewrite M168 by reflexivity; destruct (lt age 48); lia|].
    destruct (lt older 504);
      [rewrite M504 by reflexivity; destruct (lt age 48), (lt age 168); lia|].
    destruct (lt age 48), (lt age 168), (lt age 504); lia.
Qed.

Lemma filter_filter_implied {A : Type} (f g : A -> bool) (l : list A) :
  (forall r, f r = true -> g r = true) -> filter f (filter g l) = filter f l.
Proof.
  intros H. induction l as [|r l IH]; simpl; [reflexivity|].
  destruct (g r) eqn:G; simpl.
  - now rewrite IH.
  - destruct (f r) eqn:F; [|exact IH]. rewrite (H r F) in G. discriminate.
Qed.

Lemma Permutation_filter_same {A : Type} (f : A -> bool) (l1 l2 : list A) :
  Permutation l1 l2 -> Permutation (filter f l1) (filter f l2).
Proof.
  intros H. induction H as [|x l1 l2 H IH|x y l|l1 l2 l3 H1 IH1 H2 IH2]; simpl.
  - constructor.
  - destruct (f x); [now constructor|exact IH].
  - destruct (f x), (f y); try reflexivity. constructor.
  - now apply Permutation_trans with (filter f l2).
Qed.

Lemma pool_values_permutation (media_type checkpoint : string) (days : Z)
    (l1 l2 : list snapshot) :
  Permutation l1 l2 ->
  Permutation (pool_values media_type checkpoint days l1)
              (pool_values media_type checkpoint days l2).
Proof.
  intros H. induction H as [|x l1 l2 H IH|x y l|l1 l2 l3 H1 IH1 H2 IH2]; simpl.
  - constructor.
  - destruct (pool_value media_type checkpoint days x); [now constructor|exact IH].
  - destruct (pool_value media_type checkpoint days x),
      (pool_value media_type checkpoint days y); try reflexivity. constructor.
  - now apply Permutation_trans with (pool_values media_type checkpoint days l2).
Qed.

Lemma velocity_pool_permutation (db1 db2 : tables) (sub : Z)
    (handle media_type checkpoint : string) :
  Permutation
    (filter (fun r => (snap_subscriber_id r =? sub) && (snap_handle r =? handle)%string)
       (post_snapshots db1))
    (filter (fun r => (snap_subscriber_id r =? sub) && (snap_handle r =? handle)%string)
       (post_snapshots db2)) ->
  Permutation (_velocity_pool db1 sub handle media_type checkpoint)
              (_velocity_pool db2 sub handle media_type checkpoint).
Proof.
  intros H. unfold _velocity_pool.
  destruct (_checkpoint_days checkpoint <=? 0); [constructor|].
  destruct (negb (in_field_map checkpoint)); [constructor|].
  apply pool_values_permutation.
  rewrite <- (filter_filter_implied (pool_row sub handle checkpoint)
                (fun r => (snap_subscriber_id r =? sub) && (snap_handle r =? handle)%string)
                (post_snapshots db1)),
          <- (filter_filter_implied (pool_row sub handle checkpoint)
                (fun r => (snap_subscriber_id r =? sub) && (snap_handle r =? handle)%string)
                (post_snapshots db2)).
  - now apply Permutation_filter_same.
  - intros r Hr. unfold pool_row in Hr. apply andb_true_iff in Hr. tauto.
  - intros r Hr. unfold pool_row in Hr. apply andb_true_iff in Hr. tauto.
Qed.

Lemma tag_for_checkpoint_permutation (db1 db2 : tables) (sub : Z)
    (handle media_type : string) (snap : snapshot) (it : item) (checkpoint : string) :
  (forall m c, Permutation (_velocity_pool db1 sub handle m c)
                           (_velocity_pool db2 sub handle m c)) ->
  _velocity_tag_for_checkpoint db1 sub handle media_type snap it checkpoint =
  _velocity_tag_for_checkpoint db2 sub handle media_type snap it checkpoint.
Proof.
  intros HP. rewrite !tag_for_checkpoint_unfold.
  destruct (_checkpoint_days checkpoint <=? 0); [reflexivity|].
  destruct (_metric_for_checkpoint snap it checkpoint) as [m|]; [|reflexivity].
  specialize (HP media_type checkpoint).
  destruct (_velocity_pool db1 sub handle media_type checkpoint) as [|x1 l1];
    destruct (_velocity_pool db2 sub handle media_type checkpoint) as [|x2 l2].
  - reflexivity.
  - apply Permutation_nil in HP. discriminate.
  - apply Permutation_sym, Permutation_nil in HP. discriminate.
  - rewrite (Permutation_length HP), (percentile_permutation _ _ _ HP). reflexivity.
Qed.

(** X26. The classification of a post reads the snapshots of its own
    subscriber and handle only, and not their order: two stores whose rows for
    that subscriber and handle are the same up to order give the same
    checkpoint tag for every media type and the same percentile and tag. *)
Theorem cohort_ignores_other_handles_and_row_order (db1 db2 : tables) (sub : Z)
    (handle : string) (snap : snapshot) (it : item) (checkpoint : string) :
  Permutation
    (filter (fun r => (snap_subscriber_id r =? sub) && (snap_handle r =? handle)%string)
       (post_snapshots db1))
    (filter (fun r => (snap_subscriber_id r =? sub) && (snap_handle r =? handle)%string)
       (post_snapshots db2)) ->
  (forall media_type,
     _velocity_tag_for_checkpoint db1 sub handle media_type snap it checkpoint =
     _velocity_tag_for_checkpoint db2 sub handle media_type snap it checkpoint) /\
  _velocity_from_snapshots db1 sub handle snap it checkpoint =
  _velocity_from_snapshots db2 sub handle snap it checkpoint.
Proof.
  intros H.
  assert (HP : forall m c, Permutation (_velocity_pool db1 sub handle m c)
                                       (_velocity_pool db2 sub handle m c)).
  { intros m c. now apply velocity_pool_permutation. }
  split; [intros media_type; now apply tag_for_checkpoint_permutation|].
  unfold _velocity_from_snapshots.
  destruct (_checkpoint_days checkpoint <=? 0); [reflexivity|].
  destruct (_metric_for_checkpoint snap it checkpoint) as [m|]; [|reflexivity].
  rewrite (tag_for_checkpoint_permutation db1 db2 sub handle
             (cohort_media_type snap it) snap it "d1" HP).
  specialize (HP (cohort_media_type snap it) checkpoint).
  destruct (_velocity_pool db1 sub handle (cohort_media_type snap it) checkpoint)
    as [|x1 l1];
    destruct (_velocity_pool db2 sub handle (cohort_media_type snap it) checkpoint)
      as [|x2 l2].
  - reflexivity.
  - apply Permutation_nil in HP. discriminate.
  - apply Permutation_sym, Permutation_nil in HP. discriminate.
  - rewrite (Permutation_length HP), (percentile_permutation _ _ _ HP). reflexivity.
Qed.

Lemma cohort_ignores_other_handles_and_row_order_witness :
  let a := Sample.video "a" no_triple (Sample.views_only 100) in
  let b := Sample.video "b" no_triple (Sample.views_only 200) in
  let other :=
    {| snap_subscriber_id := 2; snap_handle := "h"; snap_post_url := "x";
       snap_media_type := Some "Video"%string; snap_posted_at := Some 0;
       snap_d1 := no_triple; snap_d3 := no_triple;
       snap_d7 := Sample.views_only 9000; snap_d21 := no_triple |} in
  let db1 := {| post_snapshots := [a; other; b]; post_signals := [];
                post_checkpoint_metrics := [] |} in
  let db2 := {| post_snapshots := [b; a]; post_signals := [];
                post_checkpoint_metrics := [] |} in
  _velocity_from_snapshots db1 1 "h" a Sample.video_item "d7" =
  _velocity_from_snapshots db2 1 "h" a Sample.video_item "d7".
Proof.
  intros a b other db1 db2.
  apply (cohort_ignores_other_handles_and_row_order db1 db2 1 "h" a Sample.video_item "d7").
  change (Permutation [a; b] [b; a]). apply perm_swap.
Defined.

End CohortLaws.

(* ------------------------------------------------------------------ *)
(** ** Column names of sheets.py, hashtags and mentions *)

Module TextFacts.
Import Py Sheet SheetFacts Captions.

(** X27. [_col_to_a1] of sheets.py and [_col_letter] of sync.py name the
    columns alike from column 1 on; below 1 [_col_to_a1] answers A where
    [_col_letter] answers the empty string.  The name that [_col_to_a1] gives
    reads back as the column number, so two different columns never get one
    name. *)
Theorem col_to_a1_agrees_with_col_letter (n : Z) :
  _col_to_a1 n = _col_letter (Z.max 1 n) /\
  (n <= 0 -> _col_to_a1 n = "A"%string /\ _col_letter n = ""%string) /\
  col_number (_col_to_a1 n) = Z.max 1 n /\
  (forall m, 1 <= n -> 1 <= m -> _col_to_a1 n = _col_to_a1 m -> n = m).
Proof.
  assert (Hagree : forall k, _col_to_a1 k = _col_letter (Z.max 1 k)).
  { intros k. unfold _col_to_a1, _col_letter.
    destruct (k <? 1) eqn:E.
    - apply Z.ltb_lt in E. now replace (Z.max 1 k) with 1 by lia.
    - apply Z.ltb_ge in E. now replace (Z.max 1 k) with k by lia. }
  assert (Hnum : forall k, col_number (_col_to_a1 k) = Z.max 1 k).
  { intros k. rewrite Hagree. unfold _col_letter.
    apply (col_letter_loop_spec (Z.to_nat (Z.max 1 k)) (Z.max 1 k)); lia. }
  split; [apply Hagree|]. split; [|split; [apply Hnum|]].
  - intros Hn. split.
    + rewrite Hagree. now replace (Z.max 1 n) with 1 by lia.
    + unfold _col_letter. replace (Z.to_nat n) with 0%nat by lia. reflexivity.
  - intros m Hn Hm E. apply (f_equal col_number) in E. rewrite !Hnum in E. lia.
Qed.

Lemma col_to_a1_agrees_with_col_letter_witness :
  _col_to_a1 0 = "A"%string /\ _col_letter 0 = ""%string /\
  _col_to_a1 28 = _col_letter 28.
Proof.
  destruct (col_to_a1_agrees_with_col_letter 0) as (_ & H & _).
  destruct (H ltac:(lia)) as [A B].
  split; [exact A|]. split; [exact B|].
  apply (col_to_a1_agrees_with_col_letter 28).
Defined.

Lemma seen_has_In (seen : list string) (t : string) :
  seen_has seen t = true <-> In t seen.
Proof.
  unfold seen_has. rewrite existsb_exists. split.
  - intros (x & Hx & E). apply String.eqb_eq in E. now subst.
  - intros H. exists t. split; [exact H|apply String.eqb_refl].
Qed.

Lemma extract_loop_spec (marker : ascii) (words seen tags : list string) :
  (forall t, In t seen <-> In t tags) -> NoDup tags ->
  let result := extract_loop marker words seen tags in
  NoDup result /\
  (exists added, result = tags ++ added) /\
  (forall t, In t result <->
             In t tags \/ (t <> ""%string /\ In (String marker t) words)).
Proof.
  revert seen tags. induction words as [|w rest IH]; intros seen tags Hs Hn; cbn zeta.
  - cbn [extract_loop]. split; [exact Hn|]. split; [exists []; now rewrite app_nil_r|].
    intros t. simpl. tauto.
  - cbn [extract_loop].
    assert (Hskip :
      (forall t, t <> ""%string -> String marker t <> w) ->
      NoDup (extract_loop marker rest seen tags) /\
      (exists added, extract_loop marker rest seen tags = tags ++ added) /\
      (forall t, In t (extract_loop marker rest seen tags) <->
                 In t tags \/ (t <> ""%string /\ In (String marker t) (w :: rest)))).
    { intros Hw. destruct (IH seen tags Hs Hn) as (A & B & C).
      split; [exact A|]. split; [exact B|].
      intros t. rewrite C. simpl. split; [tauto|].
      intros [H|[Ht [H|H]]]; auto. elim (Hw t Ht). now symmetry. }
    destruct w as [|c t0].
    { apply Hskip. intros t _. discriminate. }
    destruct (Ascii.eqb c marker) eqn:Ec; cbn [andb].
    2:{ apply Hskip. intros t _ E. injection E as E _. subst c.
        rewrite Ascii.eqb_refl in Ec. discriminate. }
    apply Ascii.eqb_eq in Ec. subst c.
    destruct (truthy t0) eqn:Et.
    2:{ apply Hskip. intros t Ht E. injection E as ->. destruct t0; [now elim Ht|discriminate]. }
    assert (Hne : t0 <> ""%string) by (intros ->; discriminate).
    destruct (seen_has seen t0) eqn:Eseen; cbn [negb].
    + apply seen_has_In in Eseen. apply Hs in Eseen.
      destruct (IH seen tags Hs Hn) as (A & B & C).
      split; [exact A|]. split; [exact B|].
      intros t. rewrite C. simpl. split; [tauto|].
      intros [H|[Ht [H|H]]]; auto. injection H as ->. now left.
    + assert (Hnew : ~ In t0 tags).
      { intros H. apply Hs in H. apply seen_has_In in H. congruence. }
      destruct (IH (t0 :: seen) (tags ++ [t0])) as (A & (added & B) & C).
      { intros t. simpl. rewrite in_app_iff, Hs. simpl. tauto. }
      { apply NoDup_app_remove_l with (l := []). simpl.
        apply Permutation_NoDup with (l := t0 :: tags).
        - apply Permutation_cons_append.
        - now constructor. }
      split; [exact A|]. split.
      { exists (t0 :: added). rewrite B, <- app_assoc. reflexivity. }
      intros t. rewrite C, in_app_iff. simpl. split.
      * intros [[H|[<-|[]]]|[Ht H]]; auto.
      * intros [H|[Ht [H|H]]]; auto. injection H as ->. auto.
Qed.

Lemma concat_comma_empty (tags : list string) :
  (forall t, In t tags -> t <> ""%string) ->
  (String.concat "," tags = ""%string <-> tags = []).
Proof.
  intros H. split; [|intros ->; reflexivity].
  destruct tags as [|x [|y l]]; [reflexivity| |]; cbn [String.concat]; intros E.
  - elim (H x); [now left|exact E].
  - exfalso. apply (H x); [now left|].
    destruct x; [reflexivity|discriminate E].
Qed.

(** X28. The tags that [_extract_hashtags] and [_extract_mentions] join
    are, without repetition, what follows the marker in the words that start
    with the marker and are longer than it; they come in the order of their
    first occurrence, so that more words at the end only add tags at the end;
    and the result is the empty string exactly when no word carries a
    tag. *)
Theorem extract_keeps_first_occurrences (marker : ascii) (words : list string) :
  let tags := extract_loop marker words [] [] in
  NoDup tags /\
  (forall t, In t tags <-> t <> ""%string /\ In (String marker t) words) /\
  (forall more, exists added,
     extract_loop marker (words ++ more) [] [] = tags ++ added) /\
  (_extract_hashtags words = ""%string <->
   forall t, In (String "#" t) words -> t = ""%string) /\
  (_extract_mentions words = ""%string <->
   forall t, In (String "@" t) words -> t = ""%string).
Proof.
  intros tags. subst tags.
  assert (Hspec : forall mk,
    NoDup (extract_loop mk words [] []) /\
    (forall t, In t (extract_loop mk words [] []) <->
               t <> ""%string /\ In (String mk t) words)).
  { intros mk. destruct (extract_loop_spec mk words [] []) as (A & _ & C);
      [tauto|constructor|].
    split; [exact A|]. intros t. rewrite (C t). simpl. tauto. }
  assert (Hempty : forall mk,
    String.concat "," (extract_loop mk words [] []) = ""%string <->
    forall t, In (String mk t) words -> t = ""%string).
  { intros mk. destruct (Hspec mk) as [_ C].
    rewrite concat_comma_empty by (intros t Ht; now apply C in Ht).
    split.
    - intros E t Ht. destruct (string_dec t "") as [->|Hne]; [reflexivity|].
      assert (Hin : In t (extract_loop mk words [] [])) by (apply C; auto).
      rewrite E in Hin. contradiction.
    - intros Hall. destruct (extract_loop mk words [] []) as [|x l]; [reflexivity|].
      exfalso. destruct (proj1 (C x) (or_introl eq_refl)) as [Hne Hin].
      apply Hne. now apply Hall. }
  split; [apply Hspec|]. split; [apply Hspec|].
  split; [|split; apply Hempty].
  intros more.
  assert (G : forall ws seen tgs,
    extract_loop marker (ws ++ more) seen tgs =
    extract_loop marker more
      (fold_left (fun s w =>
         match w with
         | String c t =>
             if (Ascii.eqb c marker && truthy t && negb (seen_has s t))%bool
             then t :: s else s
         | EmptyString => s
         end) ws seen)
      (extract_loop marker ws seen tgs)).
  { induction ws as [|w ws IHw]; intros seen tgs; [reflexivity|].
    cbn [app extract_loop fold_left].
    destruct w as [|c t]; [apply IHw|].
    destruct (Ascii.eqb c marker); cbn [andb]; [|apply IHw].
    destruct (truthy t); cbn [andb]; [|apply IHw].
    destruct (seen_has seen t); cbn [negb]; apply IHw. }
  rewrite G.
  assert (Hgen : forall ws seen tgs, exists added,
            extract_loop marker ws seen tgs = tgs ++ added).
  { induction ws as [|w ws IHw]; intros seen tgs.
    - exists []. cbn. now rewrite app_nil_r.
    - cbn [extract_loop]. destruct w as [|c t]; [apply IHw|].
      destruct (Ascii.eqb c marker && truthy t)%bool; [|apply IHw].
      destruct (negb (seen_has seen t)); [|apply IHw].
      destruct (IHw (t :: seen) (tgs ++ [t])) as [added E].
      exists (t :: added). rewrite E, <- app_assoc. reflexivity. }
  apply Hgen.
Qed.

End TextFacts.

(* ------------------------------------------------------------------ *)
(** ** The gate after a classification *)

Module GateLaws.
Import Py PyFacts Classifier ClassifierFacts Store Lifecycle PoolFacts ClassifierOrder.
Import TableFacts StoreLaws.

Lemma hot_test_is_high (t : string) :
  (contains TAG_FIRE (or_else (Some t) "") || contains TAG_ROCKET (or_else (Some t) ""))%bool
  = _is_high_tag (Some t).
Proof. destruct t; reflexivity. Qed.

Lemma is_d7_hot_of_row (db : tables) (sub : Z) (handle url : string) (row : signal)
    (t : string) :
  find (signal_key sub handle url) (post_signals db) = Some row ->
  sig_velocity_tag row = Some t ->
  is_d7_hot db sub handle url = _is_high_tag (Some t).
Proof.
  intros Hf Ht. unfold is_d7_hot. rewrite Hf, Ht. apply hot_test_is_high.
Qed.

Lemma is_high_or_else (a : option string) :
  _is_high_tag (Some (or_else a "")) = _is_high_tag a.
Proof.
  destruct a as [s|]; [|reflexivity]. destruct s; reflexivity.
Qed.

(** X29. After [_apply_velocity] has run for an item with a posting time,
    at whatever checkpoint, the gate [is_d7_hot] of the worker answers from
    the signal it has just stored: false when the stored percentile is
    empty, and otherwise whether the stored percentile is at most 15. *)
Theorem gate_reads_stored_percentile (db : tables) (now sub : Z) (handle : string)
    (it : item) (n : norm) (forced_checkpoint : option string) (posted_at : Z) :
  item_posted_at it = Some posted_at ->
  let db' := fst (_apply_velocity db now sub handle it n forced_checkpoint) in
  exists row,
    find (signal_key sub handle (n_post_url n)) (post_signals db') = Some row /\
    (sig_velocity_percentile row = Some ""%string /\
     is_d7_hot db' sub handle (n_post_url n) = false
     \/
     exists p, 1 <= p <= 100 /\
       sig_velocity_percentile row = Some (percent_string p) /\
       is_d7_hot db' sub handle (n_post_url n) = (p <=? 15)).
Proof.
  intros Hposted db'. subst db'. unfold _apply_velocity. rewrite Hposted.
  unfold apply_velocity_at.
  set (age := (inject_Z (now - posted_at) / 3600)%Q).
  set (checkpoint := match forced_checkpoint with
                     | Some c => if truthy c then c else fst (_checkpoint_from_age age)
                     | None => fst (_checkpoint_from_age age)
                     end).
  set (n0 := set_velocity (n_velocity n) (n_velocity_percentile n)
               (_stage_label checkpoint age) n).
  change (n_post_url n0) with (n_post_url n).
  change (n_views n0) with (n_views n).
  change (n_likes n0) with (n_likes n).
  change (n_comments n0) with (n_comments n).
  set (url := n_post_url n).
  set (gate := if (checkpoint =? "d21")%string then _ else None).
  assert (Hgate : forall snap d7_tag, gate = Some (snap, d7_tag) ->
            d7_tag = _velocity_tag_for_checkpoint db sub handle
                       (cohort_media_type snap it) snap it "d7" /\
            _is_high_tag d7_tag = false).
  { intros snap d7_tag. unfold gate.
    destruct (checkpoint =? "d21")%string; [|discriminate].
    destruct (get_snapshots db sub handle url) as [s|]; [|discriminate].
    destruct (negb (_is_high_tag _)) eqn:E; [|discriminate].
    intros [= <- <-]. split; [reflexivity|]. now apply negb_true_iff in E. }
  destruct gate as [[snap d7_tag]|].
  - destruct (Hgate snap d7_tag eq_refl) as [Hd7 Hcold].
    pose proof (emitted_d7_tag db sub handle snap it) as Hemit. cbv zeta in Hemit.
    rewrite <- Hd7, Hcold, andb_false_r in Hemit.
    pose proof (from_snapshots_cases db sub handle snap it "d7") as Hcases.
    cbv zeta in Hcases.
    destruct (_velocity_from_snapshots db sub handle snap it "d7") as [d7p d7t].
    cbn [fst snd] in Hemit, Hcases. cbv zeta.
    set (tag := if truthy d7t then d7t else or_else d7_tag TAG_CHECK).
    set (pct := or_else d7p "").
    match goal with
    | |- context [upsert_post_signal db sub handle url ?m (Some posted_at) ?c
                    (Some tag) ?s (Some pct)] =>
        destruct (upsert_post_signal_row db sub handle url m posted_at c
                    (Some tag) s (Some pct)) as (row & Hrow & Ht & _ & Hq & _)
    end.
    exists row. split; [exact Hrow|].
    assert (Hcoldtag : _is_high_tag (Some tag) = false).
    { unfold tag. rewrite Hemit. destruct (truthy (or_else d7_tag "")) eqn:E.
      - now rewrite is_high_or_else.
      - destruct d7_tag as [s|]; [|reflexivity]. simpl in *.
        destruct (truthy s) eqn:Es; [congruence|]. reflexivity. }
    rewrite (is_d7_hot_of_row _ sub handle url row tag); [|exact Hrow|exact Ht].
    rewrite Hcoldtag, Hq.
    destruct Hcases as [E|[E|(p & Hp & Ep & Ehot & _)]].
    + injection E as -> _. left. split; reflexivity.
    + injection E as -> _. left. split; reflexivity.
    + right. exists p. split; [exact Hp|]. subst d7p. unfold pct.
      split; [unfold or_else; now rewrite TagSpec.percent_string_truthy|].
      rewrite <- Ehot, Hemit. now rewrite is_high_or_else.
  - set (db1 := upsert_snapshot db now sub handle url (Some (n_media_type n0))
                  (Some posted_at) checkpoint _ _ _).
    destruct (upsert_snapshot_row_exists db now sub handle url (Some (n_media_type n0))
                (Some posted_at) checkpoint (_safe_int (n_views n))
                (_safe_int (n_likes n)) (_safe_int (n_comments n))) as [snap Hsnap].
    fold db1 in Hsnap. rewrite Hsnap.
    pose proof (from_snapshots_cases db1 sub handle snap it checkpoint) as Hcases.
    cbv zeta in Hcases.
    destruct (_velocity_from_snapshots db1 sub handle snap it checkpoint) as [p0 tg].
    cbn [fst snd] in Hcases. cbv zeta.
    set (tag := if truthy tg then tg else TAG_CHECK).
    set (pct := or_else p0 "").
    match goal with
    | |- context [upsert_post_signal db1 sub handle url ?m (Some posted_at) ?c
                    (Some tag) ?s (Some pct)] =>
        destruct (upsert_post_signal_row db1 sub handle url m posted_at c
                    (Some tag) s (Some pct)) as (row & Hrow & Ht & _ & Hq & _)
    end.
    exists row. split; [exact Hrow|].
    rewrite (is_d7_hot_of_row _ sub handle url row tag); [|exact Hrow|exact Ht].
    rewrite Hq.
    destruct Hcases as [E|[E|(p & Hp & Ep & Ehot & Etruthy)]].
    + injection E as -> ->. left. split; reflexivity.
    + injection E as -> ->. left. split; reflexivity.
    + right. exists p. split; [exact Hp|]. subst p0. unfold pct, tag.
      rewrite Etruthy.
      split; [unfold or_else; now rewrite TagSpec.percent_string_truthy|exact Ehot].
Qed.

Lemma gate_reads_stored_percentile_witness :
  let n := {| n_post_url := "own"; n_media_type := "Video"; n_views := "5000";
              n_likes := "3"; n_comments := "1"; n_caption := "";
              n_velocity := ""; n_velocity_percentile := ""; n_velocity_stage := "" |} in
  let db' := fst (_apply_velocity Sample.no_tables 3600 1 "h" Sample.video_item n None) in
  is_d7_hot db' 1 "h" "own" = false.
Proof.
  intros n db'.
  destruct (gate_reads_stored_percentile Sample.no_tables 3600 1 "h" Sample.video_item n
              None 0 eq_refl) as (row & Hrow & [[_ H]|(p & _ & Hp & _)]).
  - exact H.
  - exfalso. vm_compute in Hrow. injection Hrow as <-. cbn in Hp.
    injection Hp as Hp. pose proof (TagSpec.percent_string_truthy p) as T.
    rewrite <- Hp in T. discriminate T.
Defined.

End GateLaws.

(* ------------------------------------------------------------------ *)
(** ** A batch and the breaker *)

Module BatchLaws.
Import Py Classifier Store Queue Worker WorkerFacts.

Lemma update_post_ids (id : Z) (f : post_job -> post_job) (q : list post_job) :
  (forall j, pj_id (f j) = pj_id j) ->
  map pj_id (update_post id f q) = map pj_id q.
Proof.
  intros H. unfold update_post. rewrite map_map. apply map_ext. intros j.
  destruct (pj_id j =? id); [apply H|reflexivity].
Qed.

Lemma fold_steps_frame (step : state -> post_job -> state) :
  (forall st pj, exists f,
     (forall j, pj_id (f j) = pj_id j) /\
     step st pj = with_post_queue (update_post (pj_id pj) f (post_queue st)) st) ->
  forall batch st,
    let st' := fold_left step batch st in
    db st' = db st /\ run_queue st' = run_queue st /\
    apify_health st' = apify_health st /\
    map pj_id (post_queue st') = map pj_id (post_queue st).
Proof.
  intros Hstep batch. induction batch as [|pj rest IH]; intros st; cbn zeta.
  - repeat split.
  - cbn [fold_left]. destruct (Hstep st pj) as (f & Hf & E).
    destruct (IH (step st pj)) as (A & B & C & D). cbv zeta in A, B, C, D.
    rewrite A, B, C, D, E. cbn [db run_queue apify_health post_queue with_post_queue].
    repeat split. now apply update_post_ids.
Qed.

Section Batch.

Variable cfg : config.
Variable sync_post_checkpoint_batch :
  tables -> Z -> string -> string -> string -> list string ->
  tables * outcome (list string).

(** X30. A batch of post jobs is one event for the breaker: whatever its
    size, a batch scrape that raises records one failure, one that returns
    resets the breaker, and a batch sent back during a cooldown leaves the
    breaker and the store alone; the handle queue is never touched and no
    post job is added or removed. *)
Theorem batch_is_one_breaker_event (clk : clock) (pause : option Z)
    (anchor : post_job) (others : list post_job) (st : state) :
  let post_jobs := anchor :: others in
  let st' := run_post_batch cfg sync_post_checkpoint_batch clk pause post_jobs st in
  let scrape :=
    sync_post_checkpoint_batch (db st) (pj_subscriber_id anchor)
      (pj_spreadsheet_id anchor) (pj_handle anchor) (pj_checkpoint anchor)
      (map pj_post_url post_jobs) in
  run_queue st' = run_queue st /\
  map pj_id (post_queue st') = map pj_id (post_queue st) /\
  match cooling pause (at_check clk) with
  | Some _ => apify_health st' = apify_health st /\ db st' = db st
  | None =>
      db st' = fst scrape /\
      match snd scrape with
      | Returned _ =>
          apify_health st' =
            {| consecutive_failures := 0; pause_until := None; last_error := None |}
      | Raised safe_error =>
          apify_health st' =
            apify_health
              (fst (record_apify_failure (at_done clk) safe_error
                      (APIFY_COOLDOWN_TRIGGER_FAILURES cfg) (APIFY_COOLDOWN_HOURS cfg) st))
      end
  end.
Proof.
  intros post_jobs st' scrape. subst st' scrape. unfold run_post_batch. subst post_jobs.
  destruct (cooling pause (at_check clk)) as [p|].
  - destruct (fold_steps_frame
                (fun st pj => mark_post_job_retry (pj_id pj) (pj_attempt pj) p
                                COOLDOWN_ACTIVE st)
                (fun s pj => ex_intro _ (bounce p pj)
                               (conj (fun j => eq_refl) (step_bounce p s pj)))
                (anchor :: others) st) as (A & B & C & D).
    auto.
  - destruct (sync_post_checkpoint_batch (db st) (pj_subscriber_id anchor)
                (pj_spreadsheet_id anchor) (pj_handle anchor) (pj_checkpoint anchor)
                (map pj_post_url (anchor :: others))) as [t [safe_error|batch_results]];
      cbn [fst snd].
    + destruct (record_apify_failure (at_done clk) safe_error
                  (APIFY_COOLDOWN_TRIGGER_FAILURES cfg) (APIFY_COOLDOWN_HOURS cfg)
                  (with_db t st)) as [st3 [failures new_pause]] eqn:Er.
      destruct (fold_steps_frame
                  (fail_post_job cfg (at_done clk) safe_error new_pause)
                  (fun s pj => ex_intro _ (failure cfg (at_done clk) safe_error new_pause pj)
                     (conj (failure_keeps_id cfg (at_done clk) safe_error new_pause pj)
                           (step_failure cfg (at_done clk) safe_error new_pause s pj)))
                  (anchor :: others) st3) as (A & B & C & D).
      cbv zeta in A, B, C, D. rewrite A, B, C, D.
      unfold record_apify_failure in *.
      cbn [apify_health with_db consecutive_failures pause_until last_error] in Er.
      destruct (Z.max 1 (APIFY_COOLDOWN_TRIGGER_FAILURES cfg) <=?
                consecutive_failures (apify_health st) + 1);
        injection Er as <- _ _; repeat split.
    + destruct (fold_steps_frame
                  (resolve_post_job cfg (at_done clk) batch_results)
                  (fun s pj => ex_intro _
                     (resolution cfg (at_done clk) batch_results (db s) pj)
                     (conj (resolution_keeps_id cfg (at_done clk) batch_results (db s) pj)
                           (step_resolution cfg (at_done clk) batch_results s pj)))
                  (anchor :: others) (record_apify_success (with_db t st)))
        as (A & B & C & D).
      cbv zeta in A, B, C, D. rewrite A, B, C, D. repeat split.
Qed.

End Batch.

End BatchLaws.
